(** * dev-browser-skill: port allocation, profile locks and the instance registry

    A shallow embedding of [port-selection.ts], [profile-lock.ts] and
    [instance-registry.ts].  The three modules coordinate independent
    server processes through the file system and through OS signals, so
    the embedding is a state-and-exception monad over a small model of
    the operating system:

    - files are addressed by a pair (directory, name), standing for
      [join(dir, name)]; directories are implicit, so [mkdirSync] with
      [recursive: true] never fails;
    - a file holds either text that [JSON.parse] rejects or text that it
      maps to a JSON value; [JSON.stringify] followed by [JSON.parse] is
      taken at the level of that value;
    - numbers are integers ([Z]): process ids, ports and millisecond
      time stamps are, and the decimal rendering of a template literal
      is [pretty];
    - a running process either answers the signals of the modelled
      process or refuses them with EPERM, as a process of another user
      does; [process.kill] takes whatever is loosely equal to an
      integer for a pid, and the reading of a string as a number is a
      parameter [ToNumber] of the model;
    - between any two system calls of the modelled process, other
      processes may change files, processes and sockets: an environment
      function [env] is applied before every call. *)

From stdpp Require Import gmap strings list fin_maps pretty sorting.

Open Scope Z_scope.

(** ** Strings *)

(** [s.endsWith(suffix)]: some tail of [s] is [suffix]. *)
Fixpoint endsWith (s suffix : string) : bool :=
  if String.eqb s suffix then true
  else match s with
       | EmptyString => false
       | String _ s' => endsWith s' suffix
       end.

(** [msg] contains [part] as a substring, as in [expect(msg).toContain]. *)
Definition includes (msg part : string) : Prop :=
  ∃ before after, msg = before +:+ part +:+ after.

(** [Array.prototype.join]. *)
Fixpoint join (sep : string) (parts : list string) : string :=
  match parts with
  | [] => ""
  | [p] => p
  | p :: rest => p +:+ sep +:+ join sep rest
  end.

(** ** JavaScript values that come out of [JSON.parse] *)

#[local] Set Warnings "-register-all".

Inductive json : Type :=
  | JNull
  | JBool (b : bool)
  | JNum (n : Z)
  | JStr (s : string)
  | JArr (items : list json)
  | JObj (fields : list (string * json)).

(** A value read from a property: [None] is [undefined]. *)
Definition jsval : Type := option json.

Definition JN (n : Z) : jsval := Some (JNum n).

Fixpoint lookup_field (k : string) (fields : list (string * json)) : jsval :=
  match fields with
  | [] => None
  | (k', v) :: rest => if String.eqb k k' then Some v else lookup_field k rest
  end.

(** [v.k] for a [v] that is not [null]: only objects carry the keys read
    by these modules. *)
Definition prop (k : string) (v : json) : jsval :=
  match v with
  | JObj fields => lookup_field k fields
  | _ => None
  end.

Definition is_null (v : json) : bool :=
  match v with JNull => true | _ => false end.

(** [typeof x === "number"] and the number itself. *)
Definition as_number (x : jsval) : option Z :=
  match x with Some (JNum n) => Some n | _ => None end.

Definition as_string (x : jsval) : option string :=
  match x with Some (JStr s) => Some s | _ => None end.

Definition as_boolean (x : jsval) : option bool :=
  match x with Some (JBool b) => Some b | _ => None end.

(** The truthiness test of [if (x)], [!x] and [x && ...]. *)
Definition truthy (x : jsval) : bool :=
  match x with
  | None | Some JNull => false
  | Some (JBool b) => b
  | Some (JNum n) => negb (n =? 0)
  | Some (JStr s) => negb (String.eqb s "")
  | Some (JArr _) | Some (JObj _) => true
  end.

(** [`${x}`] inside a template literal. *)
Fixpoint ToString_json (v : json) : string :=
  match v with
  | JNull => "null"
  | JBool true => "true"
  | JBool false => "false"
  | JNum n => pretty n
  | JStr s => s
  | JArr items =>
      join "," (List.map (λ e, match e with JNull => "" | _ => ToString_json e end) items)
  | JObj _ => "[object Object]"
  end.

Definition ToString (x : jsval) : string :=
  match x with
  | None => "undefined"
  | Some v => ToString_json v
  end.

(** ** The records of the three modules *)

Module PortSelectionResult.
Record t : Type := mk {
  port : Z;
  cdpPort : Z;
  wasAutoSelected : bool;
  requestedPort : Z
}.
End PortSelectionResult.

Inductive Mode : Type := launch | relay.

Module InstanceInfo.
Record t : Type := mk {
  pid : Z;
  port : Z;
  cdpPort : Z;
  mode : Mode;
  label : string;
  headless : bool;
  startedAt : string;
  profileDir : option string;
  chromePid : option Z
}.
End InstanceInfo.

(** What [readLock] hands back: [pid] and [port] have passed the
    [typeof] test, [startedAt] is whatever the file holds. *)
Module LockInfo.
Record t : Type := mk {
  pid : Z;
  port : Z;
  startedAt : jsval
}.
End LockInfo.

Module StopResult.
Record t : Type := mk {
  port : Z;
  success : bool;
  message : string
}.
End StopResult.

Definition Mode_name (m : Mode) : string :=
  match m with launch => "launch" | relay => "relay" end.

(** [JSON.stringify(info, null, 2)], as the value the text parses to:
    properties that are [undefined] are left out. *)
Definition stringify_InstanceInfo (info : InstanceInfo.t) : json :=
  JObj ([ ("pid", JNum (InstanceInfo.pid info));
          ("port", JNum (InstanceInfo.port info));
          ("cdpPort", JNum (InstanceInfo.cdpPort info));
          ("mode", JStr (Mode_name (InstanceInfo.mode info)));
          ("label", JStr (InstanceInfo.label info));
          ("headless", JBool (InstanceInfo.headless info));
          ("startedAt", JStr (InstanceInfo.startedAt info)) ]
        ++ match InstanceInfo.profileDir info with
           | Some d => [("profileDir", JStr d)]
           | None => []
           end
        ++ match InstanceInfo.chromePid info with
           | Some c => [("chromePid", JNum c)]
           | None => []
           end).

Definition stringify_LockInfo (lock : LockInfo.t) : json :=
  JObj ([ ("pid", JNum (LockInfo.pid lock));
          ("port", JNum (LockInfo.port lock)) ]
        ++ match LockInfo.startedAt lock with
           | Some v => [("startedAt", v)]
           | None => []
           end).

(** A parsed registry value seen through the [InstanceInfo] interface:
    every declared field read back with its declared type. *)
Definition as_Mode (x : jsval) : option Mode :=
  match as_string x with
  | Some s => if String.eqb s "launch" then Some launch
              else if String.eqb s "relay" then Some relay else None
  | None => None
  end.

Definition optional {A} (read : jsval → option A) (x : jsval) : option (option A) :=
  match x with
  | None => Some None
  | Some _ => match read x with Some a => Some (Some a) | None => None end
  end.

Definition as_InstanceInfo (v : json) : option InstanceInfo.t :=
  pid ← as_number (prop "pid" v);
  port ← as_number (prop "port" v);
  cdpPort ← as_number (prop "cdpPort" v);
  mode ← as_Mode (prop "mode" v);
  label ← as_string (prop "label" v);
  headless ← as_boolean (prop "headless" v);
  startedAt ← as_string (prop "startedAt" v);
  profileDir ← optional as_string (prop "profileDir" v);
  chromePid ← optional as_number (prop "chromePid" v);
  Some (InstanceInfo.mk pid port cdpPort mode label headless startedAt profileDir chromePid).

(** ** The operating system *)

(** [join(dir, name)]. *)
Abbreviation filepath := (string * string)%type (only parsing).

Inductive FileData : Type :=
  | Text (raw : string)   (* [JSON.parse] throws a SyntaxError on it *)
  | Json (v : json).      (* [JSON.parse] returns [v] *)

(** The system as the modelled process sees it: the files; the running
    processes that it may signal ([procs]: on them [kill] succeeds, the
    existence probe [kill(pid, 0)] included); the running processes that
    it may not signal, those of another user ([guarded]: on them every
    [kill] fails with EPERM); the TCP ports on which a bind on 127.0.0.1
    fails; and the clock. *)
Record World : Type := mkWorld {
  files : gmap filepath FileData;
  procs : gset Z;
  guarded : gset Z;
  bound : gset Z;
  now_ms : Z
}.

Inductive Signal : Type := SIG0 | SIGTERM | SIGKILL.

Inductive Call : Type :=
  | Mkdir (dir : string)
  | Exists (p : filepath)
  | ReadFile (p : filepath)
  | Create (p : filepath) (data : FileData)      (* [writeFileSync] with flag "wx" *)
  | WriteFile (p : filepath) (data : FileData)
  | Unlink (p : filepath)
  | Readdir (dir : string)
  | Kill (pid : Z) (sig : Signal)
  | Listen (port : Z).

Inductive Errno : Type := EEXIST | ENOENT | ESRCH | EPERM | EADDRINUSE.

Inductive exn : Type :=
  | Error (message : string)
  | ErrnoException (code : Errno) (call : Call)
  | TypeError
  | RangeError
  | SyntaxError.

Inductive Result (A : Type) : Type :=
  | Ok (a : A)
  | Throw (e : exn).
Arguments Ok {A} a.
Arguments Throw {A} e.

(** The running process: the world it shares with the others, the system
    calls it has made so far with their outcome, and what it printed. *)
Record State : Type := mkState {
  world : World;
  trace : list (Call * option Errno);
  console : list string
}.

Definition M (A : Type) : Type := State → Result A * State.

#[global] Instance M_ret : MRet M := λ A a st, (Ok a, st).

#[global] Instance M_bind : MBind M := λ A B f m st,
  match m st with
  | (Ok a, st') => f a st'
  | (Throw e, st') => (Throw e, st')
  end.

Definition throw {A} (e : exn) : M A := λ st, (Throw e, st).

(** [try { body } catch (err) { handler(err) }]. *)
Definition try_catch {A} (body : M A) (handler : exn → M A) : M A := λ st,
  match body st with
  | (Ok a, st') => (Ok a, st')
  | (Throw e, st') => handler e st'
  end.

Definition console_log (line : string) : M unit := λ st,
  (Ok (), mkState (world st) (trace st) (console st ++ [line])).

Definition Date_now : M Z := λ st, (Ok (now_ms (world st)), st).

(** [for (const x of xs) { body }] over an accumulator. *)
Fixpoint for_of {A B} (xs : list A) (acc : B) (body : B → A → M B) : M B :=
  match xs with
  | [] => mret acc
  | x :: rest => acc' ← body acc x; for_of rest acc' body
  end.

(** [if (cond) { body }] without [else]. *)
Definition when (cond : bool) (body : M unit) : M unit :=
  if cond then body else mret ().

(** The existence probe [kill(pid, 0)] of the modelled process succeeds. *)
Definition alive (w : World) (pid : Z) : bool := bool_decide (pid ∈ procs w).

(** [pid] is a live process, whether or not the modelled process may
    signal it. *)
Definition running (w : World) (pid : Z) : bool :=
  alive w pid || bool_decide (pid ∈ guarded w).

(** What [kill(pid, sig)] answers: success, EPERM for a process of
    another user, ESRCH where there is no such process. *)
Definition kill_outcome (w : World) (pid : Z) : option Errno :=
  if alive w pid then None
  else if bool_decide (pid ∈ guarded w) then Some EPERM
  else Some ESRCH.

Definition valid_port (port : Z) : bool := (0 <=? port) && (port <=? 65535).

(** [readdirSync(dir)]. *)
Definition dir_entries (dir : string) (fs : gmap filepath FileData) : list string :=
  omap (λ kv : filepath * FileData, if decide (kv.1.1 = dir) then Some kv.1.2 else None)
       (map_to_list fs).

Definition dquote : string := String (Ascii.ascii_of_nat 34) EmptyString.

(** [a.port - b.port]; a difference that is NaN counts as 0. *)
Definition port_diff (a b : json) : Z :=
  match as_number (prop "port" a), as_number (prop "port" b) with
  | Some x, Some y => x - y
  | _, _ => 0
  end.

Definition by_port (a b : json) : Prop := port_diff a b ≤ 0.

#[global] Instance by_port_dec (a b : json) : Decision (by_port a b) :=
  decide (port_diff a b ≤ 0).

(** ** System calls and the three modules *)

Section Model.

(** What the other processes do before the [n]-th system call. *)
Variable env : nat → World → World.
(** [Number(s)] for a string [s], where it is an integer of 32 bits;
    [None] where it is NaN, a fraction, or out of that range. *)
Variable ToNumber : string → option Z.
(** [process.pid]. *)
Variable process_pid : Z.
(** [new Date(ms).toISOString()]. *)
Variable toISOString : Z → string.
(** [new Date(s).getTime()]; [None] is NaN, for a string that is no date. *)
Variable Date_getTime : string → option Z.

Definition syscall {A} (c : Call) (f : World → (Errno + A) * World) : M A := λ st,
  match f (env (length (trace st)) (world st)) with
  | (inr a, w) => (Ok a, mkState w (trace st ++ [(c, None)]) (console st))
  | (inl e, w) => (Throw (ErrnoException e c), mkState w (trace st ++ [(c, Some e)]) (console st))
  end.

Definition set_files (fs : gmap filepath FileData) (w : World) : World :=
  mkWorld fs (procs w) (guarded w) (bound w) (now_ms w).

Definition mkdirSync (dir : string) : M unit :=
  syscall (Mkdir dir) (λ w, (inr (), w)).

Definition existsSync (p : filepath) : M bool :=
  syscall (Exists p) (λ w, (inr (bool_decide (is_Some (files w !! p))), w)).

Definition readFileSync (p : filepath) : M FileData :=
  syscall (ReadFile p) (λ w,
    match files w !! p with
    | Some data => (inr data, w)
    | None => (inl ENOENT, w)
    end).

Definition writeFileSync (p : filepath) (data : FileData) : M unit :=
  syscall (WriteFile p data) (λ w, (inr (), set_files (<[p := data]> (files w)) w)).

(** [writeFileSync(p, data, { flag: "wx" })]: create, fail if it exists. *)
Definition writeFileSync_wx (p : filepath) (data : FileData) : M unit :=
  syscall (Create p data) (λ w,
    match files w !! p with
    | Some _ => (inl EEXIST, w)
    | None => (inr (), set_files (<[p := data]> (files w)) w)
    end).

Definition unlinkSync (p : filepath) : M unit :=
  syscall (Unlink p) (λ w,
    match files w !! p with
    | Some _ => (inr (), set_files (delete p (files w)) w)
    | None => (inl ENOENT, w)
    end).

Definition readdirSync (dir : string) : M (list string) :=
  syscall (Readdir dir) (λ w, (inr (dir_entries dir (files w)), w)).

(** The process id that [process.kill] makes of its argument.  Node
    throws a TypeError where [pid != (pid | 0)], which lets through
    whatever is loosely equal to an integer of 32 bits: a boolean, and a
    string or an array whose text [ToNumber] reads as such a number;
    [null], [undefined] and the objects of [JSON.parse] are refused.  A
    number is a process id as it stands: the numbers of the model are
    integers, and the pids among them are taken within 32 bits. *)
Definition as_pid (pid : jsval) : option Z :=
  match pid with
  | None | Some JNull | Some (JObj _) => None
  | Some (JNum n) => Some n
  | Some (JBool b) => Some (if b then 1 else 0)
  | Some (JStr s) => ToNumber s
  | Some (JArr items) => ToNumber (ToString_json (JArr items))
  end.

(** [process.kill(pid, sig)]. *)
Definition process_kill (pid : jsval) (sig : Signal) : M unit :=
  match as_pid pid with
  | Some n => syscall (Kill n sig)
                (λ w, match kill_outcome w n with
                      | None => (inr (), w)
                      | Some code => (inl code, w)
                      end)
  | None => throw TypeError
  end.

(** [server.listen(port, "127.0.0.1")] up to the "listening" or "error"
    event: Node throws a RangeError for a port outside 0..65535. *)
Definition listen (port : Z) : M unit :=
  if valid_port port
  then syscall (Listen port)
         (λ w, if bool_decide (port ∈ bound w) then (inl EADDRINUSE, w) else (inr (), w))
  else throw RangeError.

Definition JSON_parse (raw : FileData) : M json :=
  match raw with
  | Text _ => throw SyntaxError
  | Json v => mret v
  end.

(** [v.k]: a TypeError when [v] is [null]. *)
Definition get (k : string) (v : json) : M jsval :=
  if is_null v then throw TypeError else mret (prop k v).

(** *** port-selection.ts *)

Definition isPortAvailable (port : Z) : M bool :=
  try_catch (listen port ;; mret true)
    (λ e, match e with
          | ErrnoException _ _ => mret false
          | _ => throw e
          end).

(** The [for] loop of [findAvailablePort]: [inl] is its [return],
    [inr] the value of [candidate] when the loop is left. *)
Fixpoint scan (requestedPort : Z) (attempts : nat) (candidate : Z)
    : M (PortSelectionResult.t + Z) :=
  match attempts with
  | O => mret (inr candidate)
  | S attempts' =>
      let cdpCandidate := candidate + 1 in
      if (candidate >? 65535) || (cdpCandidate >? 65535) then mret (inr candidate)
      else
        httpFree ← isPortAvailable candidate;
        cdpFree ← isPortAvailable cdpCandidate;
        if httpFree && cdpFree
        then mret (inl (PortSelectionResult.mk candidate cdpCandidate
                          (negb (candidate =? requestedPort)) requestedPort))
        else scan requestedPort attempts' (candidate + 2)
  end.

Definition findAvailablePort (requestedPort : Z) (requestedCdpPort : option Z)
    (maxAttempts : Z) : M PortSelectionResult.t :=
  match requestedCdpPort with
  | Some cdp =>
      httpFree ← isPortAvailable requestedPort;
      cdpFree ← isPortAvailable cdp;
      if negb httpFree
      then throw (Error ("Port " +:+ pretty requestedPort
                         +:+ " is already in use. Specify a different --port."))
      else if negb cdpFree
      then throw (Error ("CDP port " +:+ pretty cdp
                         +:+ " is already in use. Specify a different --cdp-port."))
      else mret (PortSelectionResult.mk requestedPort cdp false requestedPort)
  | None =>
      r ← scan requestedPort (Z.to_nat maxAttempts) requestedPort;
      match r with
      | inl result => mret result
      | inr candidate =>
          throw (Error ("Could not find an available port pair after "
                        +:+ pretty maxAttempts +:+ " attempts (tried "
                        +:+ pretty requestedPort +:+ "–" +:+ pretty (candidate - 2)
                        +:+ "). Specify an explicit --port."))
      end
  end.

(** *** instance-registry.ts *)

(** [~] stands for [homedir()]. *)
Definition INSTANCES_DIR : string := "~/.dev-browser-skill/instances".

Definition ensureDir : M unit := mkdirSync INSTANCES_DIR.

Definition instancePath (port : jsval) : filepath :=
  (INSTANCES_DIR, ToString port +:+ ".json").

Definition registerInstance (info : InstanceInfo.t) : M unit :=
  ensureDir ;;
  writeFileSync (instancePath (JN (InstanceInfo.port info)))
                (Json (stringify_InstanceInfo info)).

Definition unregisterInstance (port : jsval) : M unit :=
  try_catch (unlinkSync (instancePath port)) (λ _, mret ()).

Definition isProcessRunning (pid : jsval) : M bool :=
  try_catch (process_kill pid SIG0 ;; mret true) (λ _, mret false).

(** [results.sort((a, b) => a.port - b.port)]: with two elements or more
    the comparator reads [.port] of each of them, which throws on [null].
    Where every port is a number the comparator is consistent and the
    result is the list sorted by port. *)
Definition sort_by_port (results : list json) : M (list json) :=
  if (2 <=? length results)%nat && existsb is_null results
  then throw TypeError
  else mret (merge_sort by_port results).

(** The body of the loop of [listInstances] over the directory. *)
Definition listInstances_file (results : list json) (file : string) : M (list json) :=
  if negb (endsWith file ".json") then mret results
  else try_catch
         (raw ← readFileSync (INSTANCES_DIR, file);
          info ← JSON_parse raw;
          mret (results ++ [info]))
         (λ _, mret results).

Definition listInstances : M (list json) :=
  ensureDir ;;
  listing ← try_catch (names ← readdirSync INSTANCES_DIR; mret (Some names))
                      (λ _, mret None);
  match listing with
  | None => mret []
  | Some names =>
      results ← for_of names [] listInstances_file;
      sort_by_port results
  end.

(** The body of the loop of [cleanStaleInstances] over the records. *)
Definition cleanStaleInstances_info (stale : list json) (info : json) : M (list json) :=
  pid ← get "pid" info;
  running ← isProcessRunning pid;
  if negb running
  then port ← get "port" info;
       unregisterInstance port ;;
       mret (stale ++ [info])
  else mret stale.

Definition cleanStaleInstances : M (list json) :=
  all ← listInstances;
  for_of all [] cleanStaleInstances_info.

Definition formatUptime (startedAt : string) : M string :=
  now ← Date_now;
  match Date_getTime startedAt with
  | None => mret "NaNs"
  | Some start =>
      let diffMs := now - start in
      if diffMs <? 0 then mret "0s"
      else
        let seconds := diffMs / 1000 in
        let minutes := seconds / 60 in
        let hours := minutes / 60 in
        let days := hours / 24 in
        if days >? 0 then mret (pretty days +:+ "d " +:+ pretty (hours `mod` 24) +:+ "h")
        else if hours >? 0
        then mret (pretty hours +:+ "h " +:+ pretty (minutes `mod` 60) +:+ "m")
        else if minutes >? 0 then mret (pretty minutes +:+ "m")
        else mret (pretty seconds +:+ "s")
  end.

Definition getInstance (port : Z) : M json :=
  try_catch (raw ← readFileSync (instancePath (JN port)); JSON_parse raw)
            (λ _, mret JNull).

Definition sendSignal (pid : jsval) (sig : Signal) : M bool :=
  try_catch (process_kill pid sig ;; mret true) (λ _, mret false).

(** [check] of [waitForExit]: one probe now and, while the process is
    there, one more after each interval until the timeout is over. *)
Fixpoint waitForExit_check (pid : jsval) (timers : nat) : M bool :=
  running ← isProcessRunning pid;
  if negb running then mret true
  else match timers with
       | O => mret false
       | S timers' => waitForExit_check pid timers'
       end.

Definition waitForExit (pid : jsval) (timeoutMs intervalMs : Z) : M bool :=
  waitForExit_check pid (Z.to_nat (timeoutMs / intervalMs)).

Definition stopInstance (port : Z) : M StopResult.t :=
  info ← getInstance port;
  if negb (truthy (Some info))
  then mret (StopResult.mk port false ("No instance registered on port " +:+ pretty port))
  else
    let pid := prop "pid" info in
    let chromePid := prop "chromePid" info in
    running ← isProcessRunning pid;
    if negb running
    then
      when (truthy chromePid)
        (chromeRunning ← isProcessRunning chromePid;
         when chromeRunning
           (sendSignal chromePid SIGKILL ;;
            console_log ("Killed orphaned Chrome process (PID " +:+ ToString chromePid
                         +:+ ") for port " +:+ pretty port))) ;;
      unregisterInstance (JN port) ;;
      mret (StopResult.mk port true
              ("Instance on port " +:+ pretty port
               +:+ " was already stopped (cleaned registry)"))
    else
      console_log ("Sending SIGTERM to server PID " +:+ ToString pid +:+ " on port "
                   +:+ pretty port +:+ "...") ;;
      sendSignal pid SIGTERM ;;
      serverExited ← waitForExit pid 5000 200;
      when (negb serverExited)
        (console_log ("Server PID " +:+ ToString pid
                      +:+ " did not exit after 5s, sending SIGKILL...") ;;
         sendSignal pid SIGKILL ;;
         waitForExit pid 2000 200 ;;
         mret ()) ;;
      when (truthy chromePid)
        (chromeRunning ← isProcessRunning chromePid;
         when chromeRunning
           (console_log ("Chrome PID " +:+ ToString chromePid
                         +:+ " still running, sending SIGKILL...") ;;
            sendSignal chromePid SIGKILL ;;
            waitForExit chromePid 2000 200 ;;
            mret ())) ;;
      unregisterInstance (JN port) ;;
      serverRunning ← isProcessRunning pid;
      let serverGone := negb serverRunning in
      chromeGone ← (if negb (truthy chromePid) then mret true
                    else chromeRunning ← isProcessRunning chromePid;
                         mret (negb chromeRunning));
      if serverGone && chromeGone
      then mret (StopResult.mk port true
                   ("Instance on port " +:+ pretty port +:+ " stopped successfully"))
      else mret (StopResult.mk port false
                   ("Instance on port " +:+ pretty port
                    +:+ " may not have fully stopped (server: "
                    +:+ (if serverGone then "stopped" else "running")
                    +:+ ", chrome: "
                    +:+ (if chromeGone then "stopped" else "running") +:+ ")")).

(** *** profile-lock.ts *)

Definition LOCK_FILENAME : string := ".dev-browser.lock".

Definition lockFilePath (profileDir : string) : filepath := (profileDir, LOCK_FILENAME).

Definition readLock (profileDir : string) : M (option LockInfo.t) :=
  let path := lockFilePath profileDir in
  found ← existsSync path;
  if negb found then mret None
  else try_catch
         (raw ← readFileSync path;
          data ← JSON_parse raw;
          pid ← get "pid" data;
          port ← get "port" data;
          match as_number pid, as_number port with
          | Some pid, Some port =>
              mret (Some (LockInfo.mk pid port (prop "startedAt" data)))
          | _, _ => mret None
          end)
         (λ _, mret None).

Definition removeLock (profileDir : string) : M unit :=
  try_catch (unlinkSync (lockFilePath profileDir)) (λ _, mret ()).

Definition locked_message (profileDir : string) (existing : LockInfo.t) : string :=
  "Profile directory " +:+ dquote +:+ profileDir +:+ dquote
  +:+ " is locked by another instance "
  +:+ "(PID " +:+ pretty (LockInfo.pid existing)
  +:+ ", port " +:+ pretty (LockInfo.port existing)
  +:+ ", started " +:+ ToString (LockInfo.startedAt existing) +:+ "). "
  +:+ "Use a different --profile-dir or stop the other instance first.".

Definition just_locked_message (profileDir : string) (winner : LockInfo.t) : string :=
  "Profile directory " +:+ dquote +:+ profileDir +:+ dquote
  +:+ " was just locked by PID " +:+ pretty (LockInfo.pid winner)
  +:+ " on port " +:+ pretty (LockInfo.port winner) +:+ ".".

(** The [catch] branch of [acquireProfileLock] for the code EEXIST. *)
Definition acquire_after_EEXIST (profileDir : string) (lockData : LockInfo.t) : M unit :=
  winner ← readLock profileDir;
  winnerRunning ← match winner with
                  | Some w => isProcessRunning (JN (LockInfo.pid w))
                  | None => mret false
                  end;
  match winner with
  | Some w => when winnerRunning (throw (Error (just_locked_message profileDir w)))
  | None => mret ()
  end ;;
  removeLock profileDir ;;
  writeFileSync_wx (lockFilePath profileDir) (Json (stringify_LockInfo lockData)).

(** [acquireProfileLock] up to the first exclusive create: the lock
    record to write, or the error for a live holder. *)
Definition acquire_prepare (profileDir : string) (port : Z) : M LockInfo.t :=
  mkdirSync profileDir ;;
  existing ← readLock profileDir;
  match existing with
  | Some e =>
      running ← isProcessRunning (JN (LockInfo.pid e));
      when running (throw (Error (locked_message profileDir e))) ;;
      console_log ("Removing stale profile lock (PID " +:+ pretty (LockInfo.pid e)
                   +:+ " is no longer running)") ;;
      removeLock profileDir
  | None => mret ()
  end ;;
  now ← Date_now;
  mret (LockInfo.mk process_pid port (Some (JStr (toISOString now)))).

Definition acquireProfileLock (profileDir : string) (port : Z) : M unit :=
  lockData ← acquire_prepare profileDir port;
  try_catch
    (writeFileSync_wx (lockFilePath profileDir) (Json (stringify_LockInfo lockData)))
    (λ err, match err with
            | ErrnoException EEXIST _ => acquire_after_EEXIST profileDir lockData
            | _ => throw err
            end).

End Model.

(** ** Notions used by the statements *)

(** The environment in which no other process acts. *)
Definition no_interference : nat → World → World := λ _ w, w.

(** [isPortAvailable(port)] resolves to [true] in [w]. *)
Definition port_free (w : World) (port : Z) : bool :=
  valid_port port && negb (bool_decide (port ∈ bound w)).

(** The rendering of an elapsed time in milliseconds as the
    specification words it: by the size of the elapsed time. *)
Definition uptime_rendering_spec (elapsed : Z) : string :=
  let s := elapsed / 1000 in
  let m := elapsed / (60 * 1000) in
  let h := elapsed / (3600 * 1000) in
  let d := elapsed / (86400 * 1000) in
  if elapsed <? 0 then "0s"
  else if elapsed <? 60 * 1000 then pretty s +:+ "s"
  else if elapsed <? 3600 * 1000 then pretty m +:+ "m"
  else if elapsed <? 86400 * 1000 then pretty h +:+ "h " +:+ pretty (m `mod` 60) +:+ "m"
  else pretty d +:+ "d " +:+ pretty (h `mod` 24) +:+ "h".

(** A lock file that does not parse to a lock record: no JSON, or JSON
    whose [pid] or [port] is no number. *)
Definition malformed_lock (data : FileData) : Prop :=
  match data with
  | Text _ => True
  | Json v => as_number (prop "pid" v) = None ∨ as_number (prop "port" v) = None
  end.

(** System calls that only look. *)
Definition inspection (ev : Call * option Errno) : Prop :=
  match ev.1 with
  | Exists _ | ReadFile _ | Kill _ SIG0 => True
  | _ => False
  end.

(** What an exclusive create returns for its outcome in the trace. *)
Definition create_result (p : filepath) (data : FileData) (outcome : option Errno)
    : Result unit :=
  match outcome with
  | None => Ok ()
  | Some code => Throw (ErrnoException code (Create p data))
  end.

(** The conflict errors of profile-lock.ts: the two errors that describe
    the holder of the lock. *)
Definition conflict_error (profileDir : string) (e : exn) : Prop :=
  ∃ holder, e = Error (locked_message profileDir holder)
            ∨ e = Error (just_locked_message profileDir holder).

(** The outcomes of the exclusive creates in a trace, in order. *)
Definition create_outcomes (tr : list (Call * option Errno)) : list (option Errno) :=
  omap (λ ev : Call * option Errno,
          match ev.1 with Create _ _ => Some ev.2 | _ => None end) tr.

(** The registry holds the record [info] under its port. *)
Definition registered (w : World) (info : InstanceInfo.t) : Prop :=
  files w !! instancePath (JN (InstanceInfo.port info))
  = Some (Json (stringify_InstanceInfo info)).

(** The registry directory as the registry itself leaves it: a [.json]
    file that parses holds a record and is named by that record's port.
    Files with another suffix and files that do not parse are free. *)
Definition registry_wf (w : World) : Prop :=
  ∀ name v,
    files w !! (INSTANCES_DIR, name) = Some (Json v) →
    endsWith name ".json" = true →
    ∃ info, v = stringify_InstanceInfo info
            ∧ name = pretty (InstanceInfo.port info) +:+ ".json".

(** What [listInstances] collects from the file [name] of the registry
    directory, and from all of its files in the order of [readdirSync]. *)
Definition parsed_entry (fs : gmap filepath FileData) (name : string) : list json :=
  if endsWith name ".json"
  then match fs !! (INSTANCES_DIR, name) with
       | Some (Json v) => [v]
       | _ => []
       end
  else [].

Definition registry_values (fs : gmap filepath FileData) : list json :=
  dir_entries INSTANCES_DIR fs ≫= parsed_entry fs.

(** [cleanStaleInstances] takes [v] for stale in [w]. *)
Definition stale_in (w : World) (v : json) : bool :=
  match as_number (prop "pid" v) with
  | Some pid => negb (alive w pid)
  | None => true
  end.

(** The files left after [unregisterInstance] on the port of each of [vs]. *)
Definition unregister_all (fs : gmap filepath FileData) (vs : list json)
    : gmap filepath FileData :=
  foldl (λ fs v, delete (instancePath (prop "port" v)) fs) fs vs.

(** The probes of [n] successive candidate pairs from [candidate] on. *)
Fixpoint probe_calls (candidate : Z) (n : nat) : list Call :=
  match n with
  | O => []
  | S n' => Listen candidate :: Listen (candidate + 1) :: probe_calls (candidate + 2) n'
  end.

(** ** Sample data for the examples *)

(** A clock that stands at 2026-01-01T00:00:00Z, one process of the
    user's own (pid 100), two of another user (pids 1 and 5150), and the ports
    9222 and 9225 taken. *)
Definition sample_iso : Z → string := λ _, "2026-01-01T00:00:00.000Z".

Definition sample_getTime (s : string) : option Z :=
  if String.eqb s "2026-01-01T00:00:00.000Z" then Some 1767225600000 else None.

(** A reading of strings as numbers that knows the text of one pid. *)
Definition sample_ToNumber (s : string) : option Z :=
  if String.eqb s "100" then Some 100 else None.

Definition sample_world (fs : gmap filepath FileData) : World :=
  mkWorld fs {[ 100 ]} {[ 1; 5150 ]} {[ 9222; 9225 ]} 1767225600000.

Definition sample_state (fs : gmap filepath FileData) : State :=
  mkState (sample_world fs) [] [].

Definition sample_lock (pid : Z) : FileData :=
  Json (JObj [("pid", JNum pid); ("port", JNum 8888);
              ("startedAt", JStr "2025-12-31T23:00:00.000Z")]).

Definition sample_live : InstanceInfo.t :=
  InstanceInfo.mk 100 9222 9223 launch "/test/project" true
    "2025-12-31T23:00:00.000Z" (Some "/test/profiles") None.

Definition sample_orphaned : InstanceInfo.t :=
  InstanceInfo.mk 77 9230 9231 relay "/other/project" false
    "2025-12-31T22:00:00.000Z" None (Some 100).

(** The registry after the two sample instances have registered. *)
Definition sample_registry : State :=
  (registerInstance no_interference sample_orphaned
     (registerInstance no_interference sample_live (sample_state ∅)).2).2.

(** Another process creates the lock [data] at [p] right before the
    modelled process makes its calls number [first] and [second]. *)
Definition racing (p : filepath) (data : FileData) (first second : nat)
    : nat → World → World :=
  λ n w, if (n =? first)%nat || (n =? second)%nat
         then set_files (<[p := data]> (files w)) w
         else w.


(** ** More of instance-registry.ts *)

(** A [StopResult] whose [port] is whatever the registry file held:
    [stopAllInstances] builds its results from parsed records. *)
Module UntypedStopResult.
Record t : Type := mk {
  port : jsval;
  success : bool;
  message : string
}.
End UntypedStopResult.

Definition untyped (r : StopResult.t) : UntypedStopResult.t :=
  UntypedStopResult.mk (JN (StopResult.port r)) (StopResult.success r)
                       (StopResult.message r).

(** The fields of an object after [obj[k] = x]: an own key keeps its
    place, a new key goes last. *)
Fixpoint set_field (k : string) (x : json) (fields : list (string * json))
    : list (string * json) :=
  match fields with
  | [] => [(k, x)]
  | (k', v) :: rest =>
      if String.eqb k k' then (k', x) :: rest else (k', v) :: set_field k x rest
  end.

Section Lifecycle.

Variable env : nat → World → World.
Variable ToNumber : string → option Z.

(** [v[k] = x], as [JSON.stringify(v)] sees [v] afterwards.  The module
    is strict code: the assignment throws a TypeError on [null] and on a
    primitive; on an array it adds a property that is not serialised. *)
Definition assign (k : string) (x : json) (v : json) : M json :=
  match v with
  | JObj fields => mret (JObj (set_field k x fields))
  | JArr items => mret (JArr items)
  | _ => throw TypeError
  end.

Definition updateInstanceChromePid (port chromePid : Z) : M unit :=
  let filePath := instancePath (JN port) in
  try_catch
    (raw ← readFileSync env filePath;
     info ← JSON_parse raw;
     info' ← assign "chromePid" (JNum chromePid) info;
     writeFileSync env filePath (Json info'))
    (λ _, mret ()).

(** [getInstance] and [stopInstance] on a [port] read from a parsed
    record, as [stopAllInstances] calls them: the same code, with the
    port rendered by the template literals. *)
Definition getInstance_untyped (port : jsval) : M json :=
  try_catch (raw ← readFileSync env (instancePath port); JSON_parse raw)
            (λ _, mret JNull).

Definition stopInstance_untyped (port : jsval) : M UntypedStopResult.t :=
  info ← getInstance_untyped port;
  if negb (truthy (Some info))
  then mret (UntypedStopResult.mk port false
               ("No instance registered on port " +:+ ToString port))
  else
    let pid := prop "pid" info in
    let chromePid := prop "chromePid" info in
    running ← isProcessRunning env ToNumber pid;
    if negb running
    then
      when (truthy chromePid)
        (chromeRunning ← isProcessRunning env ToNumber chromePid;
         when chromeRunning
           (sendSignal env ToNumber chromePid SIGKILL ;;
            console_log ("Killed orphaned Chrome process (PID " +:+ ToString chromePid
                         +:+ ") for port " +:+ ToString port))) ;;
      unregisterInstance env port ;;
      mret (UntypedStopResult.mk port true
              ("Instance on port " +:+ ToString port
               +:+ " was already stopped (cleaned registry)"))
    else
      console_log ("Sending SIGTERM to server PID " +:+ ToString pid +:+ " on port "
                   +:+ ToString port +:+ "...") ;;
      sendSignal env ToNumber pid SIGTERM ;;
      serverExited ← waitForExit env ToNumber pid 5000 200;
      when (negb serverExited)
        (console_log ("Server PID " +:+ ToString pid
                      +:+ " did not exit after 5s, sending SIGKILL...") ;;
         sendSignal env ToNumber pid SIGKILL ;;
         waitForExit env ToNumber pid 2000 200 ;;
         mret ()) ;;
      when (truthy chromePid)
        (chromeRunning ← isProcessRunning env ToNumber chromePid;
         when chromeRunning
           (console_log ("Chrome PID " +:+ ToString chromePid
                         +:+ " still running, sending SIGKILL...") ;;
            sendSignal env ToNumber chromePid SIGKILL ;;
            waitForExit env ToNumber chromePid 2000 200 ;;
            mret ())) ;;
      unregisterInstance env port ;;
      serverRunning ← isProcessRunning env ToNumber pid;
      let serverGone := negb serverRunning in
      chromeGone ← (if negb (truthy chromePid) then mret true
                    else chromeRunning ← isProcessRunning env ToNumber chromePid;
                         mret (negb chromeRunning));
      if serverGone && chromeGone
      then mret (UntypedStopResult.mk port true
                   ("Instance on port " +:+ ToString port +:+ " stopped successfully"))
      else mret (UntypedStopResult.mk port false
                   ("Instance on port " +:+ ToString port
                    +:+ " may not have fully stopped (server: "
                    +:+ (if serverGone then "stopped" else "running")
                    +:+ ", chrome: "
                    +:+ (if chromeGone then "stopped" else "running") +:+ ")")).

(** The body of the first loop of [stopAllInstances], over the stale
    records. *)
Definition stopAllInstances_stale (results : list UntypedStopResult.t) (s : json)
    : M (list UntypedStopResult.t) :=
  chromePid ← get "chromePid" s;
  when (truthy chromePid)
    (chromeRunning ← isProcessRunning env ToNumber chromePid;
     when chromeRunning
       (sendSignal env ToNumber chromePid SIGKILL ;;
        console_log ("Killed orphaned Chrome process (PID " +:+ ToString chromePid
                     +:+ ") from stale instance on port "
                     +:+ ToString (prop "port" s)))) ;;
  mret (results ++ [UntypedStopResult.mk (prop "port" s) true
                      ("Stale instance on port " +:+ ToString (prop "port" s)
                       +:+ " cleaned (server PID " +:+ ToString (prop "pid" s)
                       +:+ " was not running)")]).

(** The body of its second loop, over the records that are left. *)
Definition stopAllInstances_live (results : list UntypedStopResult.t) (info : json)
    : M (list UntypedStopResult.t) :=
  port ← get "port" info;
  result ← stopInstance_untyped port;
  mret (results ++ [result]).

Definition stopAllInstances : M (list UntypedStopResult.t) :=
  stale ← cleanStaleInstances env ToNumber;
  results ← for_of stale [] stopAllInstances_stale;
  liveInstances ← listInstances env;
  for_of liveInstances results stopAllInstances_live.

End Lifecycle.

(** [map_result f] applies [f] to what a run returns. *)
Definition map_result {A B} (f : A → B) (p : Result A * State) : Result B * State :=
  match p with
  | (Ok a, st) => (Ok (f a), st)
  | (Throw e, st) => (Throw e, st)
  end.

(** ** What a call may do *)

(** Every system call that [m] makes satisfies [P], whether [m] returns
    or throws; [safe] says in addition that it returns. *)
Definition contained {A} (P : Call * option Errno → Prop) (m : M A) : Prop :=
  ∀ st, ∃ r st' evs,
    m st = (r, st') ∧ trace st' = trace st ++ evs ∧ Forall P evs.

Definition safe {A} (P : Call * option Errno → Prop) (m : M A) : Prop :=
  ∀ st, ∃ a st' evs,
    m st = (Ok a, st') ∧ trace st' = trace st ++ evs ∧ Forall P evs.

(** A probe of [findAvailablePort] that started at [lo]. *)
Definition probe_from (lo : Z) (c : Call) : Prop :=
  match c with
  | Listen q => lo ≤ q ∧ valid_port q = true
  | _ => False
  end.

(** What [stopInstance(port)] may do to the system: read and unlink the
    record of [port], and signal processes. *)
Definition stop_footprint (port : Z) (ev : Call * option Errno) : Prop :=
  match ev.1 with
  | ReadFile p | Unlink p => p = instancePath (JN port)
  | Kill _ _ => True
  | _ => False
  end.

(** What [acquireProfileLock(profileDir, _)] may do to the system. *)
Definition lock_footprint (profileDir : string) (ev : Call * option Errno) : Prop :=
  match ev.1 with
  | Mkdir d => d = profileDir
  | Exists p | ReadFile p | Unlink p | Create p _ => p = lockFilePath profileDir
  | Kill _ sig => sig = SIG0
  | _ => False
  end.

(** The record [info] with its [chromePid] set. *)
Definition with_chromePid (info : InstanceInfo.t) (chromePid : Z) : InstanceInfo.t :=
  InstanceInfo.mk (InstanceInfo.pid info) (InstanceInfo.port info)
    (InstanceInfo.cdpPort info) (InstanceInfo.mode info) (InstanceInfo.label info)
    (InstanceInfo.headless info) (InstanceInfo.startedAt info)
    (InstanceInfo.profileDir info) (Some chromePid).

(** The process that a call signals, the existence probe apart. *)
Definition signalled (ev : Call * option Errno) : option Z :=
  match ev.1 with
  | Kill pid SIGTERM | Kill pid SIGKILL => Some pid
  | _ => None
  end.

(** The browser that the stale record [info] leaves behind in [w]. *)
Definition orphan (w : World) (info : InstanceInfo.t) : option Z :=
  match InstanceInfo.chromePid info with
  | Some child => if negb (child =? 0) && alive w child then Some child else None
  | None => None
  end.

(** What [stopAllInstances] reports for a stale record. *)
Definition cleaned_result (info : InstanceInfo.t) : UntypedStopResult.t :=
  UntypedStopResult.mk (JN (InstanceInfo.port info)) true
    ("Stale instance on port " +:+ pretty (InstanceInfo.port info)
     +:+ " cleaned (server PID " +:+ pretty (InstanceInfo.pid info)
     +:+ " was not running)").

(** The calls that the registry offers. *)
Inductive RegistryCall : Type :=
  | CallRegister (info : InstanceInfo.t)
  | CallUnregister (port : Z)
  | CallUpdateChromePid (port chromePid : Z)
  | CallGet (port : Z)
  | CallList
  | CallCleanStale
  | CallStop (port : Z)
  | CallStopAll.

(** The state that a call leaves, whether it returns or throws. *)
Definition after_call (env : nat → World → World) (ToNumber : string → option Z)
    (st : State) (c : RegistryCall) : State :=
  match c with
  | CallRegister info => (registerInstance env info st).2
  | CallUnregister port => (unregisterInstance env (JN port) st).2
  | CallUpdateChromePid port chromePid => (updateInstanceChromePid env port chromePid st).2
  | CallGet port => (getInstance env port st).2
  | CallList => (listInstances env st).2
  | CallCleanStale => (cleanStaleInstances env ToNumber st).2
  | CallStop port => (stopInstance env ToNumber port st).2
  | CallStopAll => (stopAllInstances env ToNumber st).2
  end.

(** [m] adds no file and changes none. *)
Definition shrinks {A} (m : M A) : Prop :=
  ∀ st p data,
    files (world (m st).2) !! p = Some data → files (world st) !! p = Some data.

(** A system call that is an existence probe. *)
Definition is_probe (ev : Call * option Errno) : bool :=
  match ev.1 with
  | Kill _ SIG0 => true
  | _ => false
  end.

(** ** More sample data *)

(** The process [pid] is gone from the call number [n0] on. *)
Definition exits_at (pid : Z) (n0 : nat) : nat → World → World :=
  λ n w, if (n0 <=? n)%nat
         then mkWorld (files w) (procs w ∖ {[ pid ]}) (guarded w) (bound w) (now_ms w)
         else w.

(** The sample registry before any call is made. *)
Definition sample_registry_fresh : State := mkState (world sample_registry) [] [].

(** A server that runs under another user (pid 1), and a crashed server
    whose recorded browser does. *)
Definition sample_foreign : InstanceInfo.t :=
  InstanceInfo.mk 1 9240 9241 launch "/foreign/project" true
    "2025-12-31T21:00:00.000Z" None None.

Definition sample_foreign_child : InstanceInfo.t :=
  InstanceInfo.mk 77 9250 9251 launch "/shared/project" true
    "2025-12-31T20:00:00.000Z" None (Some 5150).

Definition sample_registry_foreign : State :=
  (registerInstance no_interference sample_foreign_child
     (registerInstance no_interference sample_foreign (sample_state ∅)).2).2.

(** A registry whose only server has crashed and left its browser. *)
Definition sample_crashed : State :=
  (registerInstance no_interference sample_orphaned (sample_state ∅)).2.

(** ** The lost race of acquireProfileLock *)

(** A look at the lock file of [profileDir]. *)
Definition lock_read (profileDir : string) (ev : Call * option Errno) : Prop :=
  ev.1 = Exists (lockFilePath profileDir) ∨ ev.1 = ReadFile (lockFilePath profileDir).

(** The record [lock] is what the lock file of [profileDir] holds in [w]. *)
Definition holds_lock (w : World) (profileDir : string) (lock : LockInfo.t) : Prop :=
  ∃ v, files w !! lockFilePath profileDir = Some (Json v)
       ∧ as_number (prop "pid" v) = Some (LockInfo.pid lock)
       ∧ as_number (prop "port" v) = Some (LockInfo.port lock)
       ∧ prop "startedAt" v = LockInfo.startedAt lock.

(** The run [run] ends, from the state [s] on, with the one retry of
    [acquireProfileLock]: one unlink and one exclusive create of [lock],
    and what that create gives is what the run gives, the lock in place
    or the create's own EEXIST error, which is no conflict error. *)
Definition retried_once (profileDir : string) (lock : FileData) (s : State)
    (run : Result unit * State) : Prop :=
  ∃ unlinked created,
    run.1 = create_result (lockFilePath profileDir) lock created
    ∧ trace run.2 = trace s ++ [(Unlink (lockFilePath profileDir), unlinked);
                                (Create (lockFilePath profileDir) lock, created)]
    ∧ match created with
      | None => files (world run.2) !! lockFilePath profileDir = Some lock
      | Some code =>
          code = EEXIST
          ∧ ¬ conflict_error profileDir
                (ErrnoException code (Create (lockFilePath profileDir) lock))
      end.

(** ** cookies.ts *)

(** Numbers are the integers of [json]: a fractional [expires] is
    outside this model. *)

Inductive SameSite : Type := Strict | Lax | NoRestriction.

Definition SameSite_name (s : SameSite) : string :=
  match s with Strict => "Strict" | Lax => "Lax" | NoRestriction => "None" end.

(** [["Strict", "Lax", "None"].includes(x)] for a string [x]. *)
Definition as_SameSite (x : jsval) : option SameSite :=
  match as_string x with
  | Some s => if String.eqb s "Strict" then Some Strict
              else if String.eqb s "Lax" then Some Lax
              else if String.eqb s "None" then Some NoRestriction
              else None
  | None => None
  end.

Module CookieParam.
Record t : Type := mk {
  name : string;
  value : string;
  domain : string;
  path : option string;
  expires : option Z;
  httpOnly : option bool;
  secure : option bool;
  sameSite : option SameSite
}.
End CookieParam.

(** [new CookieParseError(message)]: an [Error] with its own name. *)
Definition CookieParseError (message : string) : exn := Error message.

#[global] Instance Result_ret : MRet Result := λ A a, Ok a.

#[global] Instance Result_bind : MBind Result := λ A B f r,
  match r with
  | Ok a => f a
  | Throw e => Throw e
  end.

Definition newline : string := String (Ascii.ascii_of_nat 10) EmptyString.

Definition typeof (v : json) : string :=
  match v with
  | JNull | JArr _ | JObj _ => "object"
  | JBool _ => "boolean"
  | JNum _ => "number"
  | JStr _ => "string"
  end.

(** [if (x !== undefined) { if (typeof x !== T) throw error; cookie.f = x }]. *)
Definition optional_field {A} (read : jsval → option A) (x : jsval) (error : exn)
    : Result (option A) :=
  match x with
  | None => Ok None
  | Some _ => match read x with
              | Some a => Ok (Some a)
              | None => Throw error
              end
  end.

Definition validateJsonCookie (item : json) (index : Z) : Result CookieParam.t :=
  if negb (String.eqb (typeof item) "object") || is_null item
  then Throw (CookieParseError ("Cookie at index " +:+ pretty index
                                +:+ " is not an object. Got: " +:+ typeof item))
  else
    match as_string (prop "name" item) with
    | None | Some "" =>
        Throw (CookieParseError ("Cookie at index " +:+ pretty index
                 +:+ " missing or invalid 'name'. Must be a non-empty string."))
    | Some name =>
        match as_string (prop "value" item) with
        | None =>
            Throw (CookieParseError ("Cookie '" +:+ name +:+ "' (index " +:+ pretty index
                     +:+ ") missing or invalid 'value'. Must be a string."))
        | Some value =>
            match as_string (prop "domain" item) with
            | None | Some "" =>
                Throw (CookieParseError ("Cookie '" +:+ name
                         +:+ "' requires a domain. Use domain=.example.com"))
            | Some domain =>
                path ← optional_field as_string (prop "path" item)
                  (CookieParseError ("Cookie '" +:+ name
                     +:+ "' has invalid 'path'. Must be a string."));
                expires ← optional_field as_number (prop "expires" item)
                  (CookieParseError ("Cookie '" +:+ name
                     +:+ "' has invalid 'expires'. Must be a number (Unix timestamp)."));
                httpOnly ← optional_field as_boolean (prop "httpOnly" item)
                  (CookieParseError ("Cookie '" +:+ name
                     +:+ "' has invalid 'httpOnly'. Must be a boolean."));
                secure ← optional_field as_boolean (prop "secure" item)
                  (CookieParseError ("Cookie '" +:+ name
                     +:+ "' has invalid 'secure'. Must be a boolean."));
                sameSite ← optional_field as_SameSite (prop "sameSite" item)
                  (CookieParseError ("Cookie '" +:+ name
                     +:+ "' has invalid 'sameSite'. Must be " +:+ dquote +:+ "Strict"
                     +:+ dquote +:+ ", " +:+ dquote +:+ "Lax" +:+ dquote +:+ ", or "
                     +:+ dquote +:+ "None" +:+ dquote +:+ "."));
                mret (CookieParam.mk name value domain path expires httpOnly secure
                        sameSite)
            end
        end
    end.

(** [items.map((item, index) => validateJsonCookie(item, index))] from
    [index] on: the first item that is refused ends the call. *)
Fixpoint validate_items (items : list json) (index : Z) : Result (list CookieParam.t) :=
  match items with
  | [] => mret []
  | item :: rest =>
      cookie ← validateJsonCookie item index;
      cookies ← validate_items rest (index + 1);
      mret (cookie :: cookies)
  end.

(** [map.set(k, v)] on a [Map] in the order of its entries: a key that
    is there keeps its place. *)
Fixpoint Map_set {V} (k : string) (v : V) (entries : list (string * V))
    : list (string * V) :=
  match entries with
  | [] => [(k, v)]
  | (k', v') :: rest =>
      if String.eqb k k' then (k', v) :: rest else (k', v') :: Map_set k v rest
  end.

Definition cookie_key (cookie : CookieParam.t) : string :=
  CookieParam.name cookie +:+ "::" +:+ CookieParam.domain cookie.

Section Cookies.

(** [input.length > 100 ? input.slice(0, 100) + "..." : input], which
    counts in UTF-16 code units. *)
Variable excerpt : string → string.

(** The input is given as what [JSON.parse] makes of it. *)
Definition parseJsonCookies (input : FileData) : Result (list CookieParam.t) :=
  match input with
  | Text raw =>
      Throw (CookieParseError
               ("Invalid JSON cookie format: " +:+ excerpt raw +:+ newline
                +:+ "Expected: {" +:+ dquote +:+ "name" +:+ dquote +:+ ":" +:+ dquote
                +:+ "x" +:+ dquote +:+ "," +:+ dquote +:+ "value" +:+ dquote +:+ ":"
                +:+ dquote +:+ "y" +:+ dquote +:+ "," +:+ dquote +:+ "domain" +:+ dquote
                +:+ ":" +:+ dquote +:+ ".example.com" +:+ dquote
                +:+ "} or [{...}, {...}]"))
  | Json parsed =>
      let items := match parsed with JArr items => items | _ => [parsed] end in
      if (length items =? 0)%nat
      then Throw (CookieParseError "JSON cookie array is empty.")
      else validate_items items 0
  end.

(** [parseCookieArg] reads files and parses the other two formats. *)
Variable parseCookieArg : string → M (list CookieParam.t).

Definition parseAllCookies (cookieArgs : list string) : M (list CookieParam.t) :=
  cookieMap ← for_of cookieArgs []
    (λ cookieMap arg,
       parsed ← parseCookieArg arg;
       for_of parsed cookieMap
         (λ cookieMap cookie, mret (Map_set (cookie_key cookie) cookie cookieMap)));
  mret (cookieMap.*2).

(** The cookies of all arguments in the order in which they are parsed. *)
Definition parsed_cookies (cookieArgs : list string) : M (list CookieParam.t) :=
  for_of cookieArgs [] (λ cookies arg, parsed ← parseCookieArg arg; mret (cookies ++ parsed)).

End Cookies.

Definition cookieSummary (cookies : list CookieParam.t) : string :=
  if (length cookies =? 0)%nat then "No cookies loaded."
  else
    let domains := remove_dups (CookieParam.domain <$> cookies) in
    let lines :=
      ["Loaded " +:+ pretty (length cookies) +:+ " cookie"
       +:+ (if (length cookies =? 1)%nat then "" else "s")
       +:+ " for " +:+ pretty (length domains) +:+ " domain"
       +:+ (if (length domains =? 1)%nat then "" else "s")]
      ++ ((λ cookie, "  - " +:+ CookieParam.name cookie
                     +:+ " (" +:+ CookieParam.domain cookie +:+ ")") <$> cookies) in
    join newline lines.

(** The object that a cookie is written as. *)
Definition stringify_CookieParam (c : CookieParam.t) : json :=
  JObj ([ ("name", JStr (CookieParam.name c));
          ("value", JStr (CookieParam.value c));
          ("domain", JStr (CookieParam.domain c)) ]
        ++ match CookieParam.path c with Some p => [("path", JStr p)] | None => [] end
        ++ match CookieParam.expires c with Some e => [("expires", JNum e)] | None => [] end
        ++ match CookieParam.httpOnly c with Some b => [("httpOnly", JBool b)] | None => [] end
        ++ match CookieParam.secure c with Some b => [("secure", JBool b)] | None => [] end
        ++ match CookieParam.sameSite c with
           | Some s => [("sameSite", JStr (SameSite_name s))]
           | None => []
           end).

(** The cookies of [cookies] that [parseAllCookies] keeps: of those with
    the same key, the last. *)
Definition last_with_key (cookies : list CookieParam.t) (c : CookieParam.t) : Prop :=
  ∃ before after,
    cookies = before ++ c :: after ∧ cookie_key c ∉ cookie_key <$> after.

(** The keys of [keys] in the order in which they first occur. *)
Fixpoint first_occurrences (keys : list string) : list string :=
  match keys with
  | [] => []
  | k :: rest => k :: filter (λ k', k' ≠ k) (first_occurrences rest)
  end.

(** What [cookieSummary] may show of a cookie. *)
Definition shown (cookie : CookieParam.t) : string * string :=
  (CookieParam.name cookie, CookieParam.domain cookie).

(** Two sample cookies that differ in everything but name and domain. *)
Definition sample_cookie : CookieParam.t :=
  CookieParam.mk "session" "secret-1" ".example.com" None None None None None.

Definition sample_cookie' : CookieParam.t :=
  CookieParam.mk "session" "secret-2" ".example.com" (Some "/") (Some 1767225600)
    (Some true) (Some true) (Some Strict).
(** * Proofs *)

(** ** Strings and JSON values *)

Lemma string_app_assoc (a b c : string) : (a +:+ b) +:+ c = a +:+ (b +:+ c).
Proof.
  induction a as [|x a IH]; [done|].
  change ((String x a +:+ b) +:+ c) with (String x ((a +:+ b) +:+ c)).
  by rewrite IH.
Qed.

Lemma string_app_cons (x : Ascii.ascii) (a b : string) :
  String x a +:+ b = String x (a +:+ b).
Proof. reflexivity. Qed.

Lemma string_app_nil (b : string) : "" +:+ b = b.
Proof. reflexivity. Qed.

Ltac string_norm :=
  repeat first [rewrite string_app_assoc | rewrite string_app_cons | rewrite string_app_nil].

(** ** The monad *)

Lemma bind_Ok {A B} (m : M A) (f : A → M B) (st st1 : State) (a : A) :
  m st = (Ok a, st1) → (m ≫= f) st = f a st1.
Proof. intros H. unfold mbind, M_bind. by rewrite H. Qed.

Lemma bind_Throw {A B} (m : M A) (f : A → M B) (st st1 : State) (e : exn) :
  m st = (Throw e, st1) → (m ≫= f) st = (Throw e, st1).
Proof. intros H. unfold mbind, M_bind. by rewrite H. Qed.

Lemma bind_assoc_run {A B C} (m : M A) (f : A → M B) (g : B → M C) (st : State) :
  ((m ≫= f) ≫= g) st = (m ≫= λ a, f a ≫= g) st.
Proof. unfold mbind, M_bind. by destruct (m st) as [[a|e] st1]. Qed.

Lemma bind_ret {A B} (a : A) (f : A → M B) : (mret a ≫= f) = f a.
Proof. reflexivity. Qed.

Lemma console_log_run (line : string) (st : State) :
  console_log line st = (Ok (), mkState (world st) (trace st) (console st ++ [line])).
Proof. reflexivity. Qed.

Lemma get_not_null (k : string) (v : json) :
  is_null v = false → get k v = mret (prop k v).
Proof. intros H. unfold get. by rewrite H. Qed.

(** ** formatUptime *)

Section Uptime.
Variable Date_getTime : string → option Z.

Lemma formatUptime_run (startedAt : string) (start : Z) (st : State) :
  Date_getTime startedAt = Some start →
  formatUptime Date_getTime startedAt st
  = (Ok (uptime_rendering_spec (now_ms (world st) - start)), st).
Proof.
  intros Hstart. unfold formatUptime, uptime_rendering_spec, Date_now.
  unfold mbind, mret, M_bind, M_ret. rewrite Hstart.
  set (e := now_ms (world st) - start).
  destruct (Z.ltb_spec e 0) as [Hneg|Hpos]; [done|].
  rewrite !Z.div_div by lia.
  change (1000 * (60 * (60 * 24))) with (86400 * 1000).
  change (1000 * (60 * 60)) with (3600 * 1000).
  change (1000 * 60) with (60 * 1000).
  assert (Hd : ∀ k, 0 < k → (e / k >? 0) = negb (e <? k)).
  { intros k Hk. destruct (Z.ltb_spec e k) as [Hlt|Hge]; simpl.
    - rewrite Z.div_small by lia. done.
    - apply Z.gtb_lt. apply Z.div_str_pos. lia. }
  rewrite !Hd by lia.
  destruct (Z.ltb_spec e (86400 * 1000)), (Z.ltb_spec e (3600 * 1000)),
    (Z.ltb_spec e (60 * 1000)); simpl; try done; lia.
Qed.

(** C9: [formatUptime] renders the elapsed time [now - startedAt] by its
    size: negative as "0s", under a minute in seconds, under an hour in
    minutes, under a day in hours and minutes, and in days and hours
    beyond; with the five examples of the specification. *)
Theorem formatUptime_renders_elapsed (startedAt : string) (start : Z) (st : State) :
  Date_getTime startedAt = Some start →
  let elapsed := now_ms (world st) - start in
  let shown := (formatUptime Date_getTime startedAt st).1 in
  shown = Ok (uptime_rendering_spec elapsed)
  ∧ (elapsed = 0 → shown = Ok "0s")
  ∧ (elapsed = 90 * 1000 → shown = Ok "1m")
  ∧ (elapsed = (2 * 3600 + 15 * 60) * 1000 → shown = Ok "2h 15m")
  ∧ (elapsed = 27 * 3600 * 1000 → shown = Ok "1d 3h")
  ∧ (elapsed < 0 → shown = Ok "0s").
Proof.
  intros Hstart elapsed shown.
  assert (Hshown : shown = Ok (uptime_rendering_spec elapsed)).
  { unfold shown. by rewrite (formatUptime_run _ _ _ Hstart). }
  rewrite Hshown. repeat split.
  - by intros ->.
  - by intros ->.
  - by intros ->.
  - by intros ->.
  - intros Hneg. unfold uptime_rendering_spec.
    by destruct (Z.ltb_spec elapsed 0); [|lia].
Qed.

End Uptime.

(** ** Footprints *)

Section Footprint.
Context {A B : Type} (P : Call * option Errno → Prop).

Lemma safe_contained (m : M A) : safe P m → contained P m.
Proof. intros H st. destruct (H st) as (a & st' & evs & ?). by exists (Ok a), st', evs. Qed.

Lemma contained_weaken (Q : Call * option Errno → Prop) (m : M A) :
  (∀ ev, Q ev → P ev) → contained Q m → contained P m.
Proof.
  intros HQ H st. destruct (H st) as (r & st' & evs & ? & ? & Hevs).
  exists r, st', evs. repeat split; try done. eapply Forall_impl; eauto.
Qed.

Lemma safe_weaken (Q : Call * option Errno → Prop) (m : M A) :
  (∀ ev, Q ev → P ev) → safe Q m → safe P m.
Proof.
  intros HQ H st. destruct (H st) as (r & st' & evs & ? & ? & Hevs).
  exists r, st', evs. repeat split; try done. eapply Forall_impl; eauto.
Qed.

Lemma safe_ret (a : A) : safe P (mret a).
Proof. intros st. exists a, st, []. by rewrite app_nil_r. Qed.

Lemma contained_throw (e : exn) : contained P (throw e : M A).
Proof. intros st. exists (Throw e), st, []. by rewrite app_nil_r. Qed.

Lemma contained_bind (m : M A) (f : A → M B) :
  contained P m → (∀ a, contained P (f a)) → contained P (m ≫= f).
Proof.
  intros Hm Hf st. destruct (Hm st) as ([a|e] & st1 & evs1 & Hrun & Htr & Hevs).
  - destruct (Hf a st1) as (r & st2 & evs2 & Hrun' & Htr' & Hevs').
    exists r, st2, (evs1 ++ evs2). rewrite (bind_Ok _ _ _ _ _ Hrun).
    repeat split; [done | by rewrite Htr', Htr, app_assoc | by apply Forall_app].
  - exists (Throw e), st1, evs1. by rewrite (bind_Throw _ _ _ _ _ Hrun).
Qed.

Lemma safe_bind (m : M A) (f : A → M B) :
  safe P m → (∀ a, safe P (f a)) → safe P (m ≫= f).
Proof.
  intros Hm Hf st. destruct (Hm st) as (a & st1 & evs1 & Hrun & Htr & Hevs).
  destruct (Hf a st1) as (r & st2 & evs2 & Hrun' & Htr' & Hevs').
  exists r, st2, (evs1 ++ evs2). rewrite (bind_Ok _ _ _ _ _ Hrun).
  repeat split; [done | by rewrite Htr', Htr, app_assoc | by apply Forall_app].
Qed.

Lemma safe_try_catch (body : M A) (handler : exn → M A) :
  contained P body → (∀ e, safe P (handler e)) → safe P (try_catch body handler).
Proof.
  intros Hm Hf st. unfold try_catch.
  destruct (Hm st) as ([a|e] & st1 & evs1 & -> & Htr & Hevs).
  - by exists a, st1, evs1.
  - destruct (Hf e st1) as (r & st2 & evs2 & Hrun' & Htr' & Hevs').
    exists r, st2, (evs1 ++ evs2).
    repeat split; [done | by rewrite Htr', Htr, app_assoc | by apply Forall_app].
Qed.

Lemma contained_try_catch (body : M A) (handler : exn → M A) :
  contained P body → (∀ e, contained P (handler e)) → contained P (try_catch body handler).
Proof.
  intros Hm Hf st. unfold try_catch.
  destruct (Hm st) as ([a|e] & st1 & evs1 & -> & Htr & Hevs).
  - by exists (Ok a), st1, evs1.
  - destruct (Hf e st1) as (r & st2 & evs2 & Hrun' & Htr' & Hevs').
    exists r, st2, (evs1 ++ evs2).
    repeat split; [done | by rewrite Htr', Htr, app_assoc | by apply Forall_app].
Qed.

Lemma contained_syscall (env : nat → World → World) (c : Call)
    (f : World → (Errno + A) * World) :
  (∀ outcome, P (c, outcome)) → contained P (syscall env c f).
Proof.
  intros HP st. unfold syscall.
  destruct (f _) as [[e|a] w]; eexists _, _, [_]; repeat split; by repeat constructor.
Qed.

End Footprint.

Lemma safe_console_log (P : Call * option Errno → Prop) (line : string) :
  safe P (console_log line).
Proof. intros st. eexists (), _, []. by rewrite app_nil_r. Qed.

Lemma safe_when (P : Call * option Errno → Prop) (cond : bool) (body : M unit) :
  safe P body → safe P (when cond body).
Proof. destruct cond; [done|]. intros _. apply safe_ret. Qed.

Lemma contained_when (P : Call * option Errno → Prop) (cond : bool) (body : M unit) :
  contained P body → contained P (when cond body).
Proof. destruct cond; [done|]. intros _. apply safe_contained, safe_ret. Qed.


Ltac footprint_step :=
  first
    [ apply safe_ret
    | apply safe_console_log
    | apply contained_throw
    | apply safe_contained; first [apply safe_ret | apply safe_console_log]
    | apply safe_when
    | apply contained_when
    | apply safe_bind; [|intros ?]
    | apply contained_bind; [|intros ?]
    | apply safe_try_catch; [|intros ?]
    | apply contained_try_catch; [|intros ?]
    | apply contained_syscall; intros ?; simpl; done
    | match goal with
      | |- contained _ (if ?b then _ else _) => destruct b
      | |- safe _ (if ?b then _ else _) => destruct b
      | |- contained _ (match ?x with _ => _ end) => destruct x
      | |- safe _ (match ?x with _ => _ end) => destruct x
      end ].

Ltac footprint := repeat footprint_step.

Lemma contained_for_of {A B} (P : Call * option Errno → Prop) (body : B → A → M B)
    (xs : list A) :
  (∀ acc x, contained P (body acc x)) → ∀ acc, contained P (for_of xs acc body).
Proof.
  intros Hbody. induction xs as [|x xs IH]; intros acc; simpl.
  - apply safe_contained, safe_ret.
  - apply contained_bind; [apply Hbody | apply IH].
Qed.

(** *** The registry sends no signal *)

Section RegistryFootprint.
Variable env : nat → World → World.
Variable ToNumber : string → option Z.

Lemma isProcessRunning_no_signal (pid : jsval) :
  safe (λ ev, signalled ev = None) (isProcessRunning env ToNumber pid).
Proof.
  unfold isProcessRunning, process_kill.
  apply safe_try_catch; [|intros ?; apply safe_ret].
  destruct (as_pid ToNumber pid); footprint.
Qed.

Lemma listInstances_no_signal :
  contained (λ ev, signalled ev = None) (listInstances env).
Proof.
  unfold listInstances, ensureDir, mkdirSync, readdirSync. footprint.
  - apply contained_for_of. intros acc file.
    unfold listInstances_file, readFileSync, JSON_parse. footprint.
  - unfold sort_by_port. footprint.
Qed.

Lemma cleanStaleInstances_no_signal :
  contained (λ ev, signalled ev = None) (cleanStaleInstances env ToNumber).
Proof.
  unfold cleanStaleInstances. apply contained_bind; [apply listInstances_no_signal|].
  intros all. apply contained_for_of. intros acc info.
  unfold cleanStaleInstances_info, get, unregisterInstance, unlinkSync.
  apply contained_bind; [footprint|]. intros pid.
  apply contained_bind; [apply safe_contained, isProcessRunning_no_signal|].
  intros running. footprint.
Qed.

End RegistryFootprint.

(** ** The two readings of stopInstance agree *)

Lemma bind_ext_run {A B} (m : M A) (f g : A → M B) (st : State) :
  (∀ a st', f a st' = g a st') → (m ≫= f) st = (m ≫= g) st.
Proof. intros H. unfold mbind, M_bind. destruct (m st) as [[a|e] st1]; [apply H | done]. Qed.

Lemma map_result_bind {A B C} (f : B → C) (m : M A) (k : A → M B) (st : State) :
  map_result f ((m ≫= k) st) = (m ≫= λ a st', map_result f (k a st')) st.
Proof. unfold mbind, M_bind. by destruct (m st) as [[a|e] st1]. Qed.

Lemma stopInstance_untyped_agrees (env : nat → World → World)
    (ToNumber : string → option Z) (port : Z) (st : State) :
  stopInstance_untyped env ToNumber (JN port) st = map_result untyped (stopInstance env ToNumber port st).
Proof.
  unfold stopInstance_untyped, stopInstance, getInstance_untyped, getInstance.
  rewrite map_result_bind. apply bind_ext_run. intros info st1.
  change (ToString (JN port)) with (pretty port).
  destruct (negb (truthy (Some info))); [done|]. cbv zeta.
  rewrite map_result_bind. apply bind_ext_run. intros running st2.
  destruct (negb running).
  - rewrite map_result_bind. apply bind_ext_run. intros _ st3.
    rewrite map_result_bind. apply bind_ext_run. by intros _ st4.
  - repeat (rewrite map_result_bind; apply bind_ext_run; intros ? ?).
    match goal with |- context [if ?b then _ else _] => by destruct b end.
Qed.

(** ** Runs without interference *)

Lemma prop_Some_not_null (k : string) (v x : json) :
  prop k v = Some x → is_null v = false.
Proof. by destruct v. Qed.

#[local] Arguments prop : simpl never.

Lemma not_running (w : World) (pid : Z) :
  running w pid = false → alive w pid = false ∧ bool_decide (pid ∈ guarded w) = false.
Proof. unfold running. by intros [? ?]%orb_false_elim. Qed.

Lemma kill_outcome_alive (w : World) (pid : Z) :
  alive w pid = true → kill_outcome w pid = None.
Proof. unfold kill_outcome. by intros ->. Qed.


Lemma kill_outcome_guarded (w : World) (pid : Z) :
  alive w pid = false → running w pid = true → kill_outcome w pid = Some EPERM.
Proof.
  unfold running, kill_outcome. intros ->. simpl. by intros ->.
Qed.

Lemma kill_outcome_None (w : World) (pid : Z) :
  kill_outcome w pid = None ↔ alive w pid = true.
Proof.
  unfold kill_outcome. destruct (alive w pid); [done|].
  by destruct (bool_decide (pid ∈ guarded w)).
Qed.

Section Quiet.
Variable env : nat → World → World.
Variable ToNumber : string → option Z.
Variable process_pid : Z.
Variable toISOString : Z → string.
(** No other process acts while the call runs. *)
Hypothesis quiet : ∀ n w, env n w = w.

Ltac run :=
  repeat (unfold mbind, mret, M_bind, M_ret, try_catch, throw, when, syscall,
            process_kill, kill_outcome, get, JSON_parse; simpl; rewrite ?quiet).

(** *** findAvailablePort *)

Lemma isPortAvailable_quiet (port : Z) (st : State) :
  valid_port port = true →
  ∃ st', isPortAvailable env port st = (Ok (port_free (world st) port), st')
         ∧ world st' = world st
         ∧ (trace st').*1 = (trace st).*1 ++ [Listen port].
Proof.
  intros Hvalid. unfold isPortAvailable, listen, port_free. rewrite Hvalid. run.
  destruct (bool_decide (port ∈ bound (world st))); simpl;
    (eexists; split; [done|]; split; [done|]; simpl; by rewrite fmap_app).
Qed.

(** [port_free] is what the probe answers: for a port outside 0..65535
    the probe throws and answers nothing. *)
Lemma isPortAvailable_true_iff (port : Z) (st : State) :
  (isPortAvailable env port st).1 = Ok true ↔ port_free (world st) port = true.
Proof.
  destruct (valid_port port) eqn:Hvalid.
  - destruct (isPortAvailable_quiet port st Hvalid) as (st' & -> & _). simpl.
    split; [by intros [= ->] | by intros ->].
  - unfold isPortAvailable, listen, port_free. rewrite Hvalid. by run.
Qed.

Lemma scan_S (requestedPort : Z) (attempts : nat) (candidate : Z) :
  scan env requestedPort (S attempts) candidate
  = if (candidate >? 65535) || (candidate + 1 >? 65535) then mret (inr candidate)
    else
      httpFree ← isPortAvailable env candidate;
      cdpFree ← isPortAvailable env (candidate + 1);
      if httpFree && cdpFree
      then mret (inl (PortSelectionResult.mk candidate (candidate + 1)
                        (negb (candidate =? requestedPort)) requestedPort))
      else scan env requestedPort attempts (candidate + 2).
Proof. reflexivity. Qed.

Lemma scan_finds (requestedPort : Z) (w : World) (k : nat) :
  ∀ (attempts : nat) (candidate : Z) (st : State),
    world st = w →
    0 ≤ candidate →
    (k < attempts)%nat →
    port_free w (candidate + 2 * Z.of_nat k) = true →
    port_free w (candidate + 2 * Z.of_nat k + 1) = true →
    (∀ j : Z, 0 ≤ j < Z.of_nat k →
       port_free w (candidate + 2 * j) && port_free w (candidate + 2 * j + 1) = false) →
    (scan env requestedPort attempts candidate st).1
    = Ok (inl (PortSelectionResult.mk (candidate + 2 * Z.of_nat k)
                 (candidate + 2 * Z.of_nat k + 1)
                 (negb (candidate + 2 * Z.of_nat k =? requestedPort)) requestedPort)).
Proof.
  induction k as [|k IH]; intros attempts candidate st Hw Hc Hk Hfree Hfree' Hbusy;
    (destruct attempts as [|attempts]; [lia|]).
  - replace (candidate + 2 * Z.of_nat 0) with candidate in * by lia.
    assert (Hv : valid_port candidate = true).
    { unfold port_free in Hfree. by apply andb_prop in Hfree as [? _]. }
    assert (Hv' : valid_port (candidate + 1) = true).
    { unfold port_free in Hfree'. by apply andb_prop in Hfree' as [? _]. }
    rewrite scan_S. unfold valid_port in Hv, Hv'.
    replace ((candidate >? 65535) || (candidate + 1 >? 65535)) with false by lia.
    unfold mbind, M_bind.
    destruct (isPortAvailable_quiet candidate st) as (st1 & -> & Hw1 & _);
      [unfold valid_port; lia|].
    destruct (isPortAvailable_quiet (candidate + 1) st1) as (st2 & H2 & Hw2 & _);
      [unfold valid_port; lia|].
    rewrite H2, Hw1, Hw, Hfree, Hfree'. done.
  - assert (Hv' : valid_port (candidate + 2 * Z.of_nat (S k) + 1) = true).
    { unfold port_free in Hfree'. by apply andb_prop in Hfree' as [? _]. }
    unfold valid_port in Hv'. apply andb_prop in Hv' as [_ Hv'%Z.leb_le].
    rewrite scan_S.
    replace ((candidate >? 65535) || (candidate + 1 >? 65535)) with false by lia.
    unfold mbind, M_bind.
    destruct (isPortAvailable_quiet candidate st) as (st1 & -> & Hw1 & _);
      [unfold valid_port; lia|].
    destruct (isPortAvailable_quiet (candidate + 1) st1) as (st2 & H2 & Hw2 & _);
      [unfold valid_port; lia|].
    rewrite H2, Hw1, Hw.
    pose proof (Hbusy 0 ltac:(lia)) as H0.
    replace (candidate + 2 * 0) with candidate in H0 by lia. rewrite H0.
    replace (candidate + 2 * Z.of_nat (S k)) with (candidate + 2 + 2 * Z.of_nat k) by lia.
    apply IH.
    + congruence.
    + lia.
    + lia.
    + by replace (candidate + 2 + 2 * Z.of_nat k)
        with (candidate + 2 * Z.of_nat (S k)) by lia.
    + by replace (candidate + 2 + 2 * Z.of_nat k + 1)
        with (candidate + 2 * Z.of_nat (S k) + 1) by lia.
    + intros j Hj. pose proof (Hbusy (j + 1) ltac:(lia)) as Hj'.
      by replace (candidate + 2 + 2 * j) with (candidate + 2 * (j + 1)) by lia.
Qed.

(** C2: for a requested port [p] and no explicit CDP port, if [k < 20]
    is the least number for which the ports [p + 2k] and [p + 2k + 1]
    are both free, then [findAvailablePort(p)] returns that pair, with
    [wasAutoSelected] false for [k = 0] and true for [k >= 1].  The
    ports stay as they are while the call probes them. *)
Theorem findAvailablePort_first_free_pair (p k : Z) (st : State) :
  valid_port p = true →
  0 ≤ k < 20 →
  port_free (world st) (p + 2 * k) = true →
  port_free (world st) (p + 2 * k + 1) = true →
  (∀ j : Z, 0 ≤ j < k →
     port_free (world st) (p + 2 * j) && port_free (world st) (p + 2 * j + 1) = false) →
  (findAvailablePort env p None 20 st).1
  = Ok (PortSelectionResult.mk (p + 2 * k) (p + 2 * k + 1) (negb (k =? 0)) p).
Proof.
  intros Hp Hk Hfree Hfree' Hbusy. unfold findAvailablePort.
  pose proof (scan_finds p (world st) (Z.to_nat k) (Z.to_nat 20) p st eq_refl) as Hscan.
  rewrite Z2Nat.id in Hscan by lia.
  unfold mbind, M_bind.
  destruct (scan env p (Z.to_nat 20) p st) as [r st'] eqn:Hrun.
  simpl in Hscan. rewrite Hscan; try done.
  - simpl. do 3 f_equal.
    destruct (Z.eqb_spec k 0), (Z.eqb_spec (p + 2 * k) p); simpl; try done; lia.
  - unfold valid_port in Hp. lia.
  - lia.
Qed.


Lemma scan_exhausts (requestedPort : Z) (w : World) :
  ∀ (attempts : nat) (candidate : Z) (st : State),
    world st = w →
    0 ≤ candidate →
    (∀ j : Z, 0 ≤ j < Z.of_nat attempts →
       port_free w (candidate + 2 * j) && port_free w (candidate + 2 * j + 1) = false) →
    ∃ (n : nat) (st' : State),
      scan env requestedPort attempts candidate st
      = (Ok (inr (candidate + 2 * Z.of_nat n)), st')
      ∧ (trace st').*1 = (trace st).*1 ++ probe_calls candidate n
      ∧ (n ≤ attempts)%nat
      ∧ (n = attempts ∨ 65535 < candidate + 2 * Z.of_nat n + 1).
Proof.
  induction attempts as [|attempts IH]; intros candidate st Hw Hc Hbusy.
  - exists 0%nat, st. simpl. rewrite Z.add_0_r, app_nil_r. auto.
  - rewrite scan_S.
    destruct ((candidate >? 65535) || (candidate + 1 >? 65535)) eqn:Hout.
    + exists 0%nat, st. simpl. rewrite Z.add_0_r, app_nil_r.
      repeat split; [lia|]. right. lia.
    + destruct (isPortAvailable_quiet candidate st) as (st1 & Hrun1 & Hw1 & Htr1);
        [unfold valid_port; lia|].
      destruct (isPortAvailable_quiet (candidate + 1) st1) as (st2 & Hrun2 & Hw2 & Htr2);
        [unfold valid_port; lia|].
      rewrite (bind_Ok _ _ _ _ _ Hrun1), (bind_Ok _ _ _ _ _ Hrun2).
      pose proof (Hbusy 0 ltac:(lia)) as H0.
      replace (candidate + 2 * 0) with candidate in H0 by lia.
      rewrite Hw1, Hw, H0.
      destruct (IH (candidate + 2) st2) as (n & st' & Hrun & Htr & Hn & Hend).
      * congruence.
      * lia.
      * intros j Hj. pose proof (Hbusy (j + 1) ltac:(lia)) as Hj'.
        by replace (candidate + 2 + 2 * j) with (candidate + 2 * (j + 1)) by lia.
      * exists (S n), st'. rewrite Hrun.
        replace (candidate + 2 + 2 * Z.of_nat n)
          with (candidate + 2 * Z.of_nat (S n)) by lia.
        split; [done|]. split; [|split; [lia|]].
        -- rewrite Htr, Htr2, Htr1. simpl. by rewrite <- !app_assoc.
        -- destruct Hend as [->|Hend]; [by left | right; lia].
Qed.

(** X3: Exhaustion away from the last port: when the first pair is in range
    and no candidate pair is free, the call throws, and the error names
    the requested port and the last primary port probed. *)
Theorem findAvailablePort_exhausted (p : Z) (st : State) :
  valid_port p = true →
  p + 1 ≤ 65535 →
  (∀ j : Z, 0 ≤ j < 20 →
     port_free (world st) (p + 2 * j) && port_free (world st) (p + 2 * j + 1) = false) →
  ∃ (n : nat) (st' : State),
    (1 ≤ n ≤ 20)%nat
    ∧ findAvailablePort env p None 20 st
      = (Throw (Error ("Could not find an available port pair after 20 attempts (tried "
                       +:+ pretty p +:+ "–" +:+ pretty (p + 2 * (Z.of_nat n - 1))
                       +:+ "). Specify an explicit --port.")), st')
    ∧ (trace st').*1 = (trace st).*1 ++ probe_calls p n
    ∧ (n = 20%nat ∨ 65535 < p + 2 * Z.of_nat n + 1).
Proof.
  intros Hp Hroom Hbusy. unfold valid_port in Hp.
  destruct (scan_exhausts p (world st) (Z.to_nat 20) p st eq_refl)
    as (n & st' & Hrun & Htr & Hn & Hend); [lia | |].
  { intros j Hj. apply Hbusy. lia. }
  exists n, st'. unfold findAvailablePort. rewrite (bind_Ok _ _ _ _ _ Hrun).
  assert (n ≠ 0)%nat by (destruct Hend; lia).
  replace (p + 2 * Z.of_nat n - 2) with (p + 2 * (Z.of_nat n - 1)) by lia.
  split; [lia|]. split; [done|]. split; [done|]. exact Hend.
Qed.
(** *** acquireProfileLock *)

Lemma locked_message_includes (profileDir : string) (e : LockInfo.t) :
  includes (locked_message profileDir e) ("PID " +:+ pretty (LockInfo.pid e))
  ∧ includes (locked_message profileDir e) ("port " +:+ pretty (LockInfo.port e))
  ∧ includes (locked_message profileDir e) (ToString (LockInfo.startedAt e)).
Proof.
  unfold locked_message, includes. split; [|split].
  - eexists ("Profile directory " +:+ dquote +:+ profileDir +:+ dquote
            +:+ " is locked by another instance ("), _.
    string_norm. reflexivity.
  - eexists ("Profile directory " +:+ dquote +:+ profileDir +:+ dquote
            +:+ " is locked by another instance (PID "
            +:+ pretty (LockInfo.pid e) +:+ ", "), _.
    string_norm. reflexivity.
  - eexists ("Profile directory " +:+ dquote +:+ profileDir +:+ dquote
            +:+ " is locked by another instance (PID "
            +:+ pretty (LockInfo.pid e) +:+ ", port "
            +:+ pretty (LockInfo.port e) +:+ ", started "), _.
    string_norm. reflexivity.
Qed.

(** Over a lock file that parses to a record whose pid answers the
    existence probe of the caller, [acquireProfileLock] throws an error
    whose message includes the holder's pid, port and acquisition time;
    it makes no call that creates, writes or removes a file, and leaves
    the files as they were.  No other process acts meanwhile. *)
Theorem acquire_live_lock_conflict (profileDir : string) (port : Z) (st : State)
    (v : json) (pid hport : Z) (started : string) :
  files (world st) !! lockFilePath profileDir = Some (Json v) →
  prop "pid" v = Some (JNum pid) →
  prop "port" v = Some (JNum hport) →
  prop "startedAt" v = Some (JStr started) →
  alive (world st) pid = true →
  ∃ msg,
    acquireProfileLock env ToNumber process_pid toISOString profileDir port st
    = (Throw (Error msg),
       mkState (world st)
         (trace st ++ [(Mkdir profileDir, None);
                       (Exists (lockFilePath profileDir), None);
                       (ReadFile (lockFilePath profileDir), None);
                       (Kill pid SIG0, None)])
         (console st))
    ∧ includes msg ("PID " +:+ pretty pid)
    ∧ includes msg ("port " +:+ pretty hport)
    ∧ includes msg started.
Proof.
  intros Hfile Hpid Hport Hstarted Halive.
  exists (locked_message profileDir (LockInfo.mk pid hport (Some (JStr started)))).
  split; [|apply (locked_message_includes profileDir
                    (LockInfo.mk pid hport (Some (JStr started))))].
  unfold acquireProfileLock, acquire_prepare, readLock, isProcessRunning, mkdirSync,
    existsSync, readFileSync.
  repeat (run; rewrite ?Hfile, ?(prop_Some_not_null _ _ _ Hpid), ?Hpid, ?Hport,
                 ?Halive, ?Hstarted).
  by rewrite <- !app_assoc.
Qed.

Lemma acquire_unanswered_probe (profileDir : string) (port : Z) (st : State)
    (v : json) (pid hport : Z) :
  files (world st) !! lockFilePath profileDir = Some (Json v) →
  prop "pid" v = Some (JNum pid) →
  prop "port" v = Some (JNum hport) →
  alive (world st) pid = false →
  let path := lockFilePath profileDir in
  let lock := Json (stringify_LockInfo
                      (LockInfo.mk process_pid port
                         (Some (JStr (toISOString (now_ms (world st))))))) in
  acquireProfileLock env ToNumber process_pid toISOString profileDir port st
  = (Ok (),
     mkState (set_files (<[path := lock]> (files (world st))) (world st))
       (trace st ++ [(Mkdir profileDir, None); (Exists path, None);
                     (ReadFile path, None);
                     (Kill pid SIG0, kill_outcome (world st) pid);
                     (Unlink path, None); (Create path lock, None)])
       (console st ++ ["Removing stale profile lock (PID " +:+ pretty pid
                       +:+ " is no longer running)"])).
Proof.
  intros Hfile Hpid Hport Hdead path lock. subst path lock.
  assert (Hout : ∃ code, kill_outcome (world st) pid = Some code).
  { unfold kill_outcome. rewrite Hdead. destruct (bool_decide _); eauto. }
  destruct Hout as [code Hout]. rewrite Hout. unfold kill_outcome in Hout.
  unfold acquireProfileLock, acquire_prepare, readLock, removeLock, isProcessRunning,
    mkdirSync, existsSync, readFileSync, unlinkSync, writeFileSync_wx, console_log,
    Date_now.
  repeat (run;
          rewrite ?Hfile, ?(prop_Some_not_null _ _ _ Hpid), ?Hpid, ?Hport, ?Hout,
                  ?lookup_delete_eq).
  unfold set_files. simpl. rewrite insert_delete_eq, <- !app_assoc. done.
Qed.


(** C1: the holder of the lock is a live process that the caller may
    not signal, one of another user: the existence probe fails with
    EPERM, [isProcessRunning] takes that for a process that is gone, and
    [acquireProfileLock] prints the stale-lock line, removes the
    holder's lock, creates its own and returns, where its documentation
    has it throw for a lock with a live pid.  No other process acts
    meanwhile. *)
Theorem acquire_steals_guarded_lock (profileDir : string) (port : Z) (st : State)
    (v : json) (pid hport : Z) :
  files (world st) !! lockFilePath profileDir = Some (Json v) →
  prop "pid" v = Some (JNum pid) →
  prop "port" v = Some (JNum hport) →
  running (world st) pid = true →
  alive (world st) pid = false →
  let path := lockFilePath profileDir in
  let lock := Json (stringify_LockInfo
                      (LockInfo.mk process_pid port
                         (Some (JStr (toISOString (now_ms (world st))))))) in
  acquireProfileLock env ToNumber process_pid toISOString profileDir port st
  = (Ok (),
     mkState (set_files (<[path := lock]> (files (world st))) (world st))
       (trace st ++ [(Mkdir profileDir, None); (Exists path, None);
                     (ReadFile path, None); (Kill pid SIG0, Some EPERM);
                     (Unlink path, None); (Create path lock, None)])
       (console st ++ ["Removing stale profile lock (PID " +:+ pretty pid
                       +:+ " is no longer running)"])).
Proof.
  intros Hfile Hpid Hport Hlive Hprobe path lock. subst path lock.
  rewrite <- (kill_outcome_guarded _ _ Hprobe Hlive).
  by apply (acquire_unanswered_probe profileDir port st v pid hport).
Qed.

(** C10: over a lock file that does not parse to a lock record, and
    with no other process acting, [readLock] reports no lock, the
    exclusive create fails with EEXIST, and the recovery removes the
    file and succeeds at its one retry. *)
Theorem acquire_over_malformed_lock (profileDir : string) (port : Z) (st : State)
    (data : FileData) :
  files (world st) !! lockFilePath profileDir = Some data →
  malformed_lock data →
  let path := lockFilePath profileDir in
  let lock := Json (stringify_LockInfo
                      (LockInfo.mk process_pid port
                         (Some (JStr (toISOString (now_ms (world st))))))) in
  (readLock env profileDir st).1 = Ok None
  ∧ acquireProfileLock env ToNumber process_pid toISOString profileDir port st
    = (Ok (),
       mkState (set_files (<[path := lock]> (files (world st))) (world st))
         (trace st ++ [(Mkdir profileDir, None);
                       (Exists path, None); (ReadFile path, None);
                       (Create path lock, Some EEXIST);
                       (Exists path, None); (ReadFile path, None);
                       (Unlink path, None); (Create path lock, None)])
         (console st)).
Proof.
  intros Hfile Hbad path lock. subst path lock.
  unfold acquireProfileLock, acquire_prepare, acquire_after_EEXIST, readLock, removeLock,
    isProcessRunning, mkdirSync, existsSync, readFileSync, unlinkSync,
    writeFileSync_wx, console_log, Date_now.
  destruct data as [raw|v].
  - split.
    + repeat (run; rewrite ?Hfile). done.
    + repeat (run; rewrite ?Hfile, ?lookup_delete_eq).
      unfold set_files. simpl. rewrite insert_delete_eq, <- !app_assoc. done.
  - simpl in Hbad.
    split.
    + repeat (run; rewrite ?Hfile).
      destruct (is_null v); simpl; [done|].
      destruct Hbad as [-> | ->]; [done|]. by destruct (as_number (prop "pid" v)).
    + repeat (run; rewrite ?Hfile).
      destruct (is_null v) eqn:Hnull; simpl.
      * repeat (run; rewrite ?Hfile, ?Hnull, ?lookup_delete_eq).
        unfold set_files. simpl. rewrite insert_delete_eq, <- !app_assoc. done.
      * destruct (as_number (prop "pid" v)) as [n|] eqn:Hn;
          destruct (as_number (prop "port" v)) as [m|] eqn:Hm;
          try (destruct Hbad; discriminate);
          repeat (run; rewrite ?Hfile, ?Hnull, ?Hn, ?Hm, ?lookup_delete_eq);
          unfold set_files; simpl; rewrite insert_delete_eq, <- !app_assoc; done.
Qed.

(** *** The instance registry *)

Lemma endsWith_unfold (s suffix : string) :
  endsWith s suffix
  = if String.eqb s suffix then true
    else match s with
         | EmptyString => false
         | String _ s' => endsWith s' suffix
         end.
Proof. by destruct s. Qed.

Lemma endsWith_app (a suffix : string) : endsWith (a +:+ suffix) suffix = true.
Proof.
  induction a as [|c a IH].
  - rewrite string_app_nil, endsWith_unfold. by rewrite String.eqb_refl.
  - rewrite string_app_cons, endsWith_unfold, IH. by destruct (String.eqb _ _).
Qed.

Lemma elem_of_dir_entries (dir name : string) (fs : gmap filepath FileData) :
  name ∈ dir_entries dir fs ↔ is_Some (fs !! (dir, name)).
Proof.
  unfold dir_entries. rewrite list_elem_of_omap. split.
  - intros ([[d n] data] & Hin & Hsome). simpl in Hsome.
    destruct (decide (d = dir)) as [->|]; [|done]. injection Hsome as ->.
    apply elem_of_map_to_list in Hin. eauto.
  - intros [data Hdata]. exists ((dir, name), data). split.
    + by apply elem_of_map_to_list.
    + simpl. by rewrite decide_True.
Qed.

Lemma elem_of_registry_values (fs : gmap filepath FileData) (v : json) :
  v ∈ registry_values fs
  ↔ ∃ name, endsWith name ".json" = true ∧ fs !! (INSTANCES_DIR, name) = Some (Json v).
Proof.
  unfold registry_values. rewrite list_elem_of_bind. split.
  - intros (name & Hv & Hname). exists name. unfold parsed_entry in Hv.
    destruct (endsWith name ".json"); [|by apply elem_of_nil in Hv].
    destruct (fs !! (INSTANCES_DIR, name)) as [[raw|v']|];
      try by apply elem_of_nil in Hv.
    by apply list_elem_of_singleton in Hv as ->.
  - intros (name & Hends & Hfile). exists name. split.
    + unfold parsed_entry. rewrite Hends, Hfile. by apply list_elem_of_singleton.
    + apply elem_of_dir_entries. eauto.
Qed.

Lemma as_InstanceInfo_stringify (info : InstanceInfo.t) :
  as_InstanceInfo (stringify_InstanceInfo info) = Some info.
Proof.
  destruct info as [pid port cdp mode label headless started [dir|] [chrome|]];
    destruct mode; reflexivity.
Qed.

Lemma stringify_InstanceInfo_inj (a b : InstanceInfo.t) :
  stringify_InstanceInfo a = stringify_InstanceInfo b → a = b.
Proof.
  intros H. apply (f_equal as_InstanceInfo) in H.
  rewrite !as_InstanceInfo_stringify in H. by injection H.
Qed.

(** Two ports never share a registry file. *)
Lemma instancePath_inj (a b : Z) : instancePath (JN a) = instancePath (JN b) → a = b.
Proof.
  unfold instancePath. simpl. intros H. injection H as H.
  assert (Hcancel : ∀ s t u : string, s +:+ u = t +:+ u → s = t).
  { clear. intros s t u Heq.
    assert (Hlen : ∀ x y : string,
      String.length (x +:+ y) = (String.length x + String.length y)%nat).
    { intros x y. induction x as [|c x IH]; [done|].
      rewrite string_app_cons. simpl. by rewrite IH. }
    revert t Heq. induction s as [|c s IH]; intros [|c' t] Heq.
    - done.
    - apply (f_equal String.length) in Heq.
      rewrite string_app_nil, Hlen in Heq. simpl in Heq. lia.
    - apply (f_equal String.length) in Heq.
      rewrite string_app_nil, Hlen in Heq. simpl in Heq. lia.
    - rewrite !string_app_cons in Heq. injection Heq as -> Heq. f_equal. by apply IH. }
  apply Hcancel in H. by apply (inj pretty) in H.
Qed.

Lemma listInstances_file_quiet (results : list json) (file : string) (st : State) :
  ∃ st', listInstances_file env results file st
         = (Ok (results ++ parsed_entry (files (world st)) file), st')
         ∧ world st' = world st.
Proof.
  unfold listInstances_file, parsed_entry, readFileSync.
  destruct (endsWith file ".json"); simpl.
  - unfold mbind, mret, M_bind, M_ret, try_catch, syscall, JSON_parse, throw.
    rewrite quiet.
    destruct (files (world st) !! (INSTANCES_DIR, file)) as [[raw|v]|]; simpl;
      rewrite ?app_nil_r; eauto.
  - run. rewrite app_nil_r. eauto.
Qed.

Lemma listInstances_loop_quiet (names : list string) :
  ∀ (results : list json) (st : State),
    ∃ st', for_of names results (listInstances_file env) st
           = (Ok (results ++ (names ≫= parsed_entry (files (world st)))), st')
           ∧ world st' = world st.
Proof.
  induction names as [|file names IH]; intros results st; simpl.
  - run. rewrite app_nil_r. eauto.
  - destruct (listInstances_file_quiet results file st) as (st1 & Hrun & Hw1).
    unfold mbind at 1. unfold M_bind. rewrite Hrun.
    destruct (IH (results ++ parsed_entry (files (world st)) file) st1)
      as (st2 & Hrun2 & Hw2).
    rewrite Hrun2, Hw1, <- app_assoc. exists st2. split; [done | congruence].
Qed.

Lemma listInstances_quiet (st : State) :
  ∃ st', listInstances env st = sort_by_port (registry_values (files (world st))) st'
         ∧ world st' = world st.
Proof.
  unfold listInstances, ensureDir, mkdirSync, readdirSync. run.
  match goal with
  | |- context [for_of ?names [] _ ?s] =>
      destruct (listInstances_loop_quiet names [] s) as (st1 & Hrun & Hw1)
  end.
  rewrite Hrun. simpl in *. eauto.
Qed.

Lemma registry_wf_records (w : World) :
  registry_wf w →
  Forall (λ v, ∃ info, v = stringify_InstanceInfo info ∧ registered w info)
         (registry_values (files w)).
Proof.
  intros Hwf. apply Forall_forall. intros v Hv.
  apply elem_of_registry_values in Hv as (name & Hends & Hfile).
  destruct (Hwf name v Hfile Hends) as (info & -> & ->).
  exists info. split; [done|]. exact Hfile.
Qed.

Lemma sort_by_port_records (results : list json) (st : State) :
  Forall (λ v, is_null v = false) results →
  sort_by_port results st = (Ok (merge_sort by_port results), st).
Proof.
  intros Hobj. unfold sort_by_port.
  assert (Hnone : existsb is_null results = false).
  { induction Hobj as [|v l Hv _ IH]; [done|]. simpl. by rewrite Hv, IH. }
  by rewrite Hnone, andb_false_r.
Qed.

Lemma registerInstance_quiet (info : InstanceInfo.t) (st : State) :
  registerInstance env info st
  = (Ok (),
     mkState (set_files (<[instancePath (JN (InstanceInfo.port info))
                           := Json (stringify_InstanceInfo info)]> (files (world st)))
                        (world st))
       (trace st ++ [(Mkdir INSTANCES_DIR, None);
                     (WriteFile (instancePath (JN (InstanceInfo.port info)))
                                (Json (stringify_InstanceInfo info)), None)])
       (console st)).
Proof.
  unfold registerInstance, ensureDir, mkdirSync, writeFileSync. run.
  by rewrite <- app_assoc.
Qed.

(** The registry stays a registry when an instance registers. *)
Lemma registerInstance_wf (info : InstanceInfo.t) (st : State) :
  registry_wf (world st) →
  registry_wf (world (registerInstance env info st).2).
Proof.
  intros Hwf. rewrite registerInstance_quiet. simpl. intros name v Hfile Hends.
  simpl in Hfile. destruct (decide (instancePath (JN (InstanceInfo.port info))
                                    = (INSTANCES_DIR, name))) as [Heq|Hne].
  - rewrite Heq, lookup_insert_eq in Hfile. injection Hfile as <-.
    exists info. split; [done|]. unfold instancePath in Heq. by injection Heq.
  - rewrite lookup_insert_ne in Hfile by done. eauto.
Qed.

Lemma unregisterInstance_quiet (port : jsval) (st : State) :
  ∃ st', unregisterInstance env port st = (Ok (), st')
         ∧ files (world st') = delete (instancePath port) (files (world st))
         ∧ procs (world st') = procs (world st).
Proof.
  unfold unregisterInstance, unlinkSync.
  unfold mret, M_ret, try_catch, syscall. rewrite quiet.
  destruct (files (world st) !! instancePath port) eqn:Hfile; simpl.
  - eauto.
  - eexists. split; [done|]. split; [|done]. simpl. by rewrite delete_id.
Qed.

(** Removing files keeps it one. *)
Lemma registry_wf_subset (w w' : World) :
  (∀ p data, files w' !! p = Some data → files w !! p = Some data) →
  registry_wf w → registry_wf w'.
Proof. intros Hsub Hwf name v Hfile. apply Hwf. by apply Hsub. Qed.

Lemma unregisterInstance_wf (port : jsval) (st : State) :
  registry_wf (world st) →
  registry_wf (world (unregisterInstance env port st).2).
Proof.
  destruct (unregisterInstance_quiet port st) as (st' & -> & Hfiles & _).
  apply registry_wf_subset. intros p data. simpl. rewrite Hfiles.
  intros [_ ?]%lookup_delete_Some. done.
Qed.

(** C7: right after [registerInstance(r)], in a registry directory that
    the registry itself maintains and with no other process acting,
    [listInstances()] returns a list with a value that, read through the
    [InstanceInfo] interface, is [r] in every field. *)
Theorem listInstances_after_registerInstance (r : InstanceInfo.t) (st : State) :
  registry_wf (world st) →
  ∃ st1 st2 listed v,
    registerInstance env r st = (Ok (), st1)
    ∧ listInstances env st1 = (Ok listed, st2)
    ∧ v ∈ listed
    ∧ as_InstanceInfo v = Some r.
Proof.
  intros Hwf.
  pose proof (registerInstance_wf r st Hwf) as Hwf1.
  rewrite registerInstance_quiet in Hwf1. simpl in Hwf1.
  eexists _. destruct (listInstances_quiet (registerInstance env r st).2)
    as (st2 & Hrun & Hw2).
  rewrite registerInstance_quiet in Hrun. simpl in Hrun.
  pose proof (registry_wf_records _ Hwf1) as Hrecords. simpl in Hrecords.
  rewrite sort_by_port_records in Hrun.
  2: { eapply Forall_impl; [exact Hrecords|]. by intros v (info & -> & _). }
  eexists st2, _, (stringify_InstanceInfo r).
  split; [apply registerInstance_quiet|]. split; [exact Hrun|].
  split; [|apply as_InstanceInfo_stringify].
  rewrite merge_sort_Permutation. apply elem_of_registry_values.
  exists (pretty (InstanceInfo.port r) +:+ ".json").
  split; [apply endsWith_app|]. apply lookup_insert_eq.
Qed.

(** *** cleanStaleInstances *)

Lemma prop_pid_stringify (info : InstanceInfo.t) :
  prop "pid" (stringify_InstanceInfo info) = JN (InstanceInfo.pid info).
Proof. reflexivity. Qed.

Lemma prop_port_stringify (info : InstanceInfo.t) :
  prop "port" (stringify_InstanceInfo info) = JN (InstanceInfo.port info).
Proof. reflexivity. Qed.

Lemma stale_in_stringify (w : World) (info : InstanceInfo.t) :
  stale_in w (stringify_InstanceInfo info) = negb (alive w (InstanceInfo.pid info)).
Proof. reflexivity. Qed.

Lemma stale_in_procs (w w' : World) (v : json) :
  procs w' = procs w → stale_in w' v = stale_in w v.
Proof. intros H. unfold stale_in, alive. by rewrite H. Qed.

Lemma isProcessRunning_quiet (pid : Z) (st : State) :
  isProcessRunning env ToNumber (JN pid) st
  = (Ok (alive (world st) pid),
     mkState (world st)
       (trace st ++ [(Kill pid SIG0, kill_outcome (world st) pid)])
       (console st)).
Proof.
  unfold isProcessRunning, process_kill.
  unfold mbind, mret, M_bind, M_ret, try_catch, throw, syscall. simpl. rewrite quiet.
  unfold kill_outcome. destruct (alive (world st) pid); [done|].
  by destruct (bool_decide (pid ∈ guarded (world st))).
Qed.

Lemma cleanStaleInstances_info_quiet (stale : list json) (info : InstanceInfo.t)
    (st : State) :
  let v := stringify_InstanceInfo info in
  let running := alive (world st) (InstanceInfo.pid info) in
  ∃ st',
    cleanStaleInstances_info env ToNumber stale v st
    = (Ok (if running then stale else stale ++ [v]), st')
    ∧ files (world st')
      = (if running then files (world st)
         else delete (instancePath (JN (InstanceInfo.port info))) (files (world st)))
    ∧ procs (world st') = procs (world st).
Proof.
  intros v running. subst v running.
  unfold cleanStaleInstances_info.
  rewrite !get_not_null by done. rewrite bind_ret, prop_pid_stringify.
  rewrite (bind_Ok _ _ _ _ _ (isProcessRunning_quiet _ st)).
  destruct (alive (world st) (InstanceInfo.pid info)) eqn:Halive; cbn [negb].
  - eexists. split; [reflexivity|]. done.
  - rewrite bind_ret, prop_port_stringify.
    match goal with
    | |- context [(unregisterInstance env ?p ≫= _) ?s] =>
        destruct (unregisterInstance_quiet p s) as (st' & Hrun & Hfiles & Hprocs)
    end.
    rewrite (bind_Ok _ _ _ _ _ Hrun).
    exists st'. split; [done|]. split; [|done]. by rewrite Hfiles.
Qed.

Lemma cleanStaleInstances_loop_quiet (all : list json) :
  ∀ (stale : list json) (st : State),
    Forall (λ v, ∃ info, v = stringify_InstanceInfo info) all →
    ∃ st',
      for_of all stale (cleanStaleInstances_info env ToNumber) st
      = (Ok (stale ++ filter (λ x, stale_in (world st) x = true) all), st')
      ∧ files (world st')
        = unregister_all (files (world st)) (filter (λ x, stale_in (world st) x = true) all)
      ∧ procs (world st') = procs (world st).
Proof.
  induction all as [|v all IH]; intros stale st Hrecords.
  - simpl. exists st. by rewrite app_nil_r.
  - apply Forall_cons in Hrecords as [(info & ->) Hrecords].
    destruct (cleanStaleInstances_info_quiet stale info st)
      as (st1 & Hrun1 & Hfiles1 & Hprocs1).
    simpl for_of. unfold mbind at 1. unfold M_bind. rewrite Hrun1.
    destruct (IH (if alive (world st) (InstanceInfo.pid info) then stale
                  else stale ++ [stringify_InstanceInfo info]) st1 Hrecords)
      as (st2 & Hrun2 & Hfiles2 & Hprocs2).
    assert (Hsame : filter (λ x, stale_in (world st1) x = true) all
                    = filter (λ x, stale_in (world st) x = true) all).
    { apply list_filter_iff. intros x. by rewrite (stale_in_procs _ _ x Hprocs1). }
    rewrite Hsame in Hrun2, Hfiles2.
    exists st2. rewrite Hrun2, Hfiles2, Hfiles1, filter_cons, stale_in_stringify.
    split; [|split; [|congruence]].
    + destruct (alive (world st) (InstanceInfo.pid info)); simpl; [done|].
      by rewrite <- app_assoc.
    + by destruct (alive (world st) (InstanceInfo.pid info)).
Qed.

Lemma lookup_unregister_all (vs : list json) :
  ∀ (fs : gmap filepath FileData) (p : filepath),
    unregister_all fs vs !! p
    = if decide (p ∈ (λ v, instancePath (prop "port" v)) <$> vs) then None else fs !! p.
Proof.
  induction vs as [|v vs IH]; intros fs p.
  - rewrite fmap_nil. by destruct (decide (p ∈ [])) as [Hin%elem_of_nil|].
  - change (unregister_all fs (v :: vs))
      with (unregister_all (delete (instancePath (prop "port" v)) fs) vs).
    rewrite IH, fmap_cons.
    destruct (decide (p = instancePath (prop "port" v))) as [->|Hne].
    + rewrite lookup_delete_eq.
      destruct (decide (_ ∈ _ <$> vs)), (decide (_ ∈ _ :: _)) as [|Hnin]; try done;
        destruct Hnin; by left.
    + rewrite lookup_delete_ne by done.
      destruct (decide (p ∈ _ <$> vs)) as [Hin|Hnin],
        (decide (p ∈ _ :: _)) as [Hin'|Hnin']; try done.
      * destruct Hnin'. by right.
      * by apply elem_of_cons in Hin' as [?|?].
Qed.

Lemma registered_listed (w : World) (info : InstanceInfo.t) :
  registered w info → stringify_InstanceInfo info ∈ registry_values (files w).
Proof.
  intros Hreg. apply elem_of_registry_values.
  exists (pretty (InstanceInfo.port info) +:+ ".json").
  split; [apply endsWith_app | exact Hreg].
Qed.

(** In a registry directory that the registry itself maintains and
    with no other process acting, [cleanStaleInstances()] returns
    exactly the records whose pid does not answer the existence probe
    of the caller and deletes exactly their files; every record whose
    pid answers it, and every other file, is still there and unchanged,
    and no file is added. *)
Theorem cleanStaleInstances_exact (st : State) :
  registry_wf (world st) →
  ∃ stale st',
    cleanStaleInstances env ToNumber st = (Ok stale, st')
    ∧ (∀ v, v ∈ stale
            ↔ ∃ info, v = stringify_InstanceInfo info
                      ∧ registered (world st) info
                      ∧ alive (world st) (InstanceInfo.pid info) = false)
    ∧ (∀ info, registered (world st) info →
               alive (world st) (InstanceInfo.pid info) = false →
               files (world st') !! instancePath (JN (InstanceInfo.port info)) = None)
    ∧ (∀ info, registered (world st) info →
               alive (world st) (InstanceInfo.pid info) = true →
               registered (world st') info)
    ∧ (∀ p data, files (world st') !! p = Some data → files (world st) !! p = Some data)
    ∧ (∀ p data, files (world st) !! p = Some data →
                 (∀ info, registered (world st) info →
                          alive (world st) (InstanceInfo.pid info) = false →
                          p ≠ instancePath (JN (InstanceInfo.port info))) →
                 files (world st') !! p = Some data).
Proof.
  intros Hwf. unfold cleanStaleInstances.
  destruct (listInstances_quiet st) as (st1 & Hlist & Hw1).
  pose proof (registry_wf_records _ Hwf) as Hrecords.
  rewrite sort_by_port_records in Hlist.
  2: { eapply Forall_impl; [exact Hrecords|]. by intros v (info & -> & _). }
  rewrite (bind_Ok _ _ _ _ _ Hlist).
  set (all := merge_sort by_port (registry_values (files (world st)))).
  assert (Hall : ∀ v, v ∈ all ↔ v ∈ registry_values (files (world st))).
  { intros v. unfold all. by rewrite merge_sort_Permutation. }
  destruct (cleanStaleInstances_loop_quiet all [] st1) as (st2 & Hrun & Hfiles & Hprocs).
  { apply Forall_forall. intros v Hv%Hall.
    rewrite Forall_forall in Hrecords.
    destruct (Hrecords v Hv) as (info & -> & _). eauto. }
  rewrite Hw1 in Hrun, Hfiles. simpl in Hrun.
  set (stale := filter (λ x, stale_in (world st) x = true) all) in *.
  assert (Hstale : ∀ v, v ∈ stale
            ↔ ∃ info, v = stringify_InstanceInfo info
                      ∧ registered (world st) info
                      ∧ alive (world st) (InstanceInfo.pid info) = false).
  { intros v. unfold stale. rewrite list_elem_of_filter, Hall. split.
    - intros [Hdead Hv]. rewrite Forall_forall in Hrecords.
      destruct (Hrecords v Hv) as (info & -> & Hreg).
      exists info. split; [done|]. split; [done|].
      rewrite stale_in_stringify in Hdead. by apply negb_true_iff.
    - intros (info & -> & Hreg & Hdead). split.
      + rewrite stale_in_stringify. by apply negb_true_iff.
      + by apply registered_listed. }
  assert (Hpaths : ∀ p, p ∈ (λ v, instancePath (prop "port" v)) <$> stale
            ↔ ∃ info, registered (world st) info
                      ∧ alive (world st) (InstanceInfo.pid info) = false
                      ∧ p = instancePath (JN (InstanceInfo.port info))).
  { intros p. rewrite list_elem_of_fmap. split.
    - intros (v & -> & (info & -> & Hreg & Hdead)%Hstale). eauto.
    - intros (info & Hreg & Hdead & ->). exists (stringify_InstanceInfo info).
      split; [done|]. apply Hstale. eauto. }
  assert (Hlookup : ∀ p, files (world st2) !! p
            = if decide (p ∈ (λ v, instancePath (prop "port" v)) <$> stale)
              then None else files (world st) !! p).
  { intros p. by rewrite Hfiles, lookup_unregister_all. }
  exists stale, st2. split; [exact Hrun|]. split; [exact Hstale|].
  split; [|split; [|split]].
  - intros info Hreg Hdead. rewrite Hlookup, decide_True; [done|].
    apply Hpaths. eauto.
  - intros info Hreg Hlive. unfold registered. rewrite Hlookup, decide_False; [done|].
    intros (info' & Hreg' & Hdead' & Hpath)%Hpaths.
    unfold registered in Hreg, Hreg'. rewrite Hpath, Hreg' in Hreg.
    assert (info' = info) by (apply stringify_InstanceInfo_inj; congruence).
    congruence.
  - intros p data. rewrite Hlookup. by destruct (decide _).
  - intros p data Hfile Hkeep. rewrite Hlookup, decide_False; [done|].
    intros (info & Hreg & Hdead & ->)%Hpaths. by eapply Hkeep.
Qed.

(** C4: the record of a live process that the caller may not signal:
    the existence probe fails with EPERM, [isProcessRunning] takes that
    for a process that is gone, and [cleanStaleInstances()] returns the
    record as stale and deletes its file, where its documentation has
    it remove the files of instances whose pid is no longer running.
    The registry directory is one that the registry itself maintains,
    and no other process acts meanwhile. *)
Theorem cleanStaleInstances_removes_guarded (st : State) (info : InstanceInfo.t) :
  registry_wf (world st) →
  registered (world st) info →
  running (world st) (InstanceInfo.pid info) = true →
  alive (world st) (InstanceInfo.pid info) = false →
  ∃ stale st',
    cleanStaleInstances env ToNumber st = (Ok stale, st')
    ∧ stringify_InstanceInfo info ∈ stale
    ∧ files (world st') !! instancePath (JN (InstanceInfo.port info)) = None.
Proof.
  intros Hwf Hreg _ Hprobe.
  destruct (cleanStaleInstances_exact st Hwf) as (stale & st' & Hrun & Hstale & Hgone & _).
  exists stale, st'. split; [exact Hrun|]. split.
  - apply Hstale. by exists info.
  - by apply Hgone.
Qed.

(** *** stopInstance *)

Lemma prop_chromePid_stringify (info : InstanceInfo.t) (child : Z) :
  InstanceInfo.chromePid info = Some child →
  prop "chromePid" (stringify_InstanceInfo info) = JN child.
Proof.
  destruct info as [pid port cdp mode label headless started [dir|] chrome]; simpl;
    by intros ->.
Qed.

Lemma stopped_message_includes (port : Z) :
  includes ("Instance on port " +:+ pretty port
            +:+ " was already stopped (cleaned registry)") "already stopped".
Proof.
  exists ("Instance on port " +:+ pretty port +:+ " was "), " (cleaned registry)".
  string_norm. reflexivity.
Qed.

(** For a registered port whose owner pid is not live and whose
    recorded child pid answers the existence probe, and with no other
    process acting, [stopInstance(port)] sends SIGKILL to the child,
    removes the registry file of the port and returns success with the
    already-stopped message; the owner pid gets the existence probe and
    no signal. *)
Theorem stopInstance_dead_owner_live_child (port : Z) (st : State)
    (info : InstanceInfo.t) (child : Z) :
  files (world st) !! instancePath (JN port) = Some (Json (stringify_InstanceInfo info)) →
  running (world st) (InstanceInfo.pid info) = false →
  InstanceInfo.chromePid info = Some child →
  alive (world st) child = true →
  0 < child →
  let file := instancePath (JN port) in
  let calls := [(ReadFile file, None);
                (Kill (InstanceInfo.pid info) SIG0, Some ESRCH);
                (Kill child SIG0, None);
                (Kill child SIGKILL, None);
                (Unlink file, None)] in
  ∃ message,
    stopInstance env ToNumber port st
    = (Ok (StopResult.mk port true message),
       mkState (set_files (delete file (files (world st))) (world st))
         (trace st ++ calls)
         (console st ++ ["Killed orphaned Chrome process (PID " +:+ pretty child
                         +:+ ") for port " +:+ pretty port]))
    ∧ includes message "already stopped"
    ∧ Forall (λ call, ∀ sig, call.1 = Kill (InstanceInfo.pid info) sig → sig = SIG0) calls.
Proof.
  intros Hfile [Hdead Hfree]%not_running Hchrome Hlive Hpos file calls. subst file calls.
  eexists. split; [|split; [apply (stopped_message_includes port)|]].
  - assert (Hget : getInstance env port st
                   = (Ok (stringify_InstanceInfo info),
                      mkState (world st)
                        (trace st ++ [(ReadFile (instancePath (JN port)), None)])
                        (console st))).
    { unfold getInstance, readFileSync. run. by rewrite Hfile. }
    assert (Htruthy : truthy (JN child) = true).
    { simpl. apply negb_true_iff, Z.eqb_neq. lia. }
    unfold stopInstance. rewrite (bind_Ok _ _ _ _ _ Hget).
    change (truthy (Some (stringify_InstanceInfo info))) with true.
    cbn [negb]. cbv zeta.
    rewrite (prop_chromePid_stringify _ _ Hchrome), prop_pid_stringify, Htruthy.
    unfold isProcessRunning, sendSignal, unregisterInstance, unlinkSync, console_log.
    repeat (run; rewrite ?Hfile, ?Hdead, ?Hfree, ?Hlive).
    rewrite <- !app_assoc. done.
  - assert (Hne : child ≠ InstanceInfo.pid info) by (intros ->; congruence).
    repeat constructor; simpl; intros sig Heq; by simplify_eq.
Qed.

(** C6: the recorded child is a live process that the caller may not
    signal: the existence probe fails with EPERM, [isProcessRunning]
    takes that for a process that is gone, and [stopInstance(port)]
    sends the child no signal at all; it removes the registry file and
    reports success with the already-stopped message while the child
    runs on, where its own comment has it clean up the browser if it is
    still running.  The owner pid is not live, and no other process acts
    meanwhile. *)
Theorem stopInstance_dead_owner_guarded_child (port : Z) (st : State)
    (info : InstanceInfo.t) (child : Z) :
  files (world st) !! instancePath (JN port) = Some (Json (stringify_InstanceInfo info)) →
  running (world st) (InstanceInfo.pid info) = false →
  InstanceInfo.chromePid info = Some child →
  running (world st) child = true →
  alive (world st) child = false →
  0 < child →
  let file := instancePath (JN port) in
  let calls := [(ReadFile file, None);
                (Kill (InstanceInfo.pid info) SIG0, Some ESRCH);
                (Kill child SIG0, Some EPERM);
                (Unlink file, None)] in
  stopInstance env ToNumber port st
  = (Ok (StopResult.mk port true
           ("Instance on port " +:+ pretty port
            +:+ " was already stopped (cleaned registry)")),
     mkState (set_files (delete file (files (world st))) (world st))
       (trace st ++ calls) (console st))
  ∧ Forall (λ call, ∀ pid sig, call.1 = Kill pid sig → sig = SIG0) calls
  ∧ running (set_files (delete file (files (world st))) (world st)) child = true.
Proof.
  intros Hfile [Hdead Hfree]%not_running Hchrome Hlive Hprobe Hpos file calls.
  subst file calls.
  assert (Hguarded : bool_decide (child ∈ guarded (world st)) = true).
  { unfold running in Hlive. by rewrite Hprobe in Hlive. }
  split; [|split; [|exact Hlive]].
  - assert (Hget : getInstance env port st
                   = (Ok (stringify_InstanceInfo info),
                      mkState (world st)
                        (trace st ++ [(ReadFile (instancePath (JN port)), None)])
                        (console st))).
    { unfold getInstance, readFileSync. run. by rewrite Hfile. }
    assert (Htruthy : truthy (JN child) = true).
    { simpl. apply negb_true_iff, Z.eqb_neq. lia. }
    unfold stopInstance. rewrite (bind_Ok _ _ _ _ _ Hget).
    change (truthy (Some (stringify_InstanceInfo info))) with true.
    cbn [negb]. cbv zeta.
    rewrite (prop_chromePid_stringify _ _ Hchrome), prop_pid_stringify, Htruthy.
    unfold isProcessRunning, sendSignal, unregisterInstance, unlinkSync, console_log.
    repeat (run; rewrite ?Hfile, ?Hdead, ?Hfree, ?Hprobe, ?Hguarded).
    rewrite <- !app_assoc. done.
  - repeat constructor; simpl; intros pid sig Heq; by simplify_eq.
Qed.

(** *** More on findAvailablePort *)

Lemma isPortAvailable_invalid (port : Z) (st : State) :
  valid_port port = false → isPortAvailable env port st = (Throw RangeError, st).
Proof. intros Hinvalid. unfold isPortAvailable, listen. rewrite Hinvalid. by run. Qed.

(** X1: With an explicit CDP port nothing is selected: both ports are
    probed, a taken HTTP port is reported first, then a taken CDP port,
    and otherwise the requested pair is returned as it is. *)
Theorem findAvailablePort_explicit (p cdp maxAttempts : Z) (st : State) :
  valid_port p = true →
  valid_port cdp = true →
  ∃ st',
    findAvailablePort env p (Some cdp) maxAttempts st
    = ((if negb (port_free (world st) p)
        then Throw (Error ("Port " +:+ pretty p
                           +:+ " is already in use. Specify a different --port."))
        else if negb (port_free (world st) cdp)
        then Throw (Error ("CDP port " +:+ pretty cdp
                           +:+ " is already in use. Specify a different --cdp-port."))
        else Ok (PortSelectionResult.mk p cdp false p)), st')
    ∧ (trace st').*1 = (trace st).*1 ++ [Listen p; Listen cdp]
    ∧ world st' = world st.
Proof.
  intros Hp Hcdp. unfold findAvailablePort.
  destruct (isPortAvailable_quiet p st Hp) as (st1 & Hrun1 & Hw1 & Htr1).
  destruct (isPortAvailable_quiet cdp st1 Hcdp) as (st2 & Hrun2 & Hw2 & Htr2).
  rewrite (bind_Ok _ _ _ _ _ Hrun1), (bind_Ok _ _ _ _ _ Hrun2). rewrite Hw1.
  exists st2. split; [|split; [|congruence]].
  - by destruct (port_free (world st) p), (port_free (world st) cdp).
  - rewrite Htr2, Htr1. by rewrite <- app_assoc.
Qed.

Lemma scan_sound (requestedPort : Z) (w : World) :
  ∀ (attempts : nat) (candidate : Z) (st : State) (r : PortSelectionResult.t),
    world st = w →
    (scan env requestedPort attempts candidate st).1 = Ok (inl r) →
    ∃ k : Z,
      0 ≤ k < Z.of_nat attempts
      ∧ r = PortSelectionResult.mk (candidate + 2 * k) (candidate + 2 * k + 1)
              (negb (candidate + 2 * k =? requestedPort)) requestedPort
      ∧ port_free w (candidate + 2 * k) = true
      ∧ port_free w (candidate + 2 * k + 1) = true
      ∧ (∀ j : Z, 0 ≤ j < k →
           port_free w (candidate + 2 * j) && port_free w (candidate + 2 * j + 1) = false).
Proof.
  induction attempts as [|attempts IH]; intros candidate st r Hw Hrun; [done|].
  rewrite scan_S in Hrun.
  destruct ((candidate >? 65535) || (candidate + 1 >? 65535)) eqn:Hout; [done|].
  destruct (valid_port candidate) eqn:Hv.
  2: { by rewrite (bind_Throw _ _ _ _ _ (isPortAvailable_invalid _ st Hv)) in Hrun. }
  assert (Hv' : valid_port (candidate + 1) = true) by (unfold valid_port in *; lia).
  destruct (isPortAvailable_quiet candidate st Hv) as (st1 & Hrun1 & Hw1 & _).
  destruct (isPortAvailable_quiet (candidate + 1) st1 Hv') as (st2 & Hrun2 & Hw2 & _).
  rewrite (bind_Ok _ _ _ _ _ Hrun1), (bind_Ok _ _ _ _ _ Hrun2), Hw1, Hw in Hrun.
  destruct (port_free w candidate && port_free w (candidate + 1)) eqn:Hfree.
  - injection Hrun as <-. exists 0. rewrite Z.mul_0_r, Z.add_0_r.
    apply andb_prop in Hfree as [? ?]. repeat split; try done; lia.
  - destruct (IH (candidate + 2) st2 r) as (k & Hk & Hr & Hf & Hf' & Hbusy);
      [congruence | done |].
    exists (k + 1).
    replace (candidate + 2 * (k + 1)) with (candidate + 2 + 2 * k) by lia.
    repeat split; try done; try lia.
    intros j Hj. destruct (decide (j = 0)) as [->|Hne].
    + by rewrite Z.mul_0_r, Z.add_0_r.
    + pose proof (Hbusy (j - 1) ltac:(lia)) as Hprev.
      by replace (candidate + 2 + 2 * (j - 1)) with (candidate + 2 * j) in Hprev by lia.
Qed.

(** X2: Whatever the attempt bound, a pair that auto-selection returns is
    free, is the requested pair moved up by an even offset below twice
    the bound, has its CDP port right above its HTTP port, and is the
    first such pair; [wasAutoSelected] tells whether it moved. *)
Theorem findAvailablePort_sound (p maxAttempts : Z) (st : State)
    (r : PortSelectionResult.t) :
  (findAvailablePort env p None maxAttempts st).1 = Ok r →
  ∃ k : Z,
    0 ≤ k < maxAttempts
    ∧ r = PortSelectionResult.mk (p + 2 * k) (p + 2 * k + 1) (negb (k =? 0)) p
    ∧ port_free (world st) (p + 2 * k) = true
    ∧ port_free (world st) (p + 2 * k + 1) = true
    ∧ (∀ j : Z, 0 ≤ j < k →
         port_free (world st) (p + 2 * j) && port_free (world st) (p + 2 * j + 1) = false).
Proof.
  unfold findAvailablePort. intros Hrun.
  destruct (scan env p (Z.to_nat maxAttempts) p st) as [[[r'|c]|e] st'] eqn:Hscan;
    unfold mbind, M_bind in Hrun; rewrite Hscan in Hrun; try done.
  injection Hrun as ->.
  destruct (scan_sound p (world st) (Z.to_nat maxAttempts) p st r eq_refl)
    as (k & Hk & Hr & Hf & Hf' & Hbusy); [by rewrite Hscan|].
  exists k. split; [lia|]. split; [|done]. rewrite Hr. f_equal.
  destruct (Z.eqb_spec k 0), (Z.eqb_spec (p + 2 * k) p); simpl; try done; lia.
Qed.

(** *** More on the profile lock *)

Lemma alive_set_files (fs : gmap filepath FileData) (w : World) (pid : Z) :
  alive (set_files fs w) pid = alive w pid.
Proof. reflexivity. Qed.

Lemma acquire_fresh_quiet (pid : Z) (profileDir : string) (port : Z) (st : State) :
  files (world st) !! lockFilePath profileDir = None →
  let path := lockFilePath profileDir in
  let lock := Json (stringify_LockInfo
                      (LockInfo.mk pid port
                         (Some (JStr (toISOString (now_ms (world st))))))) in
  acquireProfileLock env ToNumber pid toISOString profileDir port st
  = (Ok (),
     mkState (set_files (<[path := lock]> (files (world st))) (world st))
       (trace st ++ [(Mkdir profileDir, None); (Exists path, None);
                     (Create path lock, None)])
       (console st)).
Proof.
  intros Hfile path lock. subst path lock.
  unfold acquireProfileLock, acquire_prepare, readLock, mkdirSync, existsSync,
    writeFileSync_wx, Date_now.
  repeat (run; rewrite ?Hfile).
  by rewrite <- !app_assoc.
Qed.

Lemma readLock_own_quiet (profileDir : string) (lock : LockInfo.t) (st : State) :
  files (world st) !! lockFilePath profileDir = Some (Json (stringify_LockInfo lock)) →
  readLock env profileDir st
  = (Ok (Some lock),
     mkState (world st)
       (trace st ++ [(Exists (lockFilePath profileDir), None);
                     (ReadFile (lockFilePath profileDir), None)])
       (console st)).
Proof.
  intros Hfile. unfold readLock, existsSync, readFileSync.
  repeat (run; rewrite ?Hfile).
  rewrite <- !app_assoc. by destruct lock as [? ? []].
Qed.

(** X9: On a profile directory without a lock file [acquireProfileLock]
    returns, and [readLock] then gives back the record it wrote: the pid
    of the process, the port, and the time of the call; no other file
    has changed.  No other process acts meanwhile. *)
Theorem acquireProfileLock_then_readLock (profileDir : string) (port : Z) (st : State) :
  files (world st) !! lockFilePath profileDir = None →
  ∃ st1 st2,
    acquireProfileLock env ToNumber process_pid toISOString profileDir port st = (Ok (), st1)
    ∧ readLock env profileDir st1
      = (Ok (Some (LockInfo.mk process_pid port
                     (Some (JStr (toISOString (now_ms (world st))))))), st2)
    ∧ world st2 = world st1
    ∧ (∀ p, p ≠ lockFilePath profileDir →
            files (world st1) !! p = files (world st) !! p).
Proof.
  intros Hfile. eexists _, _.
  split; [by apply acquire_fresh_quiet|].
  split; [apply readLock_own_quiet; simpl; by rewrite lookup_insert_eq|].
  split; [done|]. intros p Hp. simpl. by rewrite lookup_insert_ne.
Qed.

(** X10: Once a process holds the lock of a profile directory and answers
    the existence probe of the callers, as it does to itself and to the
    processes of its user, every further [acquireProfileLock] of such a
    caller on that directory throws, for whichever port, with a message
    that names the holder's pid and port, and the lock stays as it is.
    No other process acts meanwhile.  A caller to whom the holder does
    not answer the probe is not covered: the world of the model is that
    of the callers of one user. *)
Theorem acquireProfileLock_excludes (profileDir : string) (holder other : Z)
    (port port' : Z) (st : State) :
  files (world st) !! lockFilePath profileDir = None →
  alive (world st) holder = true →
  ∃ st1 st2 msg,
    acquireProfileLock env ToNumber holder toISOString profileDir port st = (Ok (), st1)
    ∧ acquireProfileLock env ToNumber other toISOString profileDir port' st1
      = (Throw (Error msg), st2)
    ∧ includes msg ("PID " +:+ pretty holder)
    ∧ includes msg ("port " +:+ pretty port)
    ∧ world st2 = world st1.
Proof.
  intros Hfile Halive.
  set (lock := LockInfo.mk holder port (Some (JStr (toISOString (now_ms (world st)))))).
  eexists _, _, (locked_message profileDir lock).
  split; [by apply acquire_fresh_quiet|].
  split; [|split; [apply (locked_message_includes profileDir lock)|
                   split; [apply (locked_message_includes profileDir lock)|]]].
  - unfold acquireProfileLock, acquire_prepare, readLock, isProcessRunning, mkdirSync,
      existsSync, readFileSync.
    repeat (run; rewrite ?lookup_insert_eq, ?alive_set_files, ?Halive). reflexivity.
  - done.
Qed.

(** X11: After [removeLock] the profile directory is free again: a lock that
    was acquired and released can be acquired by another process, whose
    record then replaces the first.  No other process acts meanwhile. *)
Theorem removeLock_releases (profileDir : string) (first second : Z) (port port' : Z)
    (st : State) :
  files (world st) !! lockFilePath profileDir = None →
  ∃ st1 st2 st3,
    acquireProfileLock env ToNumber first toISOString profileDir port st = (Ok (), st1)
    ∧ removeLock env profileDir st1 = (Ok (), st2)
    ∧ files (world st2) = files (world st)
    ∧ acquireProfileLock env ToNumber second toISOString profileDir port' st2 = (Ok (), st3)
    ∧ (readLock env profileDir st3).1
      = Ok (Some (LockInfo.mk second port'
                    (Some (JStr (toISOString (now_ms (world st))))))).
Proof.
  intros Hfile. eexists _, _, _.
  split; [by apply acquire_fresh_quiet|].
  split; [unfold removeLock, unlinkSync; repeat (run; rewrite ?lookup_insert_eq); done|].
  simpl. split; [by rewrite delete_insert_id|].
  split; [apply acquire_fresh_quiet; simpl; by rewrite lookup_delete_eq|].
  erewrite readLock_own_quiet; [done|]. simpl. by rewrite lookup_insert_eq.
Qed.

(** *** More on the registry *)

Lemma getInstance_quiet (port : Z) (st : State) :
  getInstance env port st
  = (Ok (match files (world st) !! instancePath (JN port) with
         | Some (Json v) => v
         | _ => JNull
         end),
     mkState (world st)
       (trace st ++ [(ReadFile (instancePath (JN port)),
                      match files (world st) !! instancePath (JN port) with
                      | Some _ => None
                      | None => Some ENOENT
                      end)])
       (console st)).
Proof.
  unfold getInstance, readFileSync. run.
  by destruct (files (world st) !! instancePath (JN port)) as [[raw|v]|].
Qed.

(** X12: [getInstance] after [registerInstance] gives back the record that
    was registered, whatever was registered on that port before, and
    every field of it reads back as it was; what [getInstance] gives for
    another port is not changed by the registration.  No other process
    acts meanwhile. *)
Theorem registerInstance_then_getInstance (info : InstanceInfo.t) (st : State) :
  ∃ st1,
    registerInstance env info st = (Ok (), st1)
    ∧ (getInstance env (InstanceInfo.port info) st1).1 = Ok (stringify_InstanceInfo info)
    ∧ as_InstanceInfo (stringify_InstanceInfo info) = Some info
    ∧ (∀ other, other ≠ InstanceInfo.port info →
                (getInstance env other st1).1 = (getInstance env other st).1).
Proof.
  eexists. split; [apply registerInstance_quiet|].
  split; [|split; [apply as_InstanceInfo_stringify|]].
  - rewrite getInstance_quiet. simpl. by rewrite lookup_insert_eq.
  - intros other Hother. rewrite !getInstance_quiet. simpl.
    rewrite lookup_insert_ne; [done|]. by intros ?%instancePath_inj.
Qed.

(** X13: [unregisterInstance] returns whether or not a record is there; after
    it [getInstance] gives [null] for the port, a second
    [unregisterInstance] changes nothing, and the records of other ports
    are as before.  No other process acts meanwhile. *)
Theorem unregisterInstance_then_getInstance (port : Z) (st : State) :
  ∃ st1 st2,
    unregisterInstance env (JN port) st = (Ok (), st1)
    ∧ (getInstance env port st1).1 = Ok JNull
    ∧ unregisterInstance env (JN port) st1 = (Ok (), st2)
    ∧ world st2 = world st1
    ∧ (∀ other, other ≠ port →
                (getInstance env other st1).1 = (getInstance env other st).1).
Proof.
  unfold unregisterInstance, unlinkSync.
  destruct (files (world st) !! instancePath (JN port)) eqn:Hfile; eexists _, _;
    (split; [repeat (run; rewrite ?Hfile); reflexivity|]).
  - split; [rewrite getInstance_quiet; simpl; by rewrite lookup_delete_eq|].
    split; [repeat (run; rewrite ?lookup_delete_eq); reflexivity|].
    split; [done|]. intros other Hother. rewrite !getInstance_quiet. simpl.
    rewrite lookup_delete_ne; [done|]. by intros ?%instancePath_inj.
  - split; [rewrite getInstance_quiet; simpl; by rewrite Hfile|].
    split; [repeat (run; rewrite ?Hfile); reflexivity|].
    split; [done|]. intros other Hother. by rewrite !getInstance_quiet.
Qed.

Lemma NoDup_omap_inj {A B} (f : A → option B) (l : list A) :
  (∀ x y z, x ∈ l → y ∈ l → f x = Some z → f y = Some z → x = y) →
  NoDup l → NoDup (omap f l).
Proof.
  intros Hinj Hl. induction Hl as [|x l Hx Hl IH]; simpl; [constructor|].
  assert (Hrest : NoDup (omap f l)).
  { apply IH. intros a b z Ha Hb. apply Hinj; by right. }
  destruct (f x) as [z|] eqn:Hfx; [|done].
  constructor; [|done]. intros (y & Hy & Hfy)%list_elem_of_omap.
  assert (x = y) by (eapply Hinj; [by left | by right | done | done]).
  by subst.
Qed.

Lemma NoDup_dir_entries (dir : string) (fs : gmap filepath FileData) :
  NoDup (dir_entries dir fs).
Proof.
  apply NoDup_omap_inj; [|apply NoDup_map_to_list].
  intros [[d1 n1] x1] [[d2 n2] x2] z H1 H2. simpl.
  destruct (decide (d1 = dir)) as [->|]; [|done].
  destruct (decide (d2 = dir)) as [->|]; [|done].
  intros [= ->] [= ->].
  apply elem_of_map_to_list in H1, H2. f_equal. congruence.
Qed.

Lemma NoDup_registry_values (w : World) :
  registry_wf w → NoDup (registry_values (files w)).
Proof.
  intros Hwf. unfold registry_values. apply NoDup_bind; [| |apply NoDup_dir_entries].
  - intros name1 name2 v _ _. unfold parsed_entry.
    destruct (endsWith name1 ".json") eqn:H1; [|by intros ?%elem_of_nil].
    destruct (endsWith name2 ".json") eqn:H2; [|by intros _ ?%elem_of_nil].
    destruct (files w !! (INSTANCES_DIR, name1)) as [[|v1]|] eqn:Hf1;
      try by intros ?%elem_of_nil.
    destruct (files w !! (INSTANCES_DIR, name2)) as [[|v2]|] eqn:Hf2;
      try by intros _ ?%elem_of_nil.
    intros ->%list_elem_of_singleton ->%list_elem_of_singleton.
    destruct (Hwf _ _ Hf1 H1) as (info1 & Hv1 & ->).
    destruct (Hwf _ _ Hf2 H2) as (info2 & Hv2 & ->).
    assert (info1 = info2) by (apply stringify_InstanceInfo_inj; congruence).
    by subst.
  - intros name _. unfold parsed_entry.
    destruct (endsWith name ".json"); [|constructor].
    destruct (files w !! (INSTANCES_DIR, name)) as [[|v]|]; try constructor.
    + by intros ?%elem_of_nil.
    + constructor.
Qed.

#[local] Instance by_port_total : Total by_port.
Proof.
  intros a b. unfold by_port, port_diff.
  destruct (as_number (prop "port" a)), (as_number (prop "port" b)); lia.
Qed.

Lemma records_as_InstanceInfo (l : list json) :
  Forall (λ v, ∃ info, v = stringify_InstanceInfo info) l →
  stringify_InstanceInfo <$> omap as_InstanceInfo l = l.
Proof.
  induction 1 as [|v l (info & ->) _ IH]; [done|].
  assert (Hcons : omap as_InstanceInfo (stringify_InstanceInfo info :: l)
                  = info :: omap as_InstanceInfo l).
  { change (omap as_InstanceInfo (stringify_InstanceInfo info :: l))
      with (match as_InstanceInfo (stringify_InstanceInfo info) with
            | Some i => i :: omap as_InstanceInfo l
            | None => omap as_InstanceInfo l
            end).
    by rewrite as_InstanceInfo_stringify. }
  by rewrite Hcons, fmap_cons, IH.
Qed.

Lemma Sorted_by_port_records (infos : list InstanceInfo.t) :
  Sorted by_port (stringify_InstanceInfo <$> infos) →
  Sorted (λ a b, InstanceInfo.port a ≤ InstanceInfo.port b) infos.
Proof.
  induction infos as [|a infos IH]; [constructor|].
  rewrite fmap_cons. intros [Hrest Hhead]%Sorted_inv.
  constructor; [by apply IH|].
  destruct infos as [|b infos]; [constructor|].
  rewrite fmap_cons in Hhead. apply HdRel_inv in Hhead. constructor.
  unfold by_port, port_diff in Hhead. rewrite !prop_port_stringify in Hhead.
  simpl in Hhead. lia.
Qed.

Lemma StronglySorted_strict (infos : list InstanceInfo.t) :
  NoDup (InstanceInfo.port <$> infos) →
  StronglySorted (λ a b, InstanceInfo.port a ≤ InstanceInfo.port b) infos →
  StronglySorted (λ a b, InstanceInfo.port a < InstanceInfo.port b) infos.
Proof.
  induction infos as [|a infos IH]; [constructor|].
  rewrite fmap_cons. intros [Hnotin Hnodup]%NoDup_cons [Hrest Hall]%StronglySorted_inv.
  constructor; [by apply IH|].
  rewrite Forall_forall in Hall. apply Forall_forall. intros b Hb.
  pose proof (Hall b Hb).
  assert (InstanceInfo.port a ≠ InstanceInfo.port b); [|lia].
  intros Heq. apply Hnotin. rewrite Heq. by apply list_elem_of_fmap_2.
Qed.

Lemma sorted_registry_records (w : World) :
  registry_wf w →
  ∃ infos,
    merge_sort by_port (registry_values (files w)) = stringify_InstanceInfo <$> infos
    ∧ (∀ info, info ∈ infos ↔ registered w info)
    ∧ StronglySorted (λ a b, InstanceInfo.port a < InstanceInfo.port b) infos.
Proof.
  intros Hwf.
  pose proof (registry_wf_records _ Hwf) as Hrecords.
  set (listed := merge_sort by_port (registry_values (files w))) in *.
  assert (Hperm : listed ≡ₚ registry_values (files w))
    by apply merge_sort_Permutation.
  assert (Hlisted : Forall (λ v, ∃ info, v = stringify_InstanceInfo info) listed).
  { rewrite Hperm. eapply Forall_impl; [exact Hrecords|]. intros v (info & -> & _). eauto. }
  set (infos := omap as_InstanceInfo listed).
  assert (Hinfos : stringify_InstanceInfo <$> infos = listed)
    by by apply records_as_InstanceInfo.
  assert (Hmem : ∀ info, info ∈ infos ↔ registered w info).
  { intros info. split.
    - intros Hin. apply (list_elem_of_fmap_2 stringify_InstanceInfo) in Hin.
      rewrite Hinfos, Hperm in Hin. rewrite Forall_forall in Hrecords.
      destruct (Hrecords _ Hin) as (info' & Heq & Hreg).
      by rewrite (stringify_InstanceInfo_inj _ _ Heq).
    - intros Hreg. apply registered_listed in Hreg. rewrite <- Hperm, <- Hinfos in Hreg.
      apply list_elem_of_fmap in Hreg as (info' & Heq & Hin).
      by rewrite (stringify_InstanceInfo_inj _ _ Heq). }
  exists infos. split; [done|]. split; [done|].
  apply StronglySorted_strict.
  - assert (Hnodup : NoDup infos).
    { eapply (NoDup_fmap_1 stringify_InstanceInfo). rewrite Hinfos, Hperm.
      by apply NoDup_registry_values. }
    apply NoDup_fmap_2_strong; [|done].
    intros a b Ha%Hmem Hb%Hmem Hport. unfold registered in Ha, Hb.
    rewrite Hport, Hb in Ha. apply stringify_InstanceInfo_inj. congruence.
  - apply Sorted_StronglySorted; [intros a b c; lia|].
    apply Sorted_by_port_records. rewrite Hinfos. apply Sorted_merge_sort, _.
Qed.

Lemma records_not_null (infos : list InstanceInfo.t) :
  Forall (λ v, is_null v = false) (stringify_InstanceInfo <$> infos).
Proof. apply Forall_fmap, Forall_forall. by intros info _. Qed.

(** X14: In a registry directory that the registry itself maintains,
    [listInstances] returns the registered records and nothing else,
    each once and in strictly increasing order of port, and changes
    nothing.  No other process acts meanwhile. *)
Theorem listInstances_sorted_records (st : State) :
  registry_wf (world st) →
  ∃ infos st',
    listInstances env st = (Ok (stringify_InstanceInfo <$> infos), st')
    ∧ world st' = world st
    ∧ (∀ info, info ∈ infos ↔ registered (world st) info)
    ∧ StronglySorted (λ a b, InstanceInfo.port a < InstanceInfo.port b) infos.
Proof.
  intros Hwf.
  destruct (listInstances_quiet st) as (st' & Hlist & Hw).
  destruct (sorted_registry_records _ Hwf) as (infos & Hinfos & Hmem & Hsorted).
  rewrite sort_by_port_records, Hinfos in Hlist.
  2: { eapply Forall_impl; [exact (registry_wf_records _ Hwf)|].
       by intros v (info & -> & _). }
  by exists infos, st'.
Qed.

Lemma cleanStaleInstances_quiet (st : State) :
  registry_wf (world st) →
  let stale := filter (λ x, stale_in (world st) x = true)
                 (merge_sort by_port (registry_values (files (world st)))) in
  ∃ st',
    cleanStaleInstances env ToNumber st = (Ok stale, st')
    ∧ files (world st') = unregister_all (files (world st)) stale
    ∧ procs (world st') = procs (world st).
Proof.
  intros Hwf stale. subst stale. unfold cleanStaleInstances.
  destruct (listInstances_quiet st) as (st1 & Hlist & Hw1).
  pose proof (registry_wf_records _ Hwf) as Hrecords.
  rewrite sort_by_port_records in Hlist.
  2: { eapply Forall_impl; [exact Hrecords|]. by intros v (info & -> & _). }
  rewrite (bind_Ok _ _ _ _ _ Hlist).
  destruct (cleanStaleInstances_loop_quiet
              (merge_sort by_port (registry_values (files (world st)))) [] st1)
    as (st2 & Hrun & Hfiles & Hprocs).
  { rewrite merge_sort_Permutation. eapply Forall_impl; [exact Hrecords|].
    intros v (info & -> & _). eauto. }
  rewrite Hw1 in Hrun, Hfiles, Hprocs. by exists st2.
Qed.

Lemma unregister_all_subset (vs : list json) (fs : gmap filepath FileData)
    (p : filepath) (data : FileData) :
  unregister_all fs vs !! p = Some data → fs !! p = Some data.
Proof. rewrite lookup_unregister_all. by destruct (decide _). Qed.

Lemma StronglySorted_filter {A} (R : relation A) (P : A → Prop)
    `{∀ x, Decision (P x)} (l : list A) :
  StronglySorted R l → StronglySorted R (filter P l).
Proof.
  induction 1 as [|x l Hl IH Hx]; [constructor|].
  rewrite filter_cons. destruct (decide (P x)); [|done].
  constructor; [done|]. rewrite Forall_forall in Hx. apply Forall_forall.
  intros y [_ Hy]%list_elem_of_filter. by apply Hx.
Qed.

(** X28: in a registry directory that the registry itself maintains,
    [cleanStaleInstances] returns the stale records each once and in
    strictly increasing order of port: the registered records whose
    server does not answer the existence probe, and no other.  No other
    process acts meanwhile. *)
Theorem cleanStaleInstances_sorted (st : State) :
  registry_wf (world st) →
  ∃ dead st',
    cleanStaleInstances env ToNumber st = (Ok (stringify_InstanceInfo <$> dead), st')
    ∧ (∀ info, info ∈ dead
               ↔ registered (world st) info
                 ∧ alive (world st) (InstanceInfo.pid info) = false)
    ∧ StronglySorted (λ a b, InstanceInfo.port a < InstanceInfo.port b) dead.
Proof.
  intros Hwf.
  destruct (cleanStaleInstances_quiet st Hwf) as (st' & Hrun & _).
  destruct (sorted_registry_records _ Hwf) as (infos & Hinfos & Hmem & Hsorted).
  rewrite Hinfos in Hrun.
  exists (filter (λ info, alive (world st) (InstanceInfo.pid info) = false) infos), st'.
  split; [|split].
  - rewrite Hrun. do 2 f_equal. clear Hinfos Hmem Hsorted Hrun.
    induction infos as [|info infos IH]; [done|].
    rewrite fmap_cons, !filter_cons, IH.
    destruct (decide (stale_in (world st) (stringify_InstanceInfo info) = true)) as [H1|H1];
      destruct (decide (alive (world st) (InstanceInfo.pid info) = false)) as [H2|H2];
      try done; exfalso; rewrite stale_in_stringify in H1;
      destruct (alive (world st) (InstanceInfo.pid info)); simpl in H1; congruence.
  - intros info. rewrite list_elem_of_filter, Hmem. split; intros [? ?]; by split.
  - by apply StronglySorted_filter.
Qed.

(** X15: In a registry directory that the registry itself maintains, after
    [cleanStaleInstances] every record that is left belongs to a live
    process, and a second [cleanStaleInstances] finds nothing stale and
    leaves the files as they are.  No other process acts meanwhile. *)
Theorem cleanStaleInstances_idempotent (st : State) :
  registry_wf (world st) →
  ∃ stale st1 st2,
    cleanStaleInstances env ToNumber st = (Ok stale, st1)
    ∧ (∀ info, registered (world st1) info →
               alive (world st1) (InstanceInfo.pid info) = true)
    ∧ cleanStaleInstances env ToNumber st1 = (Ok [], st2)
    ∧ files (world st2) = files (world st1).
Proof.
  intros Hwf.
  destruct (cleanStaleInstances_quiet st Hwf) as (st1 & Hrun1 & Hfiles1 & Hprocs1).
  set (stale := filter (λ x, stale_in (world st) x = true)
                  (merge_sort by_port (registry_values (files (world st))))) in *.
  assert (Hwf1 : registry_wf (world st1)).
  { eapply registry_wf_subset; [|exact Hwf]. intros p data. rewrite Hfiles1.
    apply unregister_all_subset. }
  assert (Hlive : ∀ info, registered (world st1) info →
                          alive (world st1) (InstanceInfo.pid info) = true).
  { intros info Hreg. unfold registered in Hreg.
    rewrite Hfiles1, lookup_unregister_all in Hreg.
    destruct (decide _) as [|Hnotin]; [done|].
    unfold alive. rewrite Hprocs1. fold (alive (world st) (InstanceInfo.pid info)).
    destruct (alive (world st) (InstanceInfo.pid info)) eqn:Halive; [done|].
    exfalso. apply Hnotin. apply list_elem_of_fmap.
    exists (stringify_InstanceInfo info). split; [done|].
    apply list_elem_of_filter. split.
    - rewrite stale_in_stringify. by rewrite Halive.
    - rewrite merge_sort_Permutation. by apply registered_listed. }
  destruct (cleanStaleInstances_quiet st1 Hwf1) as (st2 & Hrun2 & Hfiles2 & _).
  assert (Hnone : filter (λ x, stale_in (world st1) x = true)
                    (merge_sort by_port (registry_values (files (world st1)))) = []).
  { apply elem_of_nil_inv. intros v [Hstale Hv]%list_elem_of_filter.
    rewrite merge_sort_Permutation in Hv.
    pose proof (registry_wf_records _ Hwf1) as Hrecords. rewrite Forall_forall in Hrecords.
    destruct (Hrecords v Hv) as (info & -> & Hreg).
    rewrite stale_in_stringify, (Hlive info Hreg) in Hstale. done. }
  exists stale, st1, st2. rewrite Hnone in Hrun2, Hfiles2. done.
Qed.

(** *** updateInstanceChromePid *)

Lemma readFileSync_quiet (p : filepath) (data : FileData) (st : State) :
  files (world st) !! p = Some data →
  readFileSync env p st
  = (Ok data, mkState (world st) (trace st ++ [(ReadFile p, None)]) (console st)).
Proof. intros Hfile. unfold readFileSync. by repeat (run; rewrite ?Hfile). Qed.

Lemma assign_chromePid (info : InstanceInfo.t) (chromePid : Z) :
  assign "chromePid" (JNum chromePid) (stringify_InstanceInfo info)
  = mret (stringify_InstanceInfo (with_chromePid info chromePid)).
Proof. by destruct info as [? ? ? ? ? ? ? [?|] [?|]]. Qed.

Lemma updateInstanceChromePid_run (info : InstanceInfo.t) (chromePid : Z) (st : State) :
  registered (world st) info →
  ∃ st',
    updateInstanceChromePid env (InstanceInfo.port info) chromePid st = (Ok (), st')
    ∧ files (world st')
      = <[instancePath (JN (InstanceInfo.port info))
          := Json (stringify_InstanceInfo (with_chromePid info chromePid))]>
          (files (world st)).
Proof.
  unfold registered. intros Hreg. unfold updateInstanceChromePid.
  eexists. split.
  - unfold try_catch.
    rewrite (bind_Ok _ _ _ _ _ (readFileSync_quiet _ _ _ Hreg)).
    unfold JSON_parse. rewrite bind_ret, assign_chromePid, bind_ret.
    unfold writeFileSync. run. reflexivity.
  - reflexivity.
Qed.

(** X16: [updateInstanceChromePid] on a registered port rewrites the record
    with the browser's pid set (in place of an earlier one) and every
    other field as it was, so that the record still reads back whole;
    no other file changes.  No other process acts meanwhile. *)
Theorem updateInstanceChromePid_registered (info : InstanceInfo.t) (chromePid : Z)
    (st : State) :
  registered (world st) info →
  ∃ st',
    updateInstanceChromePid env (InstanceInfo.port info) chromePid st = (Ok (), st')
    ∧ registered (world st') (with_chromePid info chromePid)
    ∧ (getInstance env (InstanceInfo.port info) st').1
      = Ok (stringify_InstanceInfo (with_chromePid info chromePid))
    ∧ (∀ p, p ≠ instancePath (JN (InstanceInfo.port info)) →
            files (world st') !! p = files (world st) !! p).
Proof.
  intros Hreg.
  destruct (updateInstanceChromePid_run info chromePid st Hreg) as (st' & Hrun & Hfiles).
  exists st'. split; [done|]. unfold registered.
  split; [rewrite Hfiles; by rewrite lookup_insert_eq|].
  split; [rewrite getInstance_quiet, Hfiles; simpl; by rewrite lookup_insert_eq|].
  intros p Hp. rewrite Hfiles. by rewrite lookup_insert_ne.
Qed.

(** X17: Where the port has no record, or one that is no JSON,
    [updateInstanceChromePid] returns without writing anything: it does
    not bring back a record that was removed.  No other process acts
    meanwhile. *)
Theorem updateInstanceChromePid_unregistered (port chromePid : Z) (st : State) :
  (∀ v, files (world st) !! instancePath (JN port) ≠ Some (Json v)) →
  ∃ outcome,
    updateInstanceChromePid env port chromePid st
    = (Ok (),
       mkState (world st) (trace st ++ [(ReadFile (instancePath (JN port)), outcome)])
         (console st)).
Proof.
  intros Hmissing. unfold updateInstanceChromePid, readFileSync.
  destruct (files (world st) !! instancePath (JN port)) as [[raw|v]|] eqn:Hfile.
  - exists None. by repeat (run; rewrite ?Hfile).
  - by destruct (Hmissing v).
  - exists (Some ENOENT). by repeat (run; rewrite ?Hfile).
Qed.

(** *** More on stopInstance *)

Lemma sendSignal_quiet (pid : Z) (sig : Signal) (st : State) :
  sendSignal env ToNumber (JN pid) sig st
  = (Ok (alive (world st) pid),
     mkState (world st)
       (trace st ++ [(Kill pid sig, kill_outcome (world st) pid)])
       (console st)).
Proof.
  unfold sendSignal, process_kill.
  unfold mbind, mret, M_bind, M_ret, try_catch, throw, syscall. simpl. rewrite quiet.
  unfold kill_outcome. destruct (alive (world st) pid); [done|].
  by destruct (bool_decide (pid ∈ guarded (world st))).
Qed.

Lemma waitForExit_check_quiet_alive (pid : Z) (timers : nat) :
  ∀ st : State,
    alive (world st) pid = true →
    waitForExit_check env ToNumber (JN pid) timers st
    = (Ok false,
       mkState (world st) (trace st ++ replicate (S timers) (Kill pid SIG0, None))
         (console st)).
Proof.
  induction timers as [|timers IH]; intros st Halive.
  - simpl. rewrite (bind_Ok _ _ _ _ _ (isProcessRunning_quiet pid st)),
      (kill_outcome_alive _ _ Halive), Halive. done.
  - change (waitForExit_check env ToNumber (JN pid) (S timers))
      with (running ← isProcessRunning env ToNumber (JN pid);
            if negb running then mret true
            else waitForExit_check env ToNumber (JN pid) timers).
    rewrite (bind_Ok _ _ _ _ _ (isProcessRunning_quiet pid st)),
      (kill_outcome_alive _ _ Halive), Halive. simpl negb.
    cbv iota. rewrite IH by done. simpl. by rewrite <- app_assoc.
Qed.

Lemma unregisterInstance_exact (port : Z) (data : FileData) (st : State) :
  files (world st) !! instancePath (JN port) = Some data →
  unregisterInstance env (JN port) st
  = (Ok (),
     mkState (set_files (delete (instancePath (JN port)) (files (world st))) (world st))
       (trace st ++ [(Unlink (instancePath (JN port)), None)])
       (console st)).
Proof. intros Hfile. unfold unregisterInstance, unlinkSync. by repeat (run; rewrite ?Hfile). Qed.

Lemma prop_chromePid_none (info : InstanceInfo.t) :
  InstanceInfo.chromePid info = None →
  prop "chromePid" (stringify_InstanceInfo info) = None.
Proof. destruct info as [? ? ? ? ? ? ? [?|] ?]; simpl; by intros ->. Qed.

(** X18: For a port without a record, or with one that holds no JSON or a
    JSON value that counts as false, [stopInstance] reports that no
    instance is registered: it has read the record and done nothing
    else, so no process is probed or signalled.  No other process acts
    meanwhile. *)
Theorem stopInstance_unregistered (port : Z) (st : State) :
  (∀ v, files (world st) !! instancePath (JN port) = Some (Json v) →
        truthy (Some v) = false) →
  ∃ outcome,
    stopInstance env ToNumber port st
    = (Ok (StopResult.mk port false ("No instance registered on port " +:+ pretty port)),
       mkState (world st) (trace st ++ [(ReadFile (instancePath (JN port)), outcome)])
         (console st)).
Proof.
  intros Hfalsy. unfold stopInstance.
  rewrite (bind_Ok _ _ _ _ _ (getInstance_quiet port st)).
  destruct (files (world st) !! instancePath (JN port)) as [[raw|v]|] eqn:Hfile;
    eexists; try reflexivity.
  by rewrite (Hfalsy v eq_refl).
Qed.

Lemma stopInstance_unresponsive_run (port : Z) (st : State) (info : InstanceInfo.t) :
  files (world st) !! instancePath (JN port) = Some (Json (stringify_InstanceInfo info)) →
  alive (world st) (InstanceInfo.pid info) = true →
  InstanceInfo.chromePid info = None →
  let file := instancePath (JN port) in
  let pid := InstanceInfo.pid info in
  let probe := (Kill pid SIG0, None) in
  stopInstance env ToNumber port st
  = (Ok (StopResult.mk port false
           ("Instance on port " +:+ pretty port
            +:+ " may not have fully stopped (server: running, chrome: stopped)")),
     mkState (set_files (delete file (files (world st))) (world st))
       (trace st ++ [(ReadFile file, None); probe; (Kill pid SIGTERM, None)]
                 ++ replicate 26 probe
                 ++ [(Kill pid SIGKILL, None)]
                 ++ replicate 11 probe
                 ++ [(Unlink file, None); probe])
       (console st ++ ["Sending SIGTERM to server PID " +:+ pretty pid +:+ " on port "
                       +:+ pretty port +:+ "...";
                       "Server PID " +:+ pretty pid
                       +:+ " did not exit after 5s, sending SIGKILL..."])).
Proof.
  intros Hfile Halive Hchrome file pid probe. subst file pid probe.
  unfold stopInstance.
  rewrite (bind_Ok _ _ _ _ _ (getInstance_quiet port st)), Hfile.
  change (truthy (Some (stringify_InstanceInfo info))) with true.
  cbn [negb]. cbv zeta.
  rewrite (prop_chromePid_none _ Hchrome), prop_pid_stringify.
  rewrite (bind_Ok _ _ _ _ _ (isProcessRunning_quiet _ _)).
  cbn [world trace console]. rewrite !(kill_outcome_alive _ _ Halive), !Halive. cbn [negb].
  rewrite (bind_Ok _ _ _ _ _ (console_log_run _ _)).
  rewrite (bind_Ok _ _ _ _ _ (sendSignal_quiet _ _ _)).
  cbn [world trace console]. rewrite !(kill_outcome_alive _ _ Halive), ?Halive.
  unfold waitForExit.
  erewrite bind_Ok by (apply waitForExit_check_quiet_alive; exact Halive).
  cbn [world trace console negb when]. rewrite !bind_assoc_run.
  rewrite (bind_Ok _ _ _ _ _ (console_log_run _ _)), ?bind_assoc_run.
  rewrite (bind_Ok _ _ _ _ _ (sendSignal_quiet _ _ _)), ?bind_assoc_run.
  cbn [world trace console]. rewrite !(kill_outcome_alive _ _ Halive), ?Halive.
  erewrite bind_Ok by (apply waitForExit_check_quiet_alive; exact Halive).
  rewrite bind_ret. cbn [truthy when negb]. rewrite bind_ret.
  erewrite bind_Ok by (eapply unregisterInstance_exact; exact Hfile).
  rewrite (bind_Ok _ _ _ _ _ (isProcessRunning_quiet _ _)).
  cbn [world trace console].
  rewrite (kill_outcome_alive (set_files _ _) _ Halive), !alive_set_files, !Halive, bind_ret.
  cbn [negb andb]. unfold mret, M_ret. cbn [ToString ToString_json JN].
  change (Z.to_nat (5000 `div` 200)) with 25%nat.
  change (Z.to_nat (2000 `div` 200)) with 10%nat.
  rewrite <- !app_assoc. reflexivity.
Qed.

(** X19: A server that takes the signals of the caller and is still there
    after SIGTERM and after SIGKILL: with nothing in the record about a
    browser, [stopInstance] sends SIGTERM
    and then SIGKILL to the server, each followed by existence probes
    only, removes the record all the same, and reports failure with the
    server as running.  No other process acts meanwhile. *)
Theorem stopInstance_unresponsive (port : Z) (st : State) (info : InstanceInfo.t) :
  files (world st) !! instancePath (JN port) = Some (Json (stringify_InstanceInfo info)) →
  alive (world st) (InstanceInfo.pid info) = true →
  InstanceInfo.chromePid info = None →
  let file := instancePath (JN port) in
  let pid := InstanceInfo.pid info in
  ∃ st' evs,
    stopInstance env ToNumber port st
    = (Ok (StopResult.mk port false
             ("Instance on port " +:+ pretty port
              +:+ " may not have fully stopped (server: running, chrome: stopped)")), st')
    ∧ trace st' = trace st ++ evs
    ∧ filter (λ ev, is_probe ev = false) evs
      = [(ReadFile file, None); (Kill pid SIGTERM, None); (Kill pid SIGKILL, None);
         (Unlink file, None)]
    ∧ files (world st') = delete file (files (world st))
    ∧ console st' = console st ++ ["Sending SIGTERM to server PID " +:+ pretty pid
                                   +:+ " on port " +:+ pretty port +:+ "...";
                                   "Server PID " +:+ pretty pid
                                   +:+ " did not exit after 5s, sending SIGKILL..."].
Proof.
  intros Hfile Halive Hchrome file pid. subst file pid.
  eexists _, _. split; [by apply stopInstance_unresponsive_run|].
  cbn [trace world console]. split; [reflexivity|]. split; [reflexivity|]. done.
Qed.

(** *** stopAllInstances *)

Lemma orphan_procs (w w' : World) (info : InstanceInfo.t) :
  procs w' = procs w → orphan w' info = orphan w info.
Proof. intros H. unfold orphan, alive. by rewrite H. Qed.

Lemma stopAllInstances_stale_quiet (results : list UntypedStopResult.t)
    (info : InstanceInfo.t) (st : State) :
  ∃ st' evs,
    stopAllInstances_stale env ToNumber results (stringify_InstanceInfo info) st
    = (Ok (results ++ [cleaned_result info]), st')
    ∧ world st' = world st
    ∧ trace st' = trace st ++ evs
    ∧ omap signalled evs = omap (orphan (world st)) [info].
Proof.
  unfold stopAllInstances_stale. rewrite get_not_null by done. rewrite bind_ret.
  rewrite prop_port_stringify, prop_pid_stringify.
  change (ToString (JN ?n)) with (pretty n). fold (cleaned_result info).
  unfold orphan. simpl omap.
  destruct (InstanceInfo.chromePid info) as [child|] eqn:Hchrome.
  - rewrite (prop_chromePid_stringify _ _ Hchrome).
    change (truthy (JN child)) with (negb (child =? 0)).
    destruct (child =? 0); cbn [negb when andb].
    + rewrite bind_ret. eexists _, []. by rewrite app_nil_r.
    + rewrite bind_assoc_run, (bind_Ok _ _ _ _ _ (isProcessRunning_quiet _ _)).
      destruct (alive (world st) child) eqn:Halive; cbn [when].
      * rewrite bind_assoc_run, (bind_Ok _ _ _ _ _ (sendSignal_quiet _ _ _)).
        cbn [world trace console]. rewrite !(kill_outcome_alive _ _ Halive).
        rewrite (bind_Ok _ _ _ _ _ (console_log_run _ _)).
        eexists _, [_; _]. split; [reflexivity|]. cbn [world trace console].
        by rewrite <- app_assoc.
      * rewrite bind_ret. eexists _, [_]. split; [reflexivity|]. done.
  - rewrite (prop_chromePid_none _ Hchrome). cbn [truthy when]. rewrite bind_ret.
    eexists _, []. by rewrite app_nil_r.
Qed.

Lemma omap_cons_app {A B} (f : A → option B) (x : A) (l : list A) :
  omap f (x :: l) = omap f [x] ++ omap f l.
Proof. simpl. by destruct (f x). Qed.

Lemma stopAllInstances_stale_loop (infos : list InstanceInfo.t) :
  ∀ (results : list UntypedStopResult.t) (st : State),
    ∃ st' evs,
      for_of (stringify_InstanceInfo <$> infos) results (stopAllInstances_stale env ToNumber) st
      = (Ok (results ++ (cleaned_result <$> infos)), st')
      ∧ world st' = world st
      ∧ trace st' = trace st ++ evs
      ∧ omap signalled evs = omap (orphan (world st)) infos.
Proof.
  induction infos as [|info infos IH]; intros results st.
  - exists st, []. by rewrite !app_nil_r.
  - rewrite fmap_cons. simpl for_of.
    destruct (stopAllInstances_stale_quiet results info st)
      as (st1 & evs1 & Hrun1 & Hw1 & Htr1 & Hsig1).
    rewrite (bind_Ok _ _ _ _ _ Hrun1).
    destruct (IH (results ++ [cleaned_result info]) st1)
      as (st2 & evs2 & Hrun2 & Hw2 & Htr2 & Hsig2).
    exists st2, (evs1 ++ evs2). rewrite Hrun2, <- app_assoc.
    split; [done|]. split; [congruence|]. split; [by rewrite Htr2, Htr1, app_assoc|].
    rewrite omap_app, Hsig1, Hsig2, Hw1. by rewrite (omap_cons_app _ info infos).
Qed.

Lemma filter_all {A} (P : A → Prop) `{∀ x, Decision (P x)} (l : list A) :
  Forall P l → filter P l = l.
Proof.
  induction 1 as [|x l Hx _ IH]; [done|].
  by rewrite filter_cons, decide_True, IH.
Qed.

Lemma omap_no_signal (evs : list (Call * option Errno)) :
  Forall (λ ev, signalled ev = None) evs → omap signalled evs = [].
Proof. induction 1 as [|ev evs Hev _ IH]; [done|]. simpl. by rewrite Hev. Qed.

(** X22: After a crash, when no registered server is running any more:
    [stopAllInstances] reports every registered record as a cleaned
    stale instance, in increasing order of port; it leaves no record in
    the registry; and the processes it signals are exactly the browsers
    that the records name and that still answer the existence probe,
    one SIGKILL each.
    The registry directory is one that the registry itself maintains,
    and no other process acts meanwhile. *)
Theorem stopAllInstances_after_crash (st : State) :
  registry_wf (world st) →
  (∀ info, registered (world st) info →
           alive (world st) (InstanceInfo.pid info) = false) →
  ∃ infos st' evs,
    stopAllInstances env ToNumber st = (Ok (cleaned_result <$> infos), st')
    ∧ (∀ info, info ∈ infos ↔ registered (world st) info)
    ∧ StronglySorted (λ a b, InstanceInfo.port a < InstanceInfo.port b) infos
    ∧ registry_values (files (world st')) = []
    ∧ trace st' = trace st ++ evs
    ∧ omap signalled evs = omap (orphan (world st)) infos.
Proof.
  intros Hwf Hdead.
  destruct (cleanStaleInstances_quiet st Hwf) as (st1 & Hrun1 & Hfiles1 & Hprocs1).
  destruct (sorted_registry_records _ Hwf) as (infos & Hinfos & Hmem & Hsorted).
  rewrite Hinfos in Hrun1, Hfiles1.
  assert (Hall : filter (λ x, stale_in (world st) x = true)
                   (stringify_InstanceInfo <$> infos)
                 = stringify_InstanceInfo <$> infos).
  { apply filter_all, Forall_fmap, Forall_forall. intros info Hin%Hmem. simpl.
    rewrite stale_in_stringify. by rewrite (Hdead info Hin). }
  rewrite Hall in Hrun1, Hfiles1.
  destruct (cleanStaleInstances_no_signal env ToNumber st)
    as (r1 & st1' & evs1 & Hrun1' & Htr1 & Hevs1).
  rewrite Hrun1 in Hrun1'. injection Hrun1' as <- <-.
  destruct (stopAllInstances_stale_loop infos [] st1)
    as (st2 & evs2 & Hrun2 & Hw2 & Htr2 & Hsig2).
  assert (Hgone : ∀ info, registered (world st) info →
                          files (world st2) !! instancePath (JN (InstanceInfo.port info))
                          = None).
  { intros info Hin%Hmem. rewrite Hw2, Hfiles1, lookup_unregister_all, decide_True; [done|].
    apply list_elem_of_fmap. exists (stringify_InstanceInfo info).
    split; [done|]. by apply list_elem_of_fmap_2. }
  assert (Hempty : registry_values (files (world st2)) = []).
  { apply elem_of_nil_inv. intros v (name & Hends & Hfile)%elem_of_registry_values.
    assert (Hfile0 : files (world st) !! (INSTANCES_DIR, name) = Some (Json v)).
    { rewrite Hw2, Hfiles1 in Hfile. by eapply unregister_all_subset. }
    destruct (Hwf name v Hfile0 Hends) as (info & -> & ->).
    pose proof (Hgone info Hfile0) as Hnone.
    change (files (world st2) !! (INSTANCES_DIR, pretty (InstanceInfo.port info) +:+ ".json")
            = None) in Hnone.
    congruence. }
  destruct (listInstances_quiet st2) as (st3 & Hrun3 & Hw3).
  rewrite Hempty in Hrun3.
  destruct (listInstances_no_signal env st2) as (r3 & st3' & evs3 & Hrun3' & Htr3 & Hevs3).
  rewrite Hrun3 in Hrun3'. injection Hrun3' as <- <-.
  exists infos, st3, (evs1 ++ evs2 ++ evs3).
  split; [|split; [done|split; [done|split; [by rewrite Hw3|split]]]].
  - unfold stopAllInstances.
    rewrite (bind_Ok _ _ _ _ _ Hrun1), (bind_Ok _ _ _ _ _ Hrun2), (bind_Ok _ _ _ _ _ Hrun3).
    reflexivity.
  - by rewrite Htr3, Htr2, Htr1, <- !app_assoc.
  - rewrite !omap_app, (omap_no_signal _ Hevs1), (omap_no_signal _ Hevs3), app_nil_r.
    simpl. rewrite Hsig2. clear -Hprocs1.
    induction infos as [|info infos IH]; [done|].
    rewrite (omap_cons_app _ info infos), (omap_cons_app (orphan (world st)) info infos), IH.
    simpl. by rewrite (orphan_procs _ _ info Hprocs1).
Qed.

(** *** The registry keeps its directory well-formed *)

Lemma shrinks_ret {A} (a : A) : shrinks (mret a).
Proof. by intros st p data. Qed.

Lemma shrinks_throw {A} (e : exn) : shrinks (throw e : M A).
Proof. by intros st p data. Qed.

Lemma shrinks_console_log (line : string) : shrinks (console_log line).
Proof. by intros st p data. Qed.

Lemma shrinks_bind {A B} (m : M A) (f : A → M B) :
  shrinks m → (∀ a, shrinks (f a)) → shrinks (m ≫= f).
Proof.
  intros Hm Hf st p data. unfold mbind, M_bind.
  pose proof (Hm st p data) as Hm'. destruct (m st) as [[a|e] st1]; simpl in *; [|done].
  intros Hfile. apply Hm'. by apply (Hf a st1).
Qed.

Lemma shrinks_try_catch {A} (body : M A) (handler : exn → M A) :
  shrinks body → (∀ e, shrinks (handler e)) → shrinks (try_catch body handler).
Proof.
  intros Hm Hf st p data. unfold try_catch.
  pose proof (Hm st p data) as Hm'. destruct (body st) as [[a|e] st1]; simpl in *; [done|].
  intros Hfile. apply Hm'. by apply (Hf e st1).
Qed.

Lemma shrinks_when (cond : bool) (body : M unit) : shrinks body → shrinks (when cond body).
Proof. destruct cond; [done|]. intros _. apply shrinks_ret. Qed.

Lemma shrinks_for_of {A B} (body : B → A → M B) (xs : list A) :
  (∀ acc x, shrinks (body acc x)) → ∀ acc, shrinks (for_of xs acc body).
Proof.
  intros Hbody. induction xs as [|x xs IH]; intros acc; simpl.
  - apply shrinks_ret.
  - apply shrinks_bind; [apply Hbody | apply IH].
Qed.

Lemma shrinks_syscall {A} (c : Call) (f : World → (Errno + A) * World) :
  (∀ w p data, files (f w).2 !! p = Some data → files w !! p = Some data) →
  shrinks (syscall env c f).
Proof.
  intros Hf st p data. unfold syscall. rewrite quiet.
  pose proof (Hf (world st) p data) as Hf'.
  by destruct (f (world st)) as [[e|a] w].
Qed.

Lemma shrinks_process_kill (pid : jsval) (sig : Signal) : shrinks (process_kill env ToNumber pid sig).
Proof.
  unfold process_kill. destruct (as_pid ToNumber pid) as [n|]; [|apply shrinks_throw].
  apply shrinks_syscall. intros w p data. by destruct (kill_outcome w n).
Qed.

Lemma shrinks_isProcessRunning (pid : jsval) : shrinks (isProcessRunning env ToNumber pid).
Proof.
  unfold isProcessRunning. apply shrinks_try_catch; [|intros; apply shrinks_ret].
  apply shrinks_bind; [apply shrinks_process_kill | intros; apply shrinks_ret].
Qed.

Lemma shrinks_sendSignal (pid : jsval) (sig : Signal) : shrinks (sendSignal env ToNumber pid sig).
Proof.
  unfold sendSignal. apply shrinks_try_catch; [|intros; apply shrinks_ret].
  apply shrinks_bind; [apply shrinks_process_kill | intros; apply shrinks_ret].
Qed.

Lemma shrinks_waitForExit (pid : jsval) (timeoutMs intervalMs : Z) :
  shrinks (waitForExit env ToNumber pid timeoutMs intervalMs).
Proof.
  unfold waitForExit.
  induction (Z.to_nat (timeoutMs / intervalMs)) as [|timers IH]; simpl;
    (apply shrinks_bind; [apply shrinks_isProcessRunning|]);
    intros running; destruct running; simpl; try done; apply shrinks_ret.
Qed.

Lemma shrinks_unregisterInstance (port : jsval) : shrinks (unregisterInstance env port).
Proof.
  unfold unregisterInstance, unlinkSync.
  apply shrinks_try_catch; [|intros; apply shrinks_ret].
  apply shrinks_syscall. intros w p data. destruct (files w !! instancePath port); [|done].
  simpl. intros [_ ?]%lookup_delete_Some. done.
Qed.

Lemma shrinks_readFileSync (p : filepath) : shrinks (readFileSync env p).
Proof.
  unfold readFileSync. apply shrinks_syscall. intros w q data. by destruct (files w !! p).
Qed.

Lemma shrinks_getInstance_untyped (port : jsval) : shrinks (getInstance_untyped env port).
Proof.
  unfold getInstance_untyped. apply shrinks_try_catch; [|intros; apply shrinks_ret].
  apply shrinks_bind; [apply shrinks_readFileSync|].
  intros [raw|v]; [apply shrinks_throw | apply shrinks_ret].
Qed.

Lemma shrinks_getInstance (port : Z) : shrinks (getInstance env port).
Proof. apply (shrinks_getInstance_untyped (JN port)). Qed.

Lemma shrinks_stopInstance_untyped (port : jsval) : shrinks (stopInstance_untyped env ToNumber port).
Proof.
  unfold stopInstance_untyped. cbv zeta.
  apply shrinks_bind; [apply shrinks_getInstance_untyped|]. intros info.
  destruct (negb (truthy (Some info))); [apply shrinks_ret|].
  apply shrinks_bind; [apply shrinks_isProcessRunning|]. intros running.
  destruct (negb running).
  - apply shrinks_bind.
    { apply shrinks_when, shrinks_bind; [apply shrinks_isProcessRunning|]. intros ?.
      apply shrinks_when, shrinks_bind; [apply shrinks_sendSignal|]. intros ?.
      apply shrinks_console_log. }
    intros _. apply shrinks_bind; [apply shrinks_unregisterInstance|]. intros _.
    apply shrinks_ret.
  - apply shrinks_bind; [apply shrinks_console_log|]. intros _.
    apply shrinks_bind; [apply shrinks_sendSignal|]. intros _.
    apply shrinks_bind; [apply shrinks_waitForExit|]. intros exited.
    apply shrinks_bind.
    { apply shrinks_when, shrinks_bind; [apply shrinks_console_log|]. intros _.
      apply shrinks_bind; [apply shrinks_sendSignal|]. intros _.
      apply shrinks_bind; [apply shrinks_waitForExit|]. intros _. apply shrinks_ret. }
    intros _. apply shrinks_bind.
    { apply shrinks_when, shrinks_bind; [apply shrinks_isProcessRunning|]. intros ?.
      apply shrinks_when, shrinks_bind; [apply shrinks_console_log|]. intros _.
      apply shrinks_bind; [apply shrinks_sendSignal|]. intros _.
      apply shrinks_bind; [apply shrinks_waitForExit|]. intros _. apply shrinks_ret. }
    intros _. apply shrinks_bind; [apply shrinks_unregisterInstance|]. intros _.
    apply shrinks_bind; [apply shrinks_isProcessRunning|]. intros serverRunning.
    apply shrinks_bind.
    { destruct (negb _); [apply shrinks_ret|].
      apply shrinks_bind; [apply shrinks_isProcessRunning|]. intros ?. apply shrinks_ret. }
    intros chromeGone. destruct (_ && _); apply shrinks_ret.
Qed.

Ltac shrinks_step :=
  first
    [ apply shrinks_ret
    | apply shrinks_throw
    | apply shrinks_console_log
    | apply shrinks_isProcessRunning
    | apply shrinks_sendSignal
    | apply shrinks_waitForExit
    | apply shrinks_unregisterInstance
    | apply shrinks_getInstance
    | apply shrinks_getInstance_untyped
    | apply shrinks_stopInstance_untyped
    | apply shrinks_readFileSync
    | apply shrinks_when
    | apply shrinks_bind; [|intros ?]
    | apply shrinks_try_catch; [|intros ?]
    | match goal with
      | |- shrinks (if ?b then _ else _) => destruct b
      | |- shrinks (match ?x with _ => _ end) => destruct x
      end ].

Lemma shrinks_stopInstance (port : Z) : shrinks (stopInstance env ToNumber port).
Proof. unfold stopInstance. cbv zeta. repeat shrinks_step. Qed.

Lemma shrinks_listInstances : shrinks (listInstances env).
Proof.
  unfold listInstances, ensureDir, mkdirSync, readdirSync.
  apply shrinks_bind; [by apply shrinks_syscall|]. intros _.
  apply shrinks_bind.
  { apply shrinks_try_catch; [|intros; apply shrinks_ret].
    apply shrinks_bind; [by apply shrinks_syscall | intros; apply shrinks_ret]. }
  intros [names|]; [|apply shrinks_ret].
  apply shrinks_bind.
  - apply shrinks_for_of. intros acc file. unfold listInstances_file, JSON_parse.
    repeat shrinks_step.
  - intros results. unfold sort_by_port. repeat shrinks_step.
Qed.

Lemma shrinks_cleanStaleInstances : shrinks (cleanStaleInstances env ToNumber).
Proof.
  unfold cleanStaleInstances. apply shrinks_bind; [apply shrinks_listInstances|].
  intros all. apply shrinks_for_of. intros acc info.
  unfold cleanStaleInstances_info, get. repeat shrinks_step.
Qed.

Lemma shrinks_stopAllInstances : shrinks (stopAllInstances env ToNumber).
Proof.
  unfold stopAllInstances. apply shrinks_bind; [apply shrinks_cleanStaleInstances|].
  intros stale. apply shrinks_bind.
  { apply shrinks_for_of. intros acc s. unfold stopAllInstances_stale, get.
    repeat shrinks_step. }
  intros results. apply shrinks_bind; [apply shrinks_listInstances|].
  intros live. apply shrinks_for_of. intros acc info.
  unfold stopAllInstances_live, get. repeat shrinks_step.
Qed.

Lemma registry_wf_shrinks {A} (m : M A) (st : State) :
  shrinks m → registry_wf (world st) → registry_wf (world (m st).2).
Proof. intros Hm. apply registry_wf_subset. apply Hm. Qed.

Lemma updateInstanceChromePid_wf (port chromePid : Z) (st : State) :
  registry_wf (world st) →
  registry_wf (world (updateInstanceChromePid env port chromePid st).2).
Proof.
  intros Hwf.
  destruct (files (world st) !! instancePath (JN port)) as [[raw|v]|] eqn:Hfile.
  - unfold updateInstanceChromePid, try_catch.
    rewrite (bind_Ok _ _ _ _ _ (readFileSync_quiet _ _ _ Hfile)). done.
  - destruct (Hwf _ _ Hfile (endsWith_app _ _)) as (info & -> & Hname).
    assert (port = InstanceInfo.port info) as ->.
    { apply instancePath_inj. unfold instancePath. f_equal. exact Hname. }
    destruct (updateInstanceChromePid_run info chromePid st Hfile) as (st' & -> & Hfiles).
    simpl. intros name v Hlookup Hends. rewrite Hfiles in Hlookup.
    destruct (decide ((INSTANCES_DIR, name)
                      = instancePath (JN (InstanceInfo.port info)))) as [Heq|Hne].
    + rewrite Heq, lookup_insert_eq in Hlookup. injection Hlookup as <-.
      exists (with_chromePid info chromePid). split; [done|]. by injection Heq.
    + rewrite lookup_insert_ne in Hlookup by done. by apply Hwf.
  - unfold updateInstanceChromePid, try_catch, readFileSync. run. by rewrite Hfile.
Qed.

(** X23: Whatever calls are made on the registry, in whatever order and
    whether they return or throw, its directory stays as the registry
    itself maintains it: every [.json] file that parses holds a record
    and is named by the port of that record.  No other process acts
    meanwhile. *)
Theorem registry_wf_invariant (calls : list RegistryCall) (st : State) :
  registry_wf (world st) →
  registry_wf (world (foldl (after_call env ToNumber) st calls)).
Proof.
  revert st. induction calls as [|c calls IH]; intros st Hwf; [done|].
  simpl. apply IH. destruct c; simpl.
  - by apply registerInstance_wf.
  - by apply unregisterInstance_wf.
  - by apply updateInstanceChromePid_wf.
  - by apply registry_wf_shrinks; [apply shrinks_getInstance|].
  - by apply registry_wf_shrinks; [apply shrinks_listInstances|].
  - by apply registry_wf_shrinks; [apply shrinks_cleanStaleInstances|].
  - by apply registry_wf_shrinks; [apply shrinks_stopInstance|].
  - by apply registry_wf_shrinks; [apply shrinks_stopAllInstances|].
Qed.
End Quiet.

(** ** Runs under arbitrary interference *)

Section Interference.
Variable env : nat → World → World.
Variable ToNumber : string → option Z.
Variable process_pid : Z.
Variable toISOString : Z → string.

(** The world that the next system call of [st] sees. *)
Abbreviation next st := (env (length (trace st)) (world st)) (only parsing).

Lemma readLock_rereads (profileDir : string) (st : State) :
  ∃ found st' reread,
    readLock env profileDir st = (Ok found, st')
    ∧ trace st' = trace st ++ reread
    ∧ Forall (lock_read profileDir) reread
    ∧ (∀ lock, found = Some lock → holds_lock (world st') profileDir lock).
Proof.
  unfold readLock, existsSync, readFileSync, JSON_parse, get, lock_read, holds_lock.
  unfold mbind, mret, M_bind, M_ret, try_catch, throw, syscall. simpl.
  destruct (bool_decide _); simpl.
  - destruct (files _ !! _) as [[raw|v]|] eqn:Hfile; simpl.
    + eexists None, _, [_; _]. rewrite <- app_assoc.
      repeat split; [by repeat constructor; simpl; auto | done].
    + destruct (is_null v); simpl.
      * eexists None, _, [_; _]. rewrite <- app_assoc.
        repeat split; [by repeat constructor; simpl; auto | done].
      * destruct (as_number (prop "pid" v)) eqn:Hpid,
          (as_number (prop "port" v)) eqn:Hport; simpl;
          eexists _, _, [_; _]; rewrite <- app_assoc;
          (repeat split; [by repeat constructor; simpl; auto | try done]).
        intros lock [= <-]. simpl. by exists v.
    + eexists None, _, [_; _]. rewrite <- app_assoc.
      repeat split; [by repeat constructor; simpl; auto | done].
  - eexists None, _, [_]. repeat split; [by repeat constructor; simpl; auto | done].
Qed.

Lemma isProcessRunning_probes (pid : Z) (st : State) :
  isProcessRunning env ToNumber (JN pid) st
  = (Ok (alive (next st) pid),
     mkState (next st) (trace st ++ [(Kill pid SIG0, kill_outcome (next st) pid)])
       (console st)).
Proof.
  unfold isProcessRunning, process_kill.
  unfold mbind, mret, M_bind, M_ret, try_catch, throw, syscall. simpl.
  unfold kill_outcome. destruct (alive _ pid); [done|].
  by destruct (bool_decide _).
Qed.

Lemma just_locked_message_includes (profileDir : string) (w : LockInfo.t) :
  includes (just_locked_message profileDir w) ("PID " +:+ pretty (LockInfo.pid w))
  ∧ includes (just_locked_message profileDir w) ("port " +:+ pretty (LockInfo.port w)).
Proof.
  unfold just_locked_message, includes. split.
  - eexists ("Profile directory " +:+ dquote +:+ profileDir +:+ dquote
            +:+ " was just locked by "), _.
    string_norm. reflexivity.
  - eexists ("Profile directory " +:+ dquote +:+ profileDir +:+ dquote
            +:+ " was just locked by PID " +:+ pretty (LockInfo.pid w) +:+ " on "), _.
    string_norm. reflexivity.
Qed.

Lemma acquire_enters_recovery (profileDir : string) (port : Z) (st st1 st2 : State)
    (lockData : LockInfo.t) (c : Call) :
  acquire_prepare env ToNumber process_pid toISOString profileDir port st = (Ok lockData, st1) →
  writeFileSync_wx env (lockFilePath profileDir) (Json (stringify_LockInfo lockData)) st1
  = (Throw (ErrnoException EEXIST c), st2) →
  acquireProfileLock env ToNumber process_pid toISOString profileDir port st
  = acquire_after_EEXIST env ToNumber profileDir lockData st2.
Proof.
  intros Hprepare Hcreate. unfold acquireProfileLock.
  unfold mbind at 1. unfold M_bind at 1. rewrite Hprepare.
  unfold try_catch. by rewrite Hcreate.
Qed.

Lemma retry_retried_once (profileDir : string) (lock : FileData) (s : State) :
  retried_once profileDir lock s
    ((removeLock env profileDir ;; writeFileSync_wx env (lockFilePath profileDir) lock) s).
Proof.
  unfold retried_once, removeLock, unlinkSync, writeFileSync_wx.
  unfold mbind, mret, M_bind, M_ret, try_catch, syscall. simpl.
  destruct (files (env (length (trace s)) (world s)) !! lockFilePath profileDir);
    simpl;
    match goal with
    | |- context [files ?w !! lockFilePath profileDir] =>
        destruct (files w !! lockFilePath profileDir) eqn:Hretry
    end; simpl.
  - eexists _, (Some EEXIST). split; [reflexivity|]. split; [by rewrite <- app_assoc|].
    split; [done|]. intros (holder & [Heq | Heq]); discriminate.
  - eexists _, None. split; [reflexivity|]. split; [by rewrite <- app_assoc|].
    simpl. by rewrite lookup_insert_eq.
  - eexists _, (Some EEXIST). split; [reflexivity|]. split; [by rewrite <- app_assoc|].
    split; [done|]. intros (holder & [Heq | Heq]); discriminate.
  - eexists _, None. split; [reflexivity|]. split; [by rewrite <- app_assoc|].
    simpl. by rewrite lookup_insert_eq.
Qed.

(** C3, as the code has it: when the exclusive create of
    [acquireProfileLock] fails with EEXIST, the lock file is looked at
    again and nothing else is done before the re-read is over.  Where
    the re-read gives a record, that record is what the file holds, and
    its pid is probed once: if the probe succeeds, the call throws the
    error that names the pid and the port of that record, and makes no
    further call.  Where the probe fails (the winner is gone, or is a
    process that the caller may not signal), and where the re-read gives
    no record, the file is unlinked and the exclusive create is made
    exactly once more, unguarded: what it gives is what the call gives,
    the lock in place, or the EEXIST error of the create itself, which
    is no conflict error and names no holder. *)
Theorem acquire_lost_race (profileDir : string) (port : Z) (st st1 st2 : State)
    (lockData : LockInfo.t) :
  let path := lockFilePath profileDir in
  let lock := Json (stringify_LockInfo lockData) in
  let run := acquireProfileLock env ToNumber process_pid toISOString profileDir port st in
  acquire_prepare env ToNumber process_pid toISOString profileDir port st = (Ok lockData, st1) →
  writeFileSync_wx env path lock st1
  = (Throw (ErrnoException EEXIST (Create path lock)), st2) →
  ∃ found st3 reread,
    readLock env profileDir st2 = (Ok found, st3)
    ∧ trace st3 = trace st2 ++ reread
    ∧ Forall (lock_read profileDir) reread
    ∧ match found with
      | Some winner =>
          let pid := LockInfo.pid winner in
          let st4 := mkState (next st3)
                       (trace st3 ++ [(Kill pid SIG0, kill_outcome (next st3) pid)])
                       (console st3) in
          holds_lock (world st3) profileDir winner
          ∧ if alive (next st3) pid
            then run = (Throw (Error (just_locked_message profileDir winner)), st4)
                 ∧ includes (just_locked_message profileDir winner)
                            ("PID " +:+ pretty (LockInfo.pid winner))
                 ∧ includes (just_locked_message profileDir winner)
                            ("port " +:+ pretty (LockInfo.port winner))
            else retried_once profileDir lock st4 run
      | None => retried_once profileDir lock st3 run
      end.
Proof.
  intros path lock run Hprepare Hcreate. subst run.
  rewrite (acquire_enters_recovery _ _ _ _ _ _ _ Hprepare Hcreate).
  destruct (readLock_rereads profileDir st2) as (found & st3 & reread & Hread & Htr & Hre & Hholds).
  exists found, st3, reread. split; [exact Hread|]. split; [exact Htr|]. split; [exact Hre|].
  unfold acquire_after_EEXIST. rewrite (bind_Ok _ _ _ _ _ Hread).
  destruct found as [winner|].
  - split; [by apply Hholds|].
    rewrite (bind_Ok _ _ _ _ _ (isProcessRunning_probes _ _)).
    destruct (alive (env (length (trace st3)) (world st3)) (LockInfo.pid winner)).
    + split; [reflexivity | apply just_locked_message_includes].
    + cbn [when]. rewrite bind_ret. apply retry_retried_once.
  - rewrite !bind_ret. apply retry_retried_once.
Qed.

(** C8, at the last port: the pair (65535, 65536) leaves the range
    before any probe, and the error names the range 65535 to 65533 as
    tried. *)
Theorem findAvailablePort_65535 (st : State) :
  findAvailablePort env 65535 None 20 st
  = (Throw (Error "Could not find an available port pair after 20 attempts (tried 65535–65533). Specify an explicit --port."), st).
Proof. reflexivity. Qed.

End Interference.

(** ** What holds whatever the other processes do *)

Section Robustness.
Variable env : nat → World → World.
Variable ToNumber : string → option Z.
Variable process_pid : Z.
Variable toISOString : Z → string.

(** *** port-selection.ts *)

Lemma isPortAvailable_cases (port : Z) (st : State) :
  (valid_port port = false ∧ isPortAvailable env port st = (Throw RangeError, st))
  ∨ (valid_port port = true
     ∧ ∃ (free : bool) outcome st',
         isPortAvailable env port st = (Ok free, st')
         ∧ trace st' = trace st ++ [(Listen port, outcome)]).
Proof.
  unfold isPortAvailable, listen. destruct (valid_port port); [right|left]; split; try done.
  unfold mbind, mret, M_bind, M_ret, try_catch, throw, syscall. simpl.
  destruct (bool_decide _); simpl; eauto.
Qed.

Lemma scan_probes (requestedPort : Z) :
  ∀ (attempts : nat) (candidate : Z) (st : State),
    ∃ calls,
      (trace (scan env requestedPort attempts candidate st).2).*1 = (trace st).*1 ++ calls
      ∧ (length calls ≤ 2 * attempts)%nat
      ∧ Forall (probe_from candidate) calls.
Proof.
  induction attempts as [|attempts IH]; intros candidate st.
  { exists []. by rewrite app_nil_r. }
  rewrite scan_S.
  destruct ((candidate >? 65535) || (candidate + 1 >? 65535)) eqn:Hout.
  { exists []. rewrite app_nil_r. repeat split; [simpl; lia | constructor]. }
  destruct (isPortAvailable_cases candidate st)
    as [[Hv Hrun1]|(Hv & free1 & o1 & st1 & Hrun1 & Htr1)].
  { rewrite (bind_Throw _ _ _ _ _ Hrun1). exists []. rewrite app_nil_r.
    repeat split; [simpl; lia | constructor]. }
  assert (Hv' : valid_port (candidate + 1) = true) by (unfold valid_port in *; lia).
  destruct (isPortAvailable_cases (candidate + 1) st1)
    as [[Hv'' _]|(_ & free2 & o2 & st2 & Hrun2 & Htr2)]; [congruence|].
  rewrite (bind_Ok _ _ _ _ _ Hrun1), (bind_Ok _ _ _ _ _ Hrun2).
  assert (Hhere : Forall (probe_from candidate) [Listen candidate; Listen (candidate + 1)]).
  { repeat constructor; simpl; try done; lia. }
  destruct (free1 && free2).
  - exists [Listen candidate; Listen (candidate + 1)]. simpl.
    rewrite Htr2, Htr1, !fmap_app, <- app_assoc. repeat split; [simpl; lia | done].
  - destruct (IH (candidate + 2) st2) as (calls & Htr & Hlen & Hcalls).
    exists (Listen candidate :: Listen (candidate + 1) :: calls).
    rewrite Htr, Htr2, Htr1, !fmap_app, <- !app_assoc.
    split; [done|]. split; [simpl length; lia|].
    apply (Forall_app _ [_; _]). split; [done|].
    eapply Forall_impl; [exact Hcalls|]. intros [] Hq; try done.
    destruct Hq as [? ?]. split; [lia | done].
Qed.

(** X4: Auto-selection probes only valid ports from the requested one up,
    and no more than two for each attempt it is allowed, whatever the
    other processes do meanwhile and whether it finds a pair or not. *)
Theorem findAvailablePort_probes_bounded (p maxAttempts : Z) (st : State) :
  ∃ calls,
    (trace (findAvailablePort env p None maxAttempts st).2).*1 = (trace st).*1 ++ calls
    ∧ (length calls ≤ 2 * Z.to_nat maxAttempts)%nat
    ∧ Forall (probe_from p) calls.
Proof.
  destruct (scan_probes p (Z.to_nat maxAttempts) p st) as (calls & Htr & Hlen & Hcalls).
  exists calls. split; [|done]. rewrite <- Htr. unfold findAvailablePort, mbind, M_bind.
  by destruct (scan env p (Z.to_nat maxAttempts) p st) as [[[r|c]|e] st'].
Qed.

(** *** profile-lock.ts *)

Lemma readLock_footprint (profileDir : string) :
  safe (λ ev, lock_footprint profileDir ev ∧ inspection ev) (readLock env profileDir).
Proof.
  unfold readLock, existsSync, readFileSync, JSON_parse, get.
  apply safe_bind.
  - intros st. unfold syscall. eexists _, _, [_]. repeat split. by repeat constructor.
  - intros found. destruct found; simpl; [|apply safe_ret].
    apply safe_try_catch; [|intros ?; apply safe_ret].
    footprint.
Qed.

(** X5: [readLock] never throws and only looks, whatever state the lock file
    is in and whatever the other processes do; a record it returns is
    what the lock file holds when it returns. *)
Theorem readLock_never_throws (profileDir : string) (st : State) :
  ∃ found st' evs,
    readLock env profileDir st = (Ok found, st')
    ∧ trace st' = trace st ++ evs
    ∧ Forall inspection evs
    ∧ console st' = console st
    ∧ (∀ lock, found = Some lock →
         ∃ v, files (world st') !! lockFilePath profileDir = Some (Json v)
              ∧ as_number (prop "pid" v) = Some (LockInfo.pid lock)
              ∧ as_number (prop "port" v) = Some (LockInfo.port lock)
              ∧ prop "startedAt" v = LockInfo.startedAt lock).
Proof.
  unfold readLock, existsSync, readFileSync, JSON_parse, get.
  unfold mbind, mret, M_bind, M_ret, try_catch, throw, syscall. simpl.
  destruct (bool_decide _); simpl.
  - destruct (files _ !! _) as [[raw|v]|] eqn:Hfile; simpl.
    + eexists None, _, [_; _]. rewrite <- app_assoc. by repeat split; repeat constructor.
    + destruct (is_null v); simpl.
      * eexists None, _, [_; _]. rewrite <- app_assoc.
        by repeat split; repeat constructor.
      * destruct (as_number (prop "pid" v)) eqn:Hpid,
          (as_number (prop "port" v)) eqn:Hport; simpl;
          eexists _, _, [_; _]; rewrite <- app_assoc;
          (repeat split; [by repeat constructor | try done]).
        intros lock [= <-]. simpl. by exists v.
    + eexists None, _, [_; _]. rewrite <- app_assoc. by repeat split; repeat constructor.
  - eexists None, _, [_]. by repeat split; repeat constructor.
Qed.

Lemma isProcessRunning_footprint (P : Call * option Errno → Prop) (pid : jsval) :
  (∀ n outcome, P (Kill n SIG0, outcome)) → safe P (isProcessRunning env ToNumber pid).
Proof.
  intros HP. unfold isProcessRunning, process_kill.
  apply safe_try_catch; [|intros ?; apply safe_ret].
  destruct (as_pid ToNumber pid); footprint.
Qed.

Lemma removeLock_footprint (profileDir : string) :
  safe (lock_footprint profileDir) (removeLock env profileDir).
Proof. unfold removeLock, unlinkSync. footprint. Qed.

Lemma writeFileSync_wx_footprint (profileDir : string) (data : FileData) :
  contained (lock_footprint profileDir) (writeFileSync_wx env (lockFilePath profileDir) data).
Proof. unfold writeFileSync_wx. footprint. Qed.

(** X6: Whether it returns or throws, and whatever the other processes do,
    [acquireProfileLock] makes no system call outside its profile
    directory: it creates the directory, looks at, unlinks and creates
    the lock file, and probes processes with signal 0 only. *)
Theorem acquireProfileLock_footprint (profileDir : string) (port : Z) :
  contained (lock_footprint profileDir)
    (acquireProfileLock env ToNumber process_pid toISOString profileDir port).
Proof.
  assert (Hread : safe (lock_footprint profileDir) (readLock env profileDir)).
  { eapply safe_weaken; [|apply readLock_footprint]. by intros ? [? _]. }
  assert (Hprobe : ∀ pid, safe (lock_footprint profileDir) (isProcessRunning env ToNumber pid)).
  { intros pid. by apply isProcessRunning_footprint. }
  unfold acquireProfileLock. apply contained_bind.
  - unfold acquire_prepare, mkdirSync, Date_now. apply contained_bind; [footprint|].
    intros _. apply contained_bind; [by apply safe_contained|].
    intros existing. apply contained_bind.
    + destruct existing as [e|]; [|footprint].
      apply contained_bind; [by apply safe_contained|].
      intros running. apply contained_bind; [footprint|].
      intros _. apply contained_bind; [footprint|].
      intros _. apply safe_contained, removeLock_footprint.
    + intros _. apply safe_contained. intros st. eexists _, st, []. by rewrite app_nil_r.
  - intros lockData. apply contained_try_catch; [apply writeFileSync_wx_footprint|].
    intros [msg|code call| | |]; try apply contained_throw.
    destruct code; try apply contained_throw.
    unfold acquire_after_EEXIST. apply contained_bind; [by apply safe_contained|].
    intros winner. apply contained_bind.
    { destruct winner; [by apply safe_contained | footprint]. }
    intros running. apply contained_bind; [destruct winner; footprint|].
    intros _. apply contained_bind; [apply safe_contained, removeLock_footprint|].
    intros _. apply writeFileSync_wx_footprint.
Qed.




(** X8: [removeLock] never throws, and when it returns the lock file is not
    there, whoever held it and whatever the other processes do; it makes
    one unlink and nothing else. *)
Theorem removeLock_removes (profileDir : string) (st : State) :
  ∃ outcome st',
    removeLock env profileDir st = (Ok (), st')
    ∧ trace st' = trace st ++ [(Unlink (lockFilePath profileDir), outcome)]
    ∧ files (world st') !! lockFilePath profileDir = None
    ∧ (∀ p, p ≠ lockFilePath profileDir →
            files (world st') !! p = files (env (length (trace st)) (world st)) !! p).
Proof.
  unfold removeLock, unlinkSync. unfold mret, M_ret, try_catch, syscall. simpl.
  destruct (files _ !! _) eqn:Hfile; simpl; eexists _, _; repeat split; try done.
  - apply lookup_delete_eq.
  - intros p Hp. by apply lookup_delete_ne.
Qed.

(** *** instance-registry.ts *)

Lemma sendSignal_footprint (P : Call * option Errno → Prop) (pid : jsval) (sig : Signal) :
  (∀ n outcome, P (Kill n sig, outcome)) → safe P (sendSignal env ToNumber pid sig).
Proof.
  intros HP. unfold sendSignal, process_kill.
  apply safe_try_catch; [|intros ?; apply safe_ret].
  destruct (as_pid ToNumber pid); footprint.
Qed.

Lemma waitForExit_footprint (P : Call * option Errno → Prop) (pid : jsval)
    (timeoutMs intervalMs : Z) :
  (∀ n outcome, P (Kill n SIG0, outcome)) → safe P (waitForExit env ToNumber pid timeoutMs intervalMs).
Proof.
  intros HP. unfold waitForExit.
  induction (Z.to_nat (timeoutMs / intervalMs)) as [|timers IH]; simpl;
    (apply safe_bind; [by apply isProcessRunning_footprint|]);
    intros running; destruct running; simpl; try done; apply safe_ret.
Qed.

Lemma unregisterInstance_footprint (P : Call * option Errno → Prop) (port : jsval) :
  (∀ outcome, P (Unlink (instancePath port), outcome)) →
  safe P (unregisterInstance env port).
Proof. intros HP. unfold unregisterInstance, unlinkSync. footprint. Qed.

Lemma getInstance_footprint (P : Call * option Errno → Prop) (port : Z) :
  (∀ outcome, P (ReadFile (instancePath (JN port)), outcome)) →
  safe P (getInstance env port).
Proof. intros HP. unfold getInstance, readFileSync, JSON_parse. footprint. Qed.

Ltac stop_step :=
  first
    [ apply isProcessRunning_footprint; done
    | apply sendSignal_footprint; done
    | apply waitForExit_footprint; done
    | apply unregisterInstance_footprint; done
    | apply getInstance_footprint; done
    | footprint_step ].

(** X21: [stopInstance] never throws, whatever the record of the port holds
    and whatever the other processes do; besides signalling processes it
    only reads and unlinks the record of its port, and it writes no file. *)
Theorem stopInstance_never_throws (port : Z) :
  safe (stop_footprint port) (stopInstance env ToNumber port).
Proof. unfold stopInstance. cbv zeta. repeat stop_step. Qed.

(** The world that the next system call of [st] sees. *)
Abbreviation next st := (env (length (trace st)) (world st)) (only parsing).

Lemma isProcessRunning_run (pid : Z) (st : State) :
  isProcessRunning env ToNumber (JN pid) st
  = (Ok (alive (next st) pid),
     mkState (next st)
       (trace st ++ [(Kill pid SIG0, kill_outcome (next st) pid)])
       (console st)).
Proof.
  unfold isProcessRunning, process_kill.
  unfold mbind, mret, M_bind, M_ret, try_catch, throw, syscall. simpl.
  unfold kill_outcome. destruct (alive _ pid); [done|].
  by destruct (bool_decide _).
Qed.

Lemma sendSignal_run (pid : Z) (sig : Signal) (st : State) :
  sendSignal env ToNumber (JN pid) sig st
  = (Ok (alive (next st) pid),
     mkState (next st)
       (trace st ++ [(Kill pid sig, kill_outcome (next st) pid)])
       (console st)).
Proof.
  unfold sendSignal, process_kill.
  unfold mbind, mret, M_bind, M_ret, try_catch, throw, syscall. simpl.
  unfold kill_outcome. destruct (alive _ pid); [done|].
  by destruct (bool_decide _).
Qed.

Lemma getInstance_run (port : Z) (v : json) (st : State) :
  files (next st) !! instancePath (JN port) = Some (Json v) →
  getInstance env port st
  = (Ok v, mkState (next st) (trace st ++ [(ReadFile (instancePath (JN port)), None)])
             (console st)).
Proof.
  intros Hfile. unfold getInstance, readFileSync, JSON_parse.
  unfold mbind, mret, M_bind, M_ret, try_catch, throw, syscall. simpl. by rewrite Hfile.
Qed.

Lemma unregisterInstance_run (port : Z) (st : State) :
  ∃ outcome w,
    unregisterInstance env (JN port) st
    = (Ok (), mkState w (trace st ++ [(Unlink (instancePath (JN port)), outcome)])
                (console st))
    ∧ files w !! instancePath (JN port) = None.
Proof.
  unfold unregisterInstance, unlinkSync.
  unfold mbind, mret, M_bind, M_ret, try_catch, throw, syscall. simpl.
  destruct (files _ !! _) eqn:Hfile; simpl; eexists _, _; (split; [reflexivity|]); simpl.
  - apply lookup_delete_eq.
  - done.
Qed.

Lemma waitForExit_run_exited (pid : Z) (timeoutMs intervalMs : Z) (st : State) :
  alive (next st) pid = false →
  waitForExit env ToNumber (JN pid) timeoutMs intervalMs st
  = (Ok true,
     mkState (next st) (trace st ++ [(Kill pid SIG0, kill_outcome (next st) pid)])
       (console st)).
Proof.
  intros Hdead. unfold waitForExit.
  destruct (Z.to_nat (timeoutMs / intervalMs)); simpl;
    by rewrite (bind_Ok _ _ _ _ _ (isProcessRunning_run pid st)), Hdead.
Qed.

(** X20: A server that exits on SIGTERM, and its browser with it: when the
    record of the port names a server that answers the existence probe,
    and from the first probe after the SIGTERM on neither the server nor
    the recorded browser is there, [stopInstance] reports success, has
    removed the record, and has sent no SIGKILL. *)
Theorem stopInstance_graceful (port : Z) (st : State) (info : InstanceInfo.t) :
  let n0 := length (trace st) in
  let pid := InstanceInfo.pid info in
  (∀ n w, files (env n w) = files w) →
  (∀ n w, (n < n0 + 3)%nat → procs (env n w) = procs w) →
  (∀ n w, (n0 + 3 ≤ n)%nat → alive (env n w) pid = false) →
  (∀ child n w, InstanceInfo.chromePid info = Some child →
                (n0 + 3 ≤ n)%nat → alive (env n w) child = false) →
  files (world st) !! instancePath (JN port) = Some (Json (stringify_InstanceInfo info)) →
  alive (world st) pid = true →
  ∃ st' evs,
    stopInstance env ToNumber port st
    = (Ok (StopResult.mk port true
             ("Instance on port " +:+ pretty port +:+ " stopped successfully")), st')
    ∧ trace st' = trace st ++ evs
    ∧ files (world st') !! instancePath (JN port) = None
    ∧ Forall (λ ev, ∀ p, ev.1 ≠ Kill p SIGKILL) evs
    ∧ console st' = console st ++ ["Sending SIGTERM to server PID " +:+ pretty pid
                                   +:+ " on port " +:+ pretty port +:+ "..."].
Proof.
  intros n0 pid Hfiles Hbefore Hexit Hchrome Hfile Halive.
  assert (Hstill : ∀ n w, (n < n0 + 3)%nat → alive (env n w) pid = alive w pid).
  { intros n w Hn. unfold alive. by rewrite Hbefore. }
  unfold stopInstance.
  erewrite bind_Ok by (apply getInstance_run; by rewrite Hfiles).
  change (truthy (Some (stringify_InstanceInfo info))) with true.
  cbn [negb]. cbv zeta. rewrite prop_pid_stringify. fold pid.
  rewrite (bind_Ok _ _ _ _ _ (isProcessRunning_run _ _)).
  cbn [world trace console]. rewrite length_app. cbn [length]. fold n0.
  rewrite !Hstill, Halive by lia. cbn [negb].
  rewrite (bind_Ok _ _ _ _ _ (console_log_run _ _)).
  rewrite (bind_Ok _ _ _ _ _ (sendSignal_run _ _ _)).
  cbn [world trace console]. rewrite !length_app. cbn [length]. fold n0.
  erewrite bind_Ok by (apply waitForExit_run_exited; apply Hexit;
                       cbn [trace]; rewrite !length_app; cbn [length]; lia).
  cbn [world trace console negb when]. rewrite bind_ret.
  rewrite !length_app. cbn [length]. fold n0.
  set (cp := prop "chromePid" (stringify_InstanceInfo info)).
  assert (Hcp : truthy cp = false
                ∨ ∃ child, InstanceInfo.chromePid info = Some child
                           ∧ cp = JN child ∧ truthy cp = true).
  { subst cp. destruct (InstanceInfo.chromePid info) as [child|] eqn:Hc.
    - rewrite (prop_chromePid_stringify _ _ Hc).
      destruct (truthy (JN child)) eqn:?; eauto.
    - rewrite (prop_chromePid_none _ Hc). by left. }
  destruct Hcp as [Hfalsy | (child & Hc & Hcp & Htruthy)].
  - rewrite Hfalsy. cbn [when negb]. rewrite bind_ret.
    match goal with
    | |- context [(unregisterInstance env (JN port) ≫= _) ?s] =>
        destruct (unregisterInstance_run port s) as (outcome & w & Hun & Hnone)
    end.
    rewrite (bind_Ok _ _ _ _ _ Hun).
    rewrite (bind_Ok _ _ _ _ _ (isProcessRunning_run _ _)).
    rewrite !Hexit by (cbn [trace]; rewrite !length_app; cbn [length]; lia).
    rewrite bind_ret. cbn [negb andb].
    eexists _, _. split; [reflexivity|]. cbn [trace world console].
    split; [rewrite <- !app_assoc; reflexivity|].
    split; [by rewrite Hfiles|].
    split; [|done]. repeat constructor; by intros p.
  - rewrite Htruthy, Hcp. cbn [when negb].
    assert (Hgone : ∀ n w, (n0 + 3 ≤ n)%nat → alive (env n w) child = false)
      by (intros n w; by apply Hchrome).
    rewrite bind_assoc_run.
    rewrite (bind_Ok _ _ _ _ _ (isProcessRunning_run _ _)).
    rewrite !Hgone by (cbn [trace]; rewrite !length_app; cbn [length]; lia).
    cbn [when]. rewrite bind_ret.
    match goal with
    | |- context [(unregisterInstance env (JN port) ≫= _) ?s] =>
        destruct (unregisterInstance_run port s) as (outcome & w & Hun & Hnone)
    end.
    rewrite (bind_Ok _ _ _ _ _ Hun).
    rewrite (bind_Ok _ _ _ _ _ (isProcessRunning_run _ _)).
    rewrite !Hexit by (cbn [trace]; rewrite !length_app; cbn [length]; lia).
    rewrite bind_assoc_run.
    rewrite (bind_Ok _ _ _ _ _ (isProcessRunning_run _ _)).
    rewrite !Hgone by (cbn [trace]; rewrite !length_app; cbn [length]; lia).
    rewrite bind_ret. cbn [negb andb].
    eexists _, _. split; [reflexivity|]. cbn [trace world console].
    split; [rewrite <- !app_assoc; reflexivity|].
    split; [by rewrite !Hfiles|].
    split; [|done]. repeat constructor; by intros p.
Qed.

End Robustness.

(** ** cookies.ts *)

Lemma Result_bind_Ok {A B} (r : Result A) (f : A → Result B) (b : B) :
  r ≫= f = Ok b ↔ ∃ a, r = Ok a ∧ f a = Ok b.
Proof.
  destruct r as [a|e]; simpl; split; try done.
  - eauto.
  - by intros (a' & [= <-] & ?).
  - by intros (a' & [=] & ?).
Qed.

Lemma as_SameSite_name (x : jsval) (s : SameSite) :
  as_SameSite x = Some s ↔ x = Some (JStr (SameSite_name s)).
Proof.
  split.
  - destruct x as [[| | |str| |]|]; try done. unfold as_SameSite. simpl.
    destruct (String.eqb_spec str "Strict") as [->|_]; [by intros [= <-]|].
    destruct (String.eqb_spec str "Lax") as [->|_]; [by intros [= <-]|].
    destruct (String.eqb_spec str "None") as [->|_]; [by intros [= <-]|done].
  - intros ->. by destruct s.
Qed.

Lemma optional_field_Ok {A} (read : jsval → option A) (write : A → json) (x : jsval)
    (error : exn) (o : option A) :
  (∀ y a, read y = Some a ↔ y = Some (write a)) →
  optional_field read x error = Ok o ↔ x = write <$> o.
Proof.
  intros Hread. unfold optional_field. destruct x as [v|].
  - destruct (read (Some v)) as [a|] eqn:Hv.
    + apply Hread in Hv as [= ->]. split.
      * by intros [= <-].
      * destruct o as [a'|]; [|done]. intros [= Heq].
        assert (Ha : read (Some (write a)) = Some a') by (apply Hread; by rewrite Heq).
        assert (Ha' : read (Some (write a)) = Some a) by by apply Hread.
        congruence.
    + split; [done|]. destruct o as [a|]; [|done]. intros [= ->].
      assert (read (Some (write a)) = Some a) by by apply Hread. congruence.
  - split; [by intros [= <-]|]. by destruct o.
Qed.

Lemma as_string_JStr (y : jsval) (s : string) : as_string y = Some s ↔ y = Some (JStr s).
Proof. destruct y as [[]|]; simpl; split; congruence. Qed.

Lemma as_number_JNum (y : jsval) (n : Z) : as_number y = Some n ↔ y = Some (JNum n).
Proof. destruct y as [[]|]; simpl; split; congruence. Qed.

Lemma as_boolean_JBool (y : jsval) (b : bool) : as_boolean y = Some b ↔ y = Some (JBool b).
Proof. destruct y as [[]|]; simpl; split; congruence. Qed.

(** X24: [validateJsonCookie] returns a cookie exactly for an item whose
    [name] and [domain] are non-empty strings, whose [value] is a
    string, and whose optional properties are either undefined or of
    their declared type; the cookie has each of these properties as the
    item has it, and nothing else of the item.  The index plays no part
    in it. *)
Theorem validateJsonCookie_accepts_iff (item : json) (index : Z) (c : CookieParam.t) :
  validateJsonCookie item index = Ok c
  ↔ CookieParam.name c ≠ ""
    ∧ CookieParam.domain c ≠ ""
    ∧ prop "name" item = Some (JStr (CookieParam.name c))
    ∧ prop "value" item = Some (JStr (CookieParam.value c))
    ∧ prop "domain" item = Some (JStr (CookieParam.domain c))
    ∧ prop "path" item = JStr <$> CookieParam.path c
    ∧ prop "expires" item = JNum <$> CookieParam.expires c
    ∧ prop "httpOnly" item = JBool <$> CookieParam.httpOnly c
    ∧ prop "secure" item = JBool <$> CookieParam.secure c
    ∧ prop "sameSite" item = (λ s, JStr (SameSite_name s)) <$> CookieParam.sameSite c.
Proof.
  unfold validateJsonCookie.
  destruct (negb (String.eqb (typeof item) "object") || is_null item) eqn:Hobj.
  { split; [done|]. intros (_ & _ & Hname & _). by destruct item. }
  destruct c as [name value domain path expires httpOnly secure sameSite]. simpl.
  split.
  - destruct (as_string (prop "name" item)) as [name'|] eqn:Hname; [|done].
    apply as_string_JStr in Hname.
    destruct name' as [|x name']; [done|].
    destruct (as_string (prop "value" item)) as [value'|] eqn:Hvalue; [|done].
    apply as_string_JStr in Hvalue.
    destruct (as_string (prop "domain" item)) as [domain'|] eqn:Hdomain; [|done].
    apply as_string_JStr in Hdomain.
    destruct domain' as [|y domain']; [done|].
    intros (path' & Hpath & Hrun)%Result_bind_Ok.
    apply Result_bind_Ok in Hrun as (expires' & Hexpires & Hrun).
    apply Result_bind_Ok in Hrun as (httpOnly' & HhttpOnly & Hrun).
    apply Result_bind_Ok in Hrun as (secure' & Hsecure & Hrun).
    apply Result_bind_Ok in Hrun as (sameSite' & HsameSite & Hrun).
    injection Hrun as <- <- <- <- <- <- <- <-.
    apply (optional_field_Ok _ JStr) in Hpath; [|apply as_string_JStr].
    apply (optional_field_Ok _ JNum) in Hexpires; [|apply as_number_JNum].
    apply (optional_field_Ok _ JBool) in HhttpOnly; [|apply as_boolean_JBool].
    apply (optional_field_Ok _ JBool) in Hsecure; [|apply as_boolean_JBool].
    apply (optional_field_Ok _ (λ s, JStr (SameSite_name s))) in HsameSite;
      [|apply as_SameSite_name].
    done.
  - intros (Hname' & Hdomain' & -> & -> & -> & Hpath & Hexpires & HhttpOnly & Hsecure
            & HsameSite).
    simpl. destruct name as [|x name]; [done|]. destruct domain as [|y domain]; [done|].
    apply (optional_field_Ok as_string JStr _ (CookieParseError
             ("Cookie '" +:+ String x name +:+ "' has invalid 'path'. Must be a string.")))
      in Hpath; [|apply as_string_JStr].
    rewrite Hpath. simpl.
    erewrite (proj2 (optional_field_Ok as_number JNum _ _ _ as_number_JNum) Hexpires).
    simpl.
    erewrite (proj2 (optional_field_Ok as_boolean JBool _ _ _ as_boolean_JBool) HhttpOnly).
    simpl.
    erewrite (proj2 (optional_field_Ok as_boolean JBool _ _ _ as_boolean_JBool) Hsecure).
    simpl.
    erewrite (proj2 (optional_field_Ok as_SameSite _ _ _ _ as_SameSite_name) HsameSite).
    done.
Qed.

Lemma validate_items_Ok (items : list json) :
  ∀ (index : Z) (cookies : list CookieParam.t),
    validate_items items index = Ok cookies
    ↔ length cookies = length items
      ∧ ∀ (i : nat) item, items !! i = Some item →
          ∃ c, cookies !! i = Some c
               ∧ validateJsonCookie item (index + Z.of_nat i) = Ok c.
Proof.
  induction items as [|item items IH]; intros index cookies; simpl.
  - split.
    + intros [= <-]. split; [done|]. intros i item Hi. by rewrite lookup_nil in Hi.
    + intros [Hlen _]. by destruct cookies.
  - rewrite Result_bind_Ok. split.
    + intros (c & Hc & (cs & Hcs & [= <-])%Result_bind_Ok).
      apply IH in Hcs as [Hlen Hcs]. split; [simpl; by rewrite Hlen|].
      intros [|i] item' Hi; simpl in Hi.
      * injection Hi as <-. exists c. by rewrite Z.add_0_r.
      * destruct (Hcs i item' Hi) as (c' & Hc' & Hrun). exists c'. split; [done|].
        by replace (index + Z.of_nat (S i)) with (index + 1 + Z.of_nat i) by lia.
    + intros [Hlen Hall]. destruct cookies as [|c cs]; [done|].
      exists c. split.
      * destruct (Hall 0%nat item eq_refl) as (c' & [= <-] & Hrun).
        by rewrite Z.add_0_r in Hrun.
      * apply Result_bind_Ok. exists cs. split; [|done]. apply IH.
        split; [simpl in Hlen; lia|]. intros i item' Hi.
        destruct (Hall (S i) item' Hi) as (c' & Hc' & Hrun). exists c'. split; [done|].
        by replace (index + 1 + Z.of_nat i) with (index + Z.of_nat (S i)) by lia.
Qed.

Lemma validate_items_Throw (items : list json) :
  ∀ (index : Z) (e : exn),
    validate_items items index = Throw e →
    ∃ (i : nat) item,
      items !! i = Some item
      ∧ validateJsonCookie item (index + Z.of_nat i) = Throw e
      ∧ ∀ (j : nat) item', (j < i)%nat → items !! j = Some item' →
          ∃ c, validateJsonCookie item' (index + Z.of_nat j) = Ok c.
Proof.
  induction items as [|item items IH]; intros index e; simpl; [done|].
  destruct (validateJsonCookie item index) as [c|e'] eqn:Hfirst; simpl.
  - destruct (validate_items items (index + 1)) as [cs|e'] eqn:Hrest; simpl; [done|].
    intros [= ->]. destruct (IH _ _ Hrest) as (i & item' & Hi & Hrun & Hbefore).
    exists (S i), item'. split; [done|].
    split; [by replace (index + Z.of_nat (S i)) with (index + 1 + Z.of_nat i) by lia|].
    intros [|j] item'' Hj Hlookup; simpl in Hlookup.
    + injection Hlookup as <-. exists c. by rewrite Z.add_0_r.
    + destruct (Hbefore j item'' ltac:(lia) Hlookup) as [c' Hc']. exists c'.
      by replace (index + Z.of_nat (S j)) with (index + 1 + Z.of_nat j) by lia.
  - intros [= ->]. exists 0%nat, item. split; [done|].
    split; [by rewrite Z.add_0_r|]. intros j ? Hj. lia.
Qed.

(** X25: [parseJsonCookies] on input that is JSON takes an array as the list
    of items and anything else as one item.  It returns cookies exactly
    when there is an item and [validateJsonCookie] accepts every item
    under its position, and then the cookies are the validated items in
    order; otherwise it throws for the empty array, or else what
    [validateJsonCookie] throws for the first item it refuses. *)
Theorem parseJsonCookies_itemwise (excerpt : string → string) (parsed : json) :
  let items := match parsed with JArr items => items | _ => [parsed] end in
  (∀ cookies,
     parseJsonCookies excerpt (Json parsed) = Ok cookies
     ↔ items ≠ []
       ∧ length cookies = length items
       ∧ ∀ (i : nat) item, items !! i = Some item →
           ∃ c, cookies !! i = Some c ∧ validateJsonCookie item (Z.of_nat i) = Ok c)
  ∧ (∀ e,
       parseJsonCookies excerpt (Json parsed) = Throw e →
       (items = [] ∧ e = CookieParseError "JSON cookie array is empty.")
       ∨ ∃ (i : nat) item,
           items !! i = Some item
           ∧ validateJsonCookie item (Z.of_nat i) = Throw e
           ∧ ∀ (j : nat) item', (j < i)%nat → items !! j = Some item' →
               ∃ c, validateJsonCookie item' (Z.of_nat j) = Ok c).
Proof.
  intros items. unfold parseJsonCookies. fold items.
  destruct items as [|item rest] eqn:Hitems.
  - split; [|intros e [= <-]; by left]. intros cookies. split; [done|]. by intros [? _].
  - change (length (item :: rest) =? 0)%nat with false. cbv iota. split.
    + intros cookies. rewrite validate_items_Ok. split.
      * intros [Hlen Hall]. split; [done|]. split; [done|]. exact Hall.
      * intros (_ & Hlen & Hall). split; [done|]. exact Hall.
    + intros e Hthrow. right. by apply validate_items_Throw in Hthrow.
Qed.

(** *** parseAllCookies *)

Lemma Map_set_keys {V} (k : string) (v : V) (m : list (string * V)) :
  (Map_set k v m).*1 = if decide (k ∈ m.*1) then m.*1 else m.*1 ++ [k].
Proof.
  induction m as [|[k' v'] m IH]; [done|].
  change (Map_set k v ((k', v') :: m))
    with (if String.eqb k k' then (k', v) :: m else (k', v') :: Map_set k v m).
  destruct (String.eqb_spec k k') as [->|Hne].
  - rewrite !fmap_cons. cbn [fst]. rewrite decide_True by left. done.
  - rewrite !fmap_cons, IH. cbn [fst]. destruct (decide (k ∈ m.*1)) as [Hin|Hnotin].
    + rewrite decide_True by by right. done.
    + rewrite decide_False; [done|]. by intros [?|?]%elem_of_cons.
Qed.

Lemma elem_of_Map_set {V} (k0 : string) (v0 : V) (m : list (string * V)) (k : string)
    (v : V) :
  NoDup m.*1 →
  (k, v) ∈ Map_set k0 v0 m ↔ (k = k0 ∧ v = v0) ∨ (k ≠ k0 ∧ (k, v) ∈ m).
Proof.
  induction m as [|[k' v'] m IH].
  - intros _. change (Map_set k0 v0 []) with [(k0, v0)].
    rewrite list_elem_of_singleton. split.
    + intros [= -> ->]. by left.
    + intros [[-> ->]|[_ ?%elem_of_nil]]; done.
  - rewrite fmap_cons. intros [Hk' Hm]%NoDup_cons. cbn [fst] in Hk'.
    change (Map_set k0 v0 ((k', v') :: m))
      with (if String.eqb k0 k' then (k', v0) :: m else (k', v') :: Map_set k0 v0 m).
    destruct (String.eqb_spec k0 k') as [->|Hne].
    + rewrite !elem_of_cons. split.
      * intros [[= -> ->]|Hin]; [by left|]. right. split; [|by right].
        intros ->. apply Hk'. by apply (list_elem_of_fmap_2 fst) in Hin.
      * intros [[-> ->]|[Hk [[= ? ?]|Hin]]]; [by left | done | by right].
    + rewrite !elem_of_cons, (IH Hm). split.
      * intros [[= -> ->]|[[-> ->]|[Hk Hin]]]; [right|by left|right]; split;
          try done; [by left | by right].
      * intros [[-> ->]|[Hk [[= -> ->]|Hin]]]; [right; by left | by left |].
        right. right. done.
Qed.

Lemma last_with_key_snoc (cookies : list CookieParam.t) (c0 c : CookieParam.t) :
  last_with_key (cookies ++ [c0]) c
  ↔ c = c0 ∨ (cookie_key c ≠ cookie_key c0 ∧ last_with_key cookies c).
Proof.
  unfold last_with_key. split.
  - intros (before & after & Heq & Hnotin).
    destruct (decide (after = [])) as [->|Hafter].
    + apply app_inj_tail in Heq as [_ ->]. by left.
    + destruct (exists_last Hafter) as (after' & c1 & ->).
      change (before ++ c :: after' ++ [c1]) with (before ++ (c :: after') ++ [c1]) in Heq.
      rewrite app_assoc in Heq. apply app_inj_tail in Heq as [-> ->].
      rewrite fmap_app, elem_of_app in Hnotin.
      change (cookie_key <$> [c1]) with [cookie_key c1] in Hnotin.
      rewrite list_elem_of_singleton in Hnotin. right. split.
      * intros Hkey. apply Hnotin. by right.
      * exists before, after'. split; [done|]. intros Hin. apply Hnotin. by left.
  - intros [->|(Hne & before & after & -> & Hnotin)].
    + exists cookies, []. split; [done|]. apply not_elem_of_nil.
    + exists before, (after ++ [c0]). split; [by rewrite <- app_assoc|].
      rewrite fmap_app, elem_of_app. change (cookie_key <$> [c0]) with [cookie_key c0].
      rewrite list_elem_of_singleton. by intros [?|?].
Qed.

Lemma merged_entries (cookies : list CookieParam.t) :
  let entries := foldl (λ cookieMap cookie, Map_set (cookie_key cookie) cookie cookieMap)
                   [] cookies in
  NoDup entries.*1
  ∧ ∀ k c, (k, c) ∈ entries ↔ k = cookie_key c ∧ last_with_key cookies c.
Proof.
  induction cookies as [|c0 cookies IH] using rev_ind; simpl.
  - split; [constructor|]. intros k c. split; [by intros ?%elem_of_nil|].
    intros (_ & before & after & Heq & _). by destruct before.
  - rewrite foldl_app. simpl. destruct IH as [Hnodup Hmem]. split.
    + rewrite Map_set_keys. destruct (decide _); [done|].
      apply NoDup_app. split; [done|]. split; [|apply NoDup_singleton].
      intros k Hin ->%list_elem_of_singleton. done.
    + intros k c. rewrite (elem_of_Map_set _ _ _ _ _ Hnodup), Hmem, last_with_key_snoc.
      split.
      * intros [[-> ->]|(Hne & -> & Hlast)]; [split; [done | by left]|].
        split; [done|]. right. done.
      * intros [-> [->|[Hne Hlast]]]; [by left|]. right. done.
Qed.

Lemma Map_keys_first_occurrences (keys : list string) :
  ∀ seen : list string,
    foldl (λ seen k, if decide (k ∈ seen) then seen else seen ++ [k]) seen keys
    = seen ++ filter (λ k, k ∉ seen) (first_occurrences keys).
Proof.
  induction keys as [|k keys IH]; intros seen; simpl.
  - by rewrite app_nil_r.
  - rewrite IH. destruct (decide (k ∈ seen)) as [Hin|Hnotin].
    + rewrite filter_cons, decide_False by (by intros ?). f_equal.
      rewrite list_filter_filter. apply list_filter_iff. intros k'. split; [|by intros []].
      intros Hk'. split; [done|]. by intros ->.
    + rewrite filter_cons, decide_True by done. rewrite <- app_assoc. simpl. do 2 f_equal.
      rewrite list_filter_filter. apply list_filter_iff. intros k'.
      rewrite elem_of_app, list_elem_of_singleton. tauto.
Qed.

Lemma merged_keys (cookies : list CookieParam.t) :
  (foldl (λ cookieMap cookie, Map_set (cookie_key cookie) cookie cookieMap) [] cookies).*1
  = first_occurrences (cookie_key <$> cookies).
Proof.
  assert (Hfold : ∀ entries : list (string * CookieParam.t),
            (foldl (λ cookieMap cookie, Map_set (cookie_key cookie) cookie cookieMap)
               entries cookies).*1
            = foldl (λ seen k, if decide (k ∈ seen) then seen else seen ++ [k])
                entries.*1 (cookie_key <$> cookies)).
  { induction cookies as [|c cookies IH]; intros entries; simpl; [done|].
    by rewrite IH, Map_set_keys. }
  rewrite Hfold, Map_keys_first_occurrences. simpl.
  apply filter_all, Forall_forall. intros k _. apply not_elem_of_nil.
Qed.

Lemma for_of_pure {A B} (xs : list A) (f : B → A → B) (acc : B) (st : State) :
  for_of xs acc (λ acc x, mret (f acc x)) st = (Ok (foldl f acc xs), st).
Proof.
  revert acc. induction xs as [|x xs IH]; intros acc; simpl; [done|].
  rewrite bind_ret. apply IH.
Qed.

Section AllCookies.
Variable parseCookieArg : string → M (list CookieParam.t).

Lemma parseAllCookies_loop (cookieArgs : list string) :
  ∀ (cookies : list CookieParam.t) (st : State),
    for_of cookieArgs
      (foldl (λ cookieMap cookie, Map_set (cookie_key cookie) cookie cookieMap) [] cookies)
      (λ cookieMap arg,
         parsed ← parseCookieArg arg;
         for_of parsed cookieMap
           (λ cookieMap cookie, mret (Map_set (cookie_key cookie) cookie cookieMap))) st
    = map_result
        (foldl (λ cookieMap cookie, Map_set (cookie_key cookie) cookie cookieMap) [])
        (for_of cookieArgs cookies
           (λ cookies arg, parsed ← parseCookieArg arg; mret (cookies ++ parsed)) st).
Proof.
  induction cookieArgs as [|arg cookieArgs IH]; intros cookies st; simpl; [done|].
  rewrite !bind_assoc_run.
  destruct (parseCookieArg arg st) as [[parsed|e] st1] eqn:Hparse.
  - rewrite !(bind_Ok _ _ _ _ _ Hparse), bind_ret.
    rewrite (bind_Ok _ _ _ _ _ (for_of_pure _ _ _ _)), <- foldl_app. apply IH.
  - by rewrite !(bind_Throw _ _ _ _ _ Hparse).
Qed.

(** X26: [parseAllCookies] parses its arguments in order and stops at the
    first that throws; when all have parsed, it returns of the parsed
    cookies exactly those that are the last with their key
    [name::domain], one for each key, in the order in which the keys
    first occurred. *)
Theorem parseAllCookies_last_wins (cookieArgs : list string) (st : State) :
  match parsed_cookies parseCookieArg cookieArgs st with
  | (Ok cookies, st') =>
      ∃ result,
        parseAllCookies parseCookieArg cookieArgs st = (Ok result, st')
        ∧ (∀ c, c ∈ result ↔ last_with_key cookies c)
        ∧ cookie_key <$> result = first_occurrences (cookie_key <$> cookies)
        ∧ NoDup (cookie_key <$> result)
  | (Throw e, st') => parseAllCookies parseCookieArg cookieArgs st = (Throw e, st')
  end.
Proof.
  unfold parseAllCookies, parsed_cookies.
  pose proof (parseAllCookies_loop cookieArgs [] st) as Hloop. simpl in Hloop.
  destruct (for_of cookieArgs []
              (λ cookies arg, parsed ← parseCookieArg arg; mret (cookies ++ parsed)) st)
    as [[cookies|e] st'] eqn:Hparsed.
  - simpl in Hloop. rewrite (bind_Ok _ _ _ _ _ Hloop).
    destruct (merged_entries cookies) as [Hnodup Hmem].
    eexists. split; [reflexivity|].
    set (entries := foldl _ [] cookies) in *.
    assert (Hkeys : cookie_key <$> entries.*2 = entries.*1).
    { rewrite <- list_fmap_compose. apply list_fmap_ext. intros i [k c] Hi. simpl.
      apply list_elem_of_lookup_2 in Hi. by apply Hmem in Hi as [-> _]. }
    split; [|split; [by rewrite Hkeys; apply merged_keys | by rewrite Hkeys]].
    intros c. rewrite list_elem_of_fmap. split.
    + intros ([k c'] & -> & Hin). by apply Hmem in Hin as [_ ?].
    + intros Hlast. exists (cookie_key c, c). split; [done|]. by apply Hmem.
  - simpl in Hloop. by rewrite (bind_Throw _ _ _ _ _ Hloop).
Qed.

End AllCookies.

(** *** cookieSummary *)

(** X27: the summary shows names and domains only: two lists of cookies
    that agree on these, one by one, have the same summary, whatever
    their values, paths, expiry times and flags are. *)
Theorem cookieSummary_hides_values (cookies cookies' : list CookieParam.t) :
  shown <$> cookies = shown <$> cookies' →
  cookieSummary cookies = cookieSummary cookies'.
Proof.
  intros Hshown. unfold cookieSummary.
  assert (Hlength : length cookies = length cookies').
  { by rewrite <- (length_fmap shown cookies), Hshown, length_fmap. }
  assert (Hdomains : CookieParam.domain <$> cookies = CookieParam.domain <$> cookies').
  { change CookieParam.domain with (snd ∘ shown).
    by rewrite !(list_fmap_compose shown snd), Hshown. }
  assert (Hlines : (λ cookie, "  - " +:+ CookieParam.name cookie
                              +:+ " (" +:+ CookieParam.domain cookie +:+ ")") <$> cookies
                   = (λ cookie, "  - " +:+ CookieParam.name cookie
                                +:+ " (" +:+ CookieParam.domain cookie +:+ ")") <$> cookies').
  { change (λ cookie, "  - " +:+ CookieParam.name cookie
                      +:+ " (" +:+ CookieParam.domain cookie +:+ ")")
      with ((λ nd : string * string, "  - " +:+ nd.1 +:+ " (" +:+ nd.2 +:+ ")") ∘ shown).
    by rewrite !(list_fmap_compose shown), Hshown. }
  by rewrite Hlength, Hdomains, Hlines.
Qed.

(** ** The theorems at sample inputs *)

Lemma no_interference_quiet : ∀ (n : nat) (w : World), no_interference n w = w.
Proof. reflexivity. Qed.

Lemma formatUptime_renders_elapsed_witness :
  (formatUptime sample_getTime "2026-01-01T00:00:00.000Z"
     (mkState (mkWorld ∅ ∅ ∅ ∅ (1767225600000 + 27 * 3600 * 1000)) [] [])).1
  = Ok "1d 3h".
Proof.
  pose proof (formatUptime_renders_elapsed sample_getTime
                "2026-01-01T00:00:00.000Z" 1767225600000
                (mkState (mkWorld ∅ ∅ ∅ ∅ (1767225600000 + 27 * 3600 * 1000)) [] [])
                eq_refl) as (_ & _ & _ & _ & Hday & _).
  apply Hday. reflexivity.
Defined.

Lemma findAvailablePort_first_free_pair_witness :
  (findAvailablePort no_interference 9222 None 20 (sample_state ∅)).1
  = Ok (PortSelectionResult.mk 9226 9227 true 9222).
Proof.
  apply (findAvailablePort_first_free_pair no_interference no_interference_quiet
           9222 2 (sample_state ∅)).
  - reflexivity.
  - lia.
  - vm_compute. reflexivity.
  - vm_compute. reflexivity.
  - intros j Hj. assert (j = 0 ∨ j = 1) as [-> | ->] by lia; vm_compute; reflexivity.
Defined.

Lemma acquire_live_lock_conflict_witness :
  ∃ msg,
    (acquireProfileLock no_interference sample_ToNumber 4242 sample_iso "/profile" 9224
       (sample_state {[ lockFilePath "/profile" := sample_lock 100 ]})).1
    = Throw (Error msg)
    ∧ includes msg "PID 100"
    ∧ includes msg "port 8888"
    ∧ includes msg "2025-12-31T23:00:00.000Z".
Proof.
  destruct (acquire_live_lock_conflict no_interference sample_ToNumber 4242 sample_iso
              no_interference_quiet "/profile" 9224
              (sample_state {[ lockFilePath "/profile" := sample_lock 100 ]})
              (JObj [("pid", JNum 100); ("port", JNum 8888);
                     ("startedAt", JStr "2025-12-31T23:00:00.000Z")])
              100 8888 "2025-12-31T23:00:00.000Z")
    as (msg & Hrun & Hpid & Hport & Hstarted).
  - vm_compute. reflexivity.
  - reflexivity.
  - reflexivity.
  - reflexivity.
  - vm_compute. reflexivity.
  - exists msg. rewrite Hrun. auto.
Defined.

Lemma acquire_steals_guarded_lock_witness :
  running (sample_world ∅) 1 = true
  ∧ (acquireProfileLock no_interference sample_ToNumber 4242 sample_iso "/profile" 9224
       (sample_state {[ lockFilePath "/profile" := sample_lock 1 ]})).1
    = Ok ()
  ∧ files (world (acquireProfileLock no_interference sample_ToNumber 4242 sample_iso "/profile" 9224
                    (sample_state {[ lockFilePath "/profile" := sample_lock 1 ]})).2)
    !! lockFilePath "/profile"
    = Some (Json (stringify_LockInfo
                    (LockInfo.mk 4242 9224 (Some (JStr "2026-01-01T00:00:00.000Z"))))).
Proof.
  split; [reflexivity|].
  rewrite (acquire_steals_guarded_lock no_interference sample_ToNumber 4242 sample_iso
             no_interference_quiet "/profile" 9224
             (sample_state {[ lockFilePath "/profile" := sample_lock 1 ]})
             (JObj [("pid", JNum 1); ("port", JNum 8888);
                    ("startedAt", JStr "2025-12-31T23:00:00.000Z")])
             1 8888).
  - split; [reflexivity|]. vm_compute. reflexivity.
  - vm_compute. reflexivity.
  - reflexivity.
  - reflexivity.
  - vm_compute. reflexivity.
  - vm_compute. reflexivity.
Defined.


Lemma acquire_over_malformed_lock_witness :
  (acquireProfileLock no_interference sample_ToNumber 4242 sample_iso "/profile" 9224
     (sample_state {[ lockFilePath "/profile" := Text "{{not json" ]})).1
  = Ok ().
Proof.
  destruct (acquire_over_malformed_lock no_interference sample_ToNumber 4242 sample_iso
              no_interference_quiet "/profile" 9224
              (sample_state {[ lockFilePath "/profile" := Text "{{not json" ]})
              (Text "{{not json")) as [_ Hrun].
  - vm_compute. reflexivity.
  - exact I.
  - by rewrite Hrun.
Defined.

(** C3 on a double crash: while the modelled process acquires a free
    directory, a second process creates the lock and dies, and a third
    creates it again right before the retry.  Both exclusive creates
    fail, and what is thrown is the EEXIST error of the second create,
    not a conflict error. *)
Lemma acquire_double_crash_no_conflict_error :
  (acquireProfileLock (racing (lockFilePath "/profile") (sample_lock 77) 2 7) sample_ToNumber
     4242 sample_iso "/profile" 9224 (sample_state ∅)).1
  = Throw (ErrnoException EEXIST
             (Create (lockFilePath "/profile")
                (Json (stringify_LockInfo
                         (LockInfo.mk 4242 9224
                            (Some (JStr "2026-01-01T00:00:00.000Z")))))))
  ∧ create_outcomes
      (trace (acquireProfileLock (racing (lockFilePath "/profile") (sample_lock 77) 2 7) sample_ToNumber
                4242 sample_iso "/profile" 9224 (sample_state ∅)).2)
    = [Some EEXIST; Some EEXIST]
  ∧ ¬ conflict_error "/profile"
        (ErrnoException EEXIST
           (Create (lockFilePath "/profile")
              (Json (stringify_LockInfo
                       (LockInfo.mk 4242 9224
                          (Some (JStr "2026-01-01T00:00:00.000Z"))))))).
Proof.
  split; [vm_compute; reflexivity|]. split; [vm_compute; reflexivity|].
  intros (holder & [Heq | Heq]); discriminate.
Qed.

(** The same race lost to a process that is still there. *)
Example acquire_lost_to_live_winner :
  (acquireProfileLock (racing (lockFilePath "/profile") (sample_lock 100) 2 2) sample_ToNumber
     4242 sample_iso "/profile" 9224 (sample_state ∅)).1
  = Throw (Error (just_locked_message "/profile"
                    (LockInfo.mk 100 8888 (Some (JStr "2025-12-31T23:00:00.000Z"))))).
Proof. vm_compute. reflexivity. Qed.

(** The same race lost to a process of another user: its lock is
    removed and replaced. *)
Example acquire_lost_to_guarded_winner :
  (acquireProfileLock (racing (lockFilePath "/profile") (sample_lock 1) 2 2) sample_ToNumber
     4242 sample_iso "/profile" 9224 (sample_state ∅)).1
  = Ok ().
Proof. vm_compute. reflexivity. Qed.

Lemma acquire_lost_race_witness :
  let env := racing (lockFilePath "/profile") (sample_lock 77) 2 7 in
  let lock := Json (stringify_LockInfo
                      (LockInfo.mk 4242 9224 (Some (JStr "2026-01-01T00:00:00.000Z")))) in
  let run := acquireProfileLock env sample_ToNumber 4242 sample_iso "/profile" 9224 (sample_state ∅) in
  ∃ st2 st3 reread,
    readLock env "/profile" st2
    = (Ok (Some (LockInfo.mk 77 8888 (Some (JStr "2025-12-31T23:00:00.000Z")))), st3)
    ∧ trace st3 = trace st2 ++ reread
    ∧ Forall (lock_read "/profile") reread
    ∧ alive (env (length (trace st3)) (world st3)) 77 = false
    ∧ run.1 = Throw (ErrnoException EEXIST (Create (lockFilePath "/profile") lock))
    ∧ ¬ conflict_error "/profile"
          (ErrnoException EEXIST (Create (lockFilePath "/profile") lock)).
Proof.
  intros env lock run.
  set (lockData := LockInfo.mk 4242 9224 (Some (JStr "2026-01-01T00:00:00.000Z"))).
  set (st1 := (acquire_prepare env sample_ToNumber 4242 sample_iso "/profile" 9224 (sample_state ∅)).2).
  set (st2 := (writeFileSync_wx env (lockFilePath "/profile")
                 (Json (stringify_LockInfo lockData)) st1).2).
  destruct (acquire_lost_race env sample_ToNumber 4242 sample_iso "/profile" 9224
              (sample_state ∅) st1 st2 lockData)
    as (found & st3 & reread & Hread & Htrace & Hreread & Hcases).
  - vm_compute. reflexivity.
  - vm_compute. reflexivity.
  - assert (Hfound : (readLock env "/profile" st2).1
                     = Ok (Some (LockInfo.mk 77 8888
                                   (Some (JStr "2025-12-31T23:00:00.000Z")))))
      by (vm_compute; reflexivity).
    rewrite Hread in Hfound. simpl in Hfound. injection Hfound as ->.
    assert (Hst3 : st3 = (readLock env "/profile" st2).2) by (by rewrite Hread).
    destruct Hcases as [_ Hcases].
    assert (Hdead : alive (env (length (trace st3)) (world st3)) 77 = false)
      by (rewrite Hst3; vm_compute; reflexivity).
    cbn [LockInfo.pid] in Hcases. rewrite Hdead in Hcases.
    destruct Hcases as (unlinked & created & Hresult & _ & Hcreated).
    exists st2, st3, reread.
    split; [exact Hread|]. split; [exact Htrace|]. split; [exact Hreread|].
    split; [exact Hdead|].
    destruct created as [code|].
    + destruct Hcreated as [-> Hraw]. split; [exact Hresult | exact Hraw].
    + exfalso.
      assert (Hrun : run.1 ≠ Ok ()) by (vm_compute; discriminate).
      by apply Hrun.
Defined.

Lemma registry_wf_empty (w : World) : files w = ∅ → registry_wf w.
Proof. intros Hempty name v Hfile. by rewrite Hempty, lookup_empty in Hfile. Qed.

Lemma sample_registry_wf : registry_wf (world sample_registry).
Proof.
  unfold sample_registry.
  apply (registerInstance_wf no_interference no_interference_quiet).
  apply (registerInstance_wf no_interference no_interference_quiet).
  by apply registry_wf_empty.
Qed.

(** Outside [registry_wf]: a registry file that holds the JSON value
    [null] is parsed and collected, and the sort comparator throws on it. *)
Example listInstances_null_entry :
  (listInstances no_interference
     (registerInstance no_interference sample_live
        (sample_state {[ (INSTANCES_DIR, "0.json") := Json JNull ]})).2).1
  = Throw TypeError.
Proof. vm_compute. reflexivity. Qed.

Lemma listInstances_after_registerInstance_witness :
  ∃ st1 st2 listed v,
    registerInstance no_interference sample_live (sample_state ∅) = (Ok (), st1)
    ∧ listInstances no_interference st1 = (Ok listed, st2)
    ∧ v ∈ listed
    ∧ as_InstanceInfo v = Some sample_live.
Proof.
  apply (listInstances_after_registerInstance no_interference no_interference_quiet).
  by apply registry_wf_empty.
Defined.

Lemma cleanStaleInstances_exact_witness :
  ∃ stale st',
    cleanStaleInstances no_interference sample_ToNumber sample_registry = (Ok stale, st')
    ∧ stringify_InstanceInfo sample_orphaned ∈ stale
    ∧ (stringify_InstanceInfo sample_live ∉ stale)
    ∧ files (world st') !! instancePath (JN 9230) = None
    ∧ registered (world st') sample_live.
Proof.
  destruct (cleanStaleInstances_exact no_interference sample_ToNumber no_interference_quiet
              sample_registry sample_registry_wf)
    as (stale & st' & Hrun & Hstale & Hgone & Hkept & _).
  assert (Horphaned : registered (world sample_registry) sample_orphaned)
    by (vm_compute; reflexivity).
  assert (Hlive : registered (world sample_registry) sample_live)
    by (vm_compute; reflexivity).
  assert (Hdead : alive (world sample_registry) 77 = false) by (vm_compute; reflexivity).
  assert (Halive : alive (world sample_registry) 100 = true) by (vm_compute; reflexivity).
  exists stale, st'. split; [exact Hrun|]. split; [|split; [|split]].
  - apply Hstale. exists sample_orphaned. auto.
  - intros (info & Heq & _ & Hinfo)%Hstale.
    apply stringify_InstanceInfo_inj in Heq as <-.
    change (alive (world sample_registry) 100 = false) in Hinfo. congruence.
  - by apply (Hgone sample_orphaned).
  - by apply Hkept.
Defined.

Lemma stopInstance_dead_owner_live_child_witness :
  ∃ message,
    (stopInstance no_interference sample_ToNumber 9230 sample_registry).1
    = Ok (StopResult.mk 9230 true message)
    ∧ includes message "already stopped"
    ∧ registry_values
        (files (world (stopInstance no_interference sample_ToNumber 9230 sample_registry).2))
      = [stringify_InstanceInfo sample_live].
Proof.
  destruct (stopInstance_dead_owner_live_child no_interference sample_ToNumber no_interference_quiet
              9230 sample_registry sample_orphaned 100)
    as (message & Hrun & Hmsg & _).
  - vm_compute. reflexivity.
  - vm_compute. reflexivity.
  - reflexivity.
  - vm_compute. reflexivity.
  - lia.
  - exists message. rewrite Hrun. split; [done|]. split; [done|].
    vm_compute. reflexivity.
Defined.

Lemma sample_registry_foreign_wf : registry_wf (world sample_registry_foreign).
Proof.
  unfold sample_registry_foreign.
  apply (registerInstance_wf no_interference no_interference_quiet).
  apply (registerInstance_wf no_interference no_interference_quiet).
  by apply registry_wf_empty.
Qed.

Lemma cleanStaleInstances_removes_guarded_witness :
  running (world sample_registry_foreign) 1 = true
  ∧ ∃ stale st',
      cleanStaleInstances no_interference sample_ToNumber sample_registry_foreign = (Ok stale, st')
      ∧ stringify_InstanceInfo sample_foreign ∈ stale
      ∧ files (world st') !! instancePath (JN 9240) = None.
Proof.
  split; [reflexivity|].
  apply (cleanStaleInstances_removes_guarded no_interference sample_ToNumber no_interference_quiet
           sample_registry_foreign sample_foreign sample_registry_foreign_wf).
  - vm_compute. reflexivity.
  - reflexivity.
  - vm_compute. reflexivity.
Defined.

Lemma stopInstance_dead_owner_guarded_child_witness :
  running (world sample_registry_foreign) 5150 = true
  ∧ (stopInstance no_interference sample_ToNumber 9250 sample_registry_foreign).1
    = Ok (StopResult.mk 9250 true
            "Instance on port 9250 was already stopped (cleaned registry)")
  ∧ omap signalled (trace (stopInstance no_interference sample_ToNumber 9250 sample_registry_foreign).2)
    = [].
Proof.
  split; [reflexivity|].
  destruct (stopInstance_dead_owner_guarded_child no_interference sample_ToNumber no_interference_quiet
              9250 sample_registry_foreign sample_foreign_child 5150)
    as (Hrun & _ & _).
  - vm_compute. reflexivity.
  - vm_compute. reflexivity.
  - reflexivity.
  - reflexivity.
  - vm_compute. reflexivity.
  - lia.
  - rewrite Hrun. split; [vm_compute; reflexivity|]. vm_compute. reflexivity.
Defined.

(** A pid that a registry file holds as text is probed like the number
    it reads as; [null] never reaches the kernel. *)
Example isProcessRunning_numeric_string :
  isProcessRunning no_interference sample_ToNumber (Some (JStr "100")) (sample_state ∅)
  = (Ok true,
     mkState (sample_world ∅) [(Kill 100 SIG0, None)] []).
Proof. vm_compute. reflexivity. Qed.

Example isProcessRunning_null_pid :
  isProcessRunning no_interference sample_ToNumber (Some JNull) (sample_state ∅)
  = (Ok false, sample_state ∅).
Proof. vm_compute. reflexivity. Qed.

(** ** The further theorems at sample inputs *)

Lemma findAvailablePort_explicit_witness :
  (findAvailablePort no_interference 9222 (Some 9223) 20 (sample_state ∅)).1
  = Throw (Error "Port 9222 is already in use. Specify a different --port.").
Proof.
  destruct (findAvailablePort_explicit no_interference no_interference_quiet
              9222 9223 20 (sample_state ∅)) as (st' & Hrun & _).
  - reflexivity.
  - reflexivity.
  - rewrite Hrun. vm_compute. reflexivity.
Defined.

Lemma findAvailablePort_sound_witness :
  ∃ k : Z, 0 ≤ k < 20 ∧ 9226 = 9222 + 2 * k.
Proof.
  destruct (findAvailablePort_sound no_interference no_interference_quiet
              9222 20 (sample_state ∅) (PortSelectionResult.mk 9226 9227 true 9222))
    as (k & Hk & Hr & _).
  - vm_compute. reflexivity.
  - exists k. split; [exact Hk|]. exact (f_equal PortSelectionResult.port Hr).
Defined.

Lemma findAvailablePort_exhausted_witness :
  ∃ (n : nat) (st' : State),
    (1 ≤ n ≤ 20)%nat
    ∧ findAvailablePort no_interference 65534 None 20
        (mkState (mkWorld ∅ ∅ ∅ {[ 65534 ]} 0) [] [])
      = (Throw (Error ("Could not find an available port pair after 20 attempts (tried "
                       +:+ pretty 65534 +:+ "–" +:+ pretty (65534 + 2 * (Z.of_nat n - 1))
                       +:+ "). Specify an explicit --port.")), st').
Proof.
  destruct (findAvailablePort_exhausted no_interference no_interference_quiet 65534
              (mkState (mkWorld ∅ ∅ ∅ {[ 65534 ]} 0) [] []))
    as (n & st' & Hn & Hrun & _).
  - reflexivity.
  - lia.
  - intros j Hj. destruct (decide (j = 0)) as [->|Hne]; [vm_compute; reflexivity|].
    apply andb_false_iff. left. apply andb_false_iff. left.
    apply andb_false_iff. right. apply Z.leb_gt. simpl. lia.
  - exists n, st'. split; [exact Hn | exact Hrun].
Defined.


Lemma acquireProfileLock_then_readLock_witness :
  ∃ st1 st2,
    acquireProfileLock no_interference sample_ToNumber 4242 sample_iso "/profile" 9224 (sample_state ∅)
    = (Ok (), st1)
    ∧ readLock no_interference "/profile" st1
      = (Ok (Some (LockInfo.mk 4242 9224 (Some (JStr "2026-01-01T00:00:00.000Z")))), st2).
Proof.
  destruct (acquireProfileLock_then_readLock no_interference sample_ToNumber 4242 sample_iso
              no_interference_quiet "/profile" 9224 (sample_state ∅))
    as (st1 & st2 & Hacquire & Hread & _).
  - reflexivity.
  - exists st1, st2. split; [exact Hacquire | exact Hread].
Defined.

Lemma acquireProfileLock_excludes_witness :
  ∃ st1 st2 msg,
    acquireProfileLock no_interference sample_ToNumber 100 sample_iso "/profile" 9224 (sample_state ∅)
    = (Ok (), st1)
    ∧ acquireProfileLock no_interference sample_ToNumber 4242 sample_iso "/profile" 9226 st1
      = (Throw (Error msg), st2)
    ∧ includes msg "PID 100"
    ∧ includes msg "port 9224".
Proof.
  destruct (acquireProfileLock_excludes no_interference sample_ToNumber sample_iso no_interference_quiet
              "/profile" 100 4242 9224 9226 (sample_state ∅))
    as (st1 & st2 & msg & Hfirst & Hsecond & Hpid & Hport & _).
  - reflexivity.
  - vm_compute. reflexivity.
  - exists st1, st2, msg. repeat split; assumption.
Defined.

Lemma removeLock_releases_witness :
  ∃ st1 st2 st3,
    acquireProfileLock no_interference sample_ToNumber 100 sample_iso "/profile" 9224 (sample_state ∅)
    = (Ok (), st1)
    ∧ removeLock no_interference "/profile" st1 = (Ok (), st2)
    ∧ acquireProfileLock no_interference sample_ToNumber 4242 sample_iso "/profile" 9226 st2 = (Ok (), st3).
Proof.
  destruct (removeLock_releases no_interference sample_ToNumber sample_iso no_interference_quiet
              "/profile" 100 4242 9224 9226 (sample_state ∅))
    as (st1 & st2 & st3 & Hfirst & Hremove & _ & Hsecond & _).
  - reflexivity.
  - exists st1, st2, st3. repeat split; assumption.
Defined.

Lemma registerInstance_then_getInstance_witness :
  ∃ st1,
    registerInstance no_interference sample_live (sample_state ∅) = (Ok (), st1)
    ∧ (getInstance no_interference 9222 st1).1 = Ok (stringify_InstanceInfo sample_live).
Proof.
  destruct (registerInstance_then_getInstance no_interference no_interference_quiet
              sample_live (sample_state ∅)) as (st1 & Hregister & Hget & _).
  exists st1. split; [exact Hregister | exact Hget].
Defined.

Lemma unregisterInstance_then_getInstance_witness :
  ∃ st1,
    unregisterInstance no_interference (JN 9222) sample_registry = (Ok (), st1)
    ∧ (getInstance no_interference 9222 st1).1 = Ok JNull
    ∧ (getInstance no_interference 9230 st1).1
      = Ok (stringify_InstanceInfo sample_orphaned).
Proof.
  destruct (unregisterInstance_then_getInstance no_interference no_interference_quiet
              9222 sample_registry) as (st1 & st2 & Hrun & Hget & _ & _ & Hother).
  exists st1. split; [exact Hrun|]. split; [exact Hget|].
  rewrite (Hother 9230) by lia. vm_compute. reflexivity.
Defined.

Lemma listInstances_sorted_records_witness :
  ∃ infos st',
    listInstances no_interference sample_registry
    = (Ok (stringify_InstanceInfo <$> infos), st')
    ∧ sample_live ∈ infos
    ∧ sample_orphaned ∈ infos
    ∧ StronglySorted (λ a b, InstanceInfo.port a < InstanceInfo.port b) infos.
Proof.
  destruct (listInstances_sorted_records no_interference no_interference_quiet
              sample_registry sample_registry_wf) as (infos & st' & Hrun & _ & Hmem & Hsorted).
  exists infos, st'. split; [exact Hrun|].
  split; [apply Hmem; vm_compute; reflexivity|].
  split; [apply Hmem; vm_compute; reflexivity | exact Hsorted].
Defined.

Lemma cleanStaleInstances_idempotent_witness :
  ∃ stale st1 st2,
    cleanStaleInstances no_interference sample_ToNumber sample_registry = (Ok stale, st1)
    ∧ cleanStaleInstances no_interference sample_ToNumber st1 = (Ok [], st2)
    ∧ files (world st2) = files (world st1).
Proof.
  destruct (cleanStaleInstances_idempotent no_interference sample_ToNumber no_interference_quiet
              sample_registry sample_registry_wf)
    as (stale & st1 & st2 & Hfirst & _ & Hsecond & Hfiles).
  exists stale, st1, st2. split; [exact Hfirst|]. split; [exact Hsecond | exact Hfiles].
Defined.

Lemma updateInstanceChromePid_registered_witness :
  ∃ st',
    updateInstanceChromePid no_interference 9222 555 sample_registry = (Ok (), st')
    ∧ (getInstance no_interference 9222 st').1
      = Ok (stringify_InstanceInfo (with_chromePid sample_live 555)).
Proof.
  destruct (updateInstanceChromePid_registered no_interference no_interference_quiet
              sample_live 555 sample_registry) as (st' & Hrun & _ & Hget & _).
  - vm_compute. reflexivity.
  - exists st'. split; [exact Hrun | exact Hget].
Defined.

Lemma updateInstanceChromePid_unregistered_witness :
  ∃ outcome,
    updateInstanceChromePid no_interference 9300 555 sample_registry
    = (Ok (),
       mkState (world sample_registry)
         (trace sample_registry ++ [(ReadFile (instancePath (JN 9300)), outcome)])
         (console sample_registry)).
Proof.
  apply (updateInstanceChromePid_unregistered no_interference no_interference_quiet
           9300 555 sample_registry).
  intros v. vm_compute. discriminate.
Defined.

Lemma stopInstance_unregistered_witness :
  ∃ outcome,
    stopInstance no_interference sample_ToNumber 9300 sample_registry
    = (Ok (StopResult.mk 9300 false "No instance registered on port 9300"),
       mkState (world sample_registry)
         (trace sample_registry ++ [(ReadFile (instancePath (JN 9300)), outcome)])
         (console sample_registry)).
Proof.
  apply (stopInstance_unregistered no_interference sample_ToNumber no_interference_quiet
           9300 sample_registry).
  intros v. vm_compute. discriminate.
Defined.

Lemma stopInstance_unresponsive_witness :
  ∃ st' evs,
    stopInstance no_interference sample_ToNumber 9222 sample_registry
    = (Ok (StopResult.mk 9222 false
             "Instance on port 9222 may not have fully stopped (server: running, chrome: stopped)"),
       st')
    ∧ trace st' = trace sample_registry ++ evs
    ∧ filter (λ ev, is_probe ev = false) evs
      = [(ReadFile (instancePath (JN 9222)), None); (Kill 100 SIGTERM, None);
         (Kill 100 SIGKILL, None); (Unlink (instancePath (JN 9222)), None)].
Proof.
  destruct (stopInstance_unresponsive no_interference sample_ToNumber no_interference_quiet
              9222 sample_registry sample_live)
    as (st' & evs & Hrun & Htrace & Hsignals & _).
  - vm_compute. reflexivity.
  - vm_compute. reflexivity.
  - reflexivity.
  - exists st', evs. split; [exact Hrun|]. split; [exact Htrace | exact Hsignals].
Defined.

Lemma stopInstance_graceful_witness :
  ∃ st' evs,
    stopInstance (exits_at 100 3) sample_ToNumber 9222 sample_registry_fresh
    = (Ok (StopResult.mk 9222 true "Instance on port 9222 stopped successfully"), st')
    ∧ trace st' = trace sample_registry_fresh ++ evs
    ∧ files (world st') !! instancePath (JN 9222) = None
    ∧ Forall (λ ev, ∀ p, ev.1 ≠ Kill p SIGKILL) evs.
Proof.
  destruct (stopInstance_graceful (exits_at 100 3) sample_ToNumber 9222 sample_registry_fresh sample_live)
    as (st' & evs & Hrun & Htrace & Hgone & Hsignals & _).
  - intros n w. unfold exits_at. by destruct (3 <=? n)%nat.
  - intros n w Hn. unfold exits_at. simpl in Hn.
    destruct (Nat.leb_spec 3 n); [lia | done].
  - intros n w Hn. unfold exits_at. simpl in Hn.
    destruct (Nat.leb_spec 3 n); [|lia].
    unfold alive. simpl. apply bool_decide_eq_false.
    apply not_elem_of_difference. right. by apply elem_of_singleton.
  - intros child n w Hchild. discriminate.
  - vm_compute. reflexivity.
  - vm_compute. reflexivity.
  - exists st', evs. split; [exact Hrun|]. split; [exact Htrace|].
    split; [exact Hgone | exact Hsignals].
Defined.

Lemma sample_crashed_wf : registry_wf (world sample_crashed).
Proof.
  apply (registerInstance_wf no_interference no_interference_quiet).
  by apply registry_wf_empty.
Qed.

Lemma stopAllInstances_after_crash_witness :
  ∃ infos st' evs,
    stopAllInstances no_interference sample_ToNumber sample_crashed = (Ok (cleaned_result <$> infos), st')
    ∧ (sample_orphaned ∈ infos)
    ∧ registry_values (files (world st')) = []
    ∧ trace st' = trace sample_crashed ++ evs
    ∧ omap signalled evs = omap (orphan (world sample_crashed)) infos.
Proof.
  destruct (stopAllInstances_after_crash no_interference sample_ToNumber no_interference_quiet
              sample_crashed sample_crashed_wf)
    as (infos & st' & evs & Hrun & Hmem & _ & Hempty & Htrace & Hsignals).
  - intros info Hreg. unfold registered in Hreg.
    change (files (world sample_crashed))
      with (<[instancePath (JN 9230) := Json (stringify_InstanceInfo sample_orphaned)]>
              (∅ : gmap (string * string) FileData)) in Hreg.
    apply lookup_insert_Some in Hreg as [[_ Heq]|[_ Hempty]].
    + assert (info = sample_orphaned) as ->
        by (apply stringify_InstanceInfo_inj; congruence).
      vm_compute. reflexivity.
    + by rewrite lookup_empty in Hempty.
  - exists infos, st', evs. split; [exact Hrun|].
    split; [apply Hmem; vm_compute; reflexivity|].
    split; [exact Hempty|]. split; [exact Htrace | exact Hsignals].
Defined.

Lemma registry_wf_invariant_witness :
  registry_wf
    (world (foldl (after_call no_interference sample_ToNumber) (sample_state ∅)
              [CallRegister sample_live; CallRegister sample_orphaned;
               CallUpdateChromePid 9222 555; CallCleanStale; CallStop 9222;
               CallList; CallStopAll])).
Proof.
  apply (registry_wf_invariant no_interference sample_ToNumber no_interference_quiet).
  by apply registry_wf_empty.
Defined.

Lemma cleanStaleInstances_sorted_witness :
  ∃ dead st',
    cleanStaleInstances no_interference sample_ToNumber sample_registry
    = (Ok (stringify_InstanceInfo <$> dead), st')
    ∧ sample_orphaned ∈ dead
    ∧ sample_live ∉ dead.
Proof.
  destruct (cleanStaleInstances_sorted no_interference sample_ToNumber no_interference_quiet
              sample_registry sample_registry_wf) as (dead & st' & Hrun & Hmem & _).
  exists dead, st'. split; [exact Hrun|]. split.
  - apply Hmem. split; vm_compute; reflexivity.
  - intros [_ Hdead]%Hmem. vm_compute in Hdead. discriminate.
Defined.

Lemma cookieSummary_hides_values_witness :
  cookieSummary [sample_cookie] = cookieSummary [sample_cookie'].
Proof. apply cookieSummary_hides_values. reflexivity. Defined.
